(** * Pac-Man engine: ghost behaviour and AI-assist subsystem

    A shallow embedding of the classes [AIEngine] (engine/AIEngine.ts) and
    [GameEngine] (engine/GameEngine.ts), of the types of types/game.ts and of
    the constants of config/gameConfig.ts, and the properties of the
    specification that are about them.

    Conventions of the embedding.
    - A JavaScript number that is finite is an exact rational ([Q]); the
      pattern learner, whose weights are the result of a division by the
      window length, uses [JSNum.num], which adds [NaN] and the infinities.
    - A grid position handed to the pathfinder is a pair of integers; the
      string key [`${x},${y}`] of the source's [Map]s is the pair itself.
    - A [while] loop of the source is a [Fixpoint] on a fuel argument and
      returns [None] when the fuel runs out; [forEach] is a left fold.
    - An object is a value, except where the source writes an object in
      place while another object refers to it: the target of a ghost can be
      the object [pacman.position], which [updatePacMan] writes in place;
      [targetShared] of [Ghost] keeps track of that sharing. *)

From Stdlib Require Import ZArith QArith Qabs Qround List Lia.
From stdpp Require Import gmap list.
Import ListNotations.

Local Open Scope Z_scope.

(** ** types/game.ts *)

Inductive Direction := UP | DOWN | LEFT | RIGHT | NONE.

Inductive CellType := EMPTY | WALL | PELLET | POWER_PELLET | GHOST_HOUSE | TUNNEL | FRUIT.

Inductive GhostState := CHASE | SCATTER | FRIGHTENED | EATEN | IN_HOUSE.

Inductive GhostType := BLINKY | PINKY | INKY | CLYDE.

#[global] Instance Direction_eq_dec : EqDecision Direction.
Proof. solve_decision. Defined.
#[global] Instance CellType_eq_dec : EqDecision CellType.
Proof. solve_decision. Defined.
#[global] Instance GhostState_eq_dec : EqDecision GhostState.
Proof. solve_decision. Defined.
#[global] Instance GhostType_eq_dec : EqDecision GhostType.
Proof. solve_decision. Defined.

(** A maze is [CellType[][]]: [maze[y][x]], rows first. *)
Definition Maze := list (list CellType).

(** [maze[y][x]] for integer indices; [None] is JavaScript's [undefined]. *)
Definition cellAt (maze : Maze) (x y : Z) : option CellType :=
  if (y <? 0) || (x <? 0) then None
  else match nth_error maze (Z.to_nat y) with
       | Some row => nth_error row (Z.to_nat x)
       | None => None
       end.

(** [c !== CellType.WALL], where [c] may be [undefined]. *)
Definition notWall (c : option CellType) : bool :=
  match c with
  | Some WALL => false
  | _ => true
  end.

(** ** engine/AIEngine.ts: the pathfinder *)

Module AStar.

(** A grid position [{x, y}] with integer coordinates. *)
Definition GridPos := (Z * Z)%type.

Definition getNextPosition (position : GridPos) (direction : Direction) : GridPos :=
  match direction with
  | UP => (position.1, position.2 - 1)
  | DOWN => (position.1, position.2 + 1)
  | LEFT => (position.1 - 1, position.2)
  | RIGHT => (position.1 + 1, position.2)
  | NONE => position
  end.

(** [maze[0].length]; only read once [maze.length > position.y >= 0]. *)
Definition rowLength (maze : Maze) : Z :=
  match maze with
  | row :: _ => Z.of_nat (length row)
  | [] => 0
  end.

Definition isValidPosition (position : GridPos) (maze : Maze) : bool :=
  if (position.2 <? 0) || (position.2 >=? Z.of_nat (length maze)) then false
  else if (position.1 <? 0) || (position.1 >=? rowLength maze) then false
  else notWall (cellAt maze position.1 position.2).

Definition manhattanDistance (pos1 pos2 : GridPos) : Z :=
  Z.abs (pos1.1 - pos2.1) + Z.abs (pos1.2 - pos2.2).

(** The value of [(m.get(key) || Infinity)]: a missing entry and a stored
    [0] are both falsy, so both read as [Infinity]. *)
Inductive score := Finite (n : Z) | Infinity.

Definition orInfinity (v : option Z) : score :=
  match v with
  | Some 0 => Infinity
  | Some n => Finite n
  | None => Infinity
  end.

Definition score_ltb (a b : score) : bool :=
  match a, b with
  | Finite m, Finite n => m <? n
  | Finite _, Infinity => true
  | Infinity, _ => false
  end.

(** [(m.get(key) || 0)]. *)
Definition orZero (v : option Z) : Z :=
  match v with
  | Some n => n
  | None => 0
  end.

Record SearchState := {
  openSet : list GridPos;
  cameFrom : gmap GridPos GridPos;
  gScore : gmap GridPos Z;
  fScore : gmap GridPos Z
}.

(** The inner [for] loop that finds the node with the lowest fScore:
    [current]/[currentIndex] are the best so far, [i] the index of the
    head of [rest]. *)
Fixpoint lowestFrom (fs : gmap GridPos Z) (current : GridPos) (currentIndex i : nat)
    (rest : list GridPos) : GridPos * nat :=
  match rest with
  | [] => (current, currentIndex)
  | node :: rest' =>
      if score_ltb (orInfinity (fs !! node)) (orInfinity (fs !! current))
      then lowestFrom fs node i (S i) rest'
      else lowestFrom fs current currentIndex (S i) rest'
  end.

(** [openSet.splice(currentIndex, 1)]. *)
Definition splice1 (l : list GridPos) (i : nat) : list GridPos := delete i l.

(** [openSet.some(pos => pos.x === neighbor.x && pos.y === neighbor.y)]. *)
Definition inOpenSet (l : list GridPos) (p : GridPos) : bool :=
  existsb (fun q => (q.1 =? p.1) && (q.2 =? p.2)) l.

(** The body of [directions.forEach] for one direction. *)
Definition visitNeighbor (maze : Maze) (goal current : GridPos)
    (st : SearchState) (direction : Direction) : SearchState :=
  let neighbor := getNextPosition current direction in
  if negb (isValidPosition neighbor maze) then st
  else
    let tentativeGScore := orZero (gScore st !! current) + 1 in
    if score_ltb (Finite tentativeGScore) (orInfinity (gScore st !! neighbor)) then
      {| openSet := if inOpenSet (openSet st) neighbor then openSet st
                    else openSet st ++ [neighbor];
         cameFrom := <[neighbor := current]> (cameFrom st);
         gScore := <[neighbor := tentativeGScore]> (gScore st);
         fScore := <[neighbor := tentativeGScore + manhattanDistance neighbor goal]>
                     (fScore st) |}
    else st.

Definition directions : list Direction := [UP; DOWN; LEFT; RIGHT].

Definition expand (maze : Maze) (goal current : GridPos) (st : SearchState) : SearchState :=
  fold_left (visitNeighbor maze goal current) directions st.

(** How the [while (openSet.length > 0)] loop is left. *)
Inductive SearchResult :=
| GoalReached (cf : gmap GridPos GridPos) (current : GridPos)
| OpenSetEmpty.

Fixpoint searchLoop (fuel : nat) (maze : Maze) (goal : GridPos) (st : SearchState)
    : option SearchResult :=
  match fuel with
  | O => None
  | S fuel' =>
      match openSet st with
      | [] => Some OpenSetEmpty
      | first :: rest =>
          let '(current, currentIndex) := lowestFrom (fScore st) first 0 1 rest in
          if (current.1 =? goal.1) && (current.2 =? goal.2)
          then Some (GoalReached (cameFrom st) current)
          else
            searchLoop fuel' maze goal
              (expand maze goal current
                 {| openSet := splice1 (openSet st) currentIndex;
                    cameFrom := cameFrom st;
                    gScore := gScore st;
                    fScore := fScore st |})
      end
  end.

(** [while (cameFrom.has(currentKey)) { current = cameFrom.get(currentKey);
    path.unshift(current); ... }]. *)
Fixpoint reconstructPath (fuel : nat) (cf : gmap GridPos GridPos) (current : GridPos)
    (path : list GridPos) : option (list GridPos) :=
  match cf !! current with
  | None => Some path
  | Some prev =>
      match fuel with
      | O => None
      | S fuel' => reconstructPath fuel' cf prev (prev :: path)
      end
  end.

Definition initialState (start goal : GridPos) : SearchState :=
  {| openSet := [start];
     cameFrom := ∅;
     gScore := {[ start := 0 ]};
     fScore := {[ start := manhattanDistance start goal ]} |}.

(** [findPathAStar]: [None] means that one of the two loops was still
    running after [fuel] iterations. *)
Definition findPathAStar (fuel : nat) (start goal : GridPos) (maze : Maze)
    : option (list GridPos) :=
  match searchLoop fuel maze goal (initialState start goal) with
  | None => None
  | Some OpenSetEmpty => Some []
  | Some (GoalReached cf current) => reconstructPath fuel cf current [current]
  end.

End AStar.

(** ** JavaScript numbers that need not be finite *)

Module JSNum.

(** An IEEE double, with every finite value taken as the rational it
    stands for; the sign of zero is not tracked (a zero divisor below is
    always an array length, [+0]). *)
Inductive num := NaN | PInf | NInf | Fin (q : Q).

Definition neg (a : num) : num :=
  match a with
  | NaN => NaN
  | PInf => NInf
  | NInf => PInf
  | Fin q => Fin (- q)
  end.

Definition add (a b : num) : num :=
  match a, b with
  | NaN, _ | _, NaN => NaN
  | PInf, NInf | NInf, PInf => NaN
  | PInf, _ | _, PInf => PInf
  | NInf, _ | _, NInf => NInf
  | Fin p, Fin q => Fin (p + q)
  end.

Definition sub (a b : num) : num := add a (neg b).

(** The infinity with the sign of [q], [NaN] for [q == 0]. *)
Definition signedInf (q : Q) : num :=
  match Qcompare q 0 with
  | Gt => PInf
  | Lt => NInf
  | Eq => NaN
  end.

Definition mul (a b : num) : num :=
  match a, b with
  | NaN, _ | _, NaN => NaN
  | PInf, PInf | NInf, NInf => PInf
  | PInf, NInf | NInf, PInf => NInf
  | PInf, Fin q | Fin q, PInf => signedInf q
  | NInf, Fin q | Fin q, NInf => signedInf (- q)
  | Fin p, Fin q => Fin (p * q)
  end.

Definition div (a b : num) : num :=
  match a, b with
  | NaN, _ | _, NaN => NaN
  | (PInf | NInf), (PInf | NInf) => NaN
  | PInf, Fin q => if Qle_bool 0 q then PInf else NInf
  | NInf, Fin q => if Qle_bool 0 q then NInf else PInf
  | Fin _, (PInf | NInf) => Fin 0
  | Fin p, Fin q => if Qeq_bool q 0 then signedInf p else Fin (p / q)
  end.

(** [a > b]; false as soon as one side is [NaN]. *)
Definition gtb (a b : num) : bool :=
  match a, b with
  | NaN, _ | _, NaN => false
  | PInf, PInf => false
  | PInf, _ => true
  | _, PInf => false
  | NInf, _ => false
  | Fin _, NInf => true
  | Fin p, Fin q => negb (Qle_bool p q)
  end.

(** [a < b]. *)
Definition ltb (a b : num) : bool := gtb b a.

Definition isNaN (a : num) : bool :=
  match a with
  | NaN => true
  | _ => false
  end.

(** [Math.max(a, b)] and [Math.min(a, b)]: [NaN] if either is. *)
Definition max (a b : num) : num :=
  if isNaN a || isNaN b then NaN else if gtb b a then b else a.

Definition min (a b : num) : num :=
  if isNaN a || isNaN b then NaN else if gtb a b then b else a.

(** [Math.max(...values)]; [Math.max()] is [-Infinity]. *)
Definition maxOf (values : list num) : num := fold_left max values NInf.

(** [a <= b] as a proposition; it fails when either side is [NaN]. *)
Definition le (a b : num) : Prop :=
  match a, b with
  | NaN, _ | _, NaN => False
  | NInf, _ => True
  | _, PInf => True
  | PInf, _ => False
  | _, NInf => False
  | Fin p, Fin q => (p <= q)%Q
  end.

End JSNum.

(** ** config/gameConfig.ts *)

Module GAME_CONFIG.
Definition MAZE_WIDTH : Z := 19.
Definition MAZE_HEIGHT : Z := 21.
Definition CELL_SIZE : Z := 24.
Definition PACMAN_SPEED : Q := 2.
Definition GHOST_SPEED : Q := 18 # 10.
Definition FRIGHTENED_SPEED : Q := 12 # 10.
Definition POWER_PELLET_DURATION : Z := 360.
Definition GHOST_FLASH_DURATION : Z := 120.
Definition POINTS_PELLET : Z := 10.
Definition POINTS_POWER_PELLET : Z := 50.
Definition POINTS_GHOST_BASE : Z := 200.
Definition POINTS_FRUIT : list Z := [100; 300; 500; 700; 1000; 2000; 3000; 5000].
Definition FPS : Z := 60.
Definition AI_PREDICTION_STEPS : Z := 5.
Definition AI_PATTERN_MEMORY : Z := 20.
End GAME_CONFIG.

Module AI_CONFIG.
Definition DANGER_RADIUS : Q := 3.
Definition SAFE_DISTANCE : Q := 5.
Definition PREDICTION_WEIGHT : Q := 7 # 10.
Definition PATTERN_THRESHOLD : Q := 6 # 10.
Definition LEARNING_RATE : Q := 1 # 10.
Definition MAX_LEARNING_LEVEL : Q := 100.
End AI_CONFIG.

(** [CellType] values as the numbers the layout is written with. *)
Definition cellOfCode (n : nat) : CellType :=
  match n with
  | 0 => EMPTY | 1 => WALL | 2 => PELLET | 3 => POWER_PELLET
  | 4 => GHOST_HOUSE | 5 => TUNNEL | _ => FRUIT
  end%nat.

Definition MAZE_LAYOUT : Maze :=
  map (map cellOfCode) [
    [1;1;1;1;1;1;1;1;1;1;1;1;1;1;1;1;1;1;1];
    [1;2;2;2;2;2;2;2;2;1;2;2;2;2;2;2;2;2;1];
    [1;3;1;1;1;2;1;1;1;1;1;1;1;2;1;1;1;3;1];
    [1;2;2;2;2;2;2;2;2;2;2;2;2;2;2;2;2;2;1];
    [1;2;1;1;1;2;1;2;1;1;1;2;1;2;1;1;1;2;1];
    [1;2;2;2;2;2;1;2;2;1;2;2;1;2;2;2;2;2;1];
    [1;1;1;1;1;2;1;1;0;1;0;1;1;2;1;1;1;1;1];
    [0;0;0;0;1;2;1;0;0;0;0;0;1;2;1;0;0;0;0];
    [1;1;1;1;1;2;1;0;4;4;4;0;1;2;1;1;1;1;1];
    [5;0;0;0;0;2;0;0;4;4;4;0;0;2;0;0;0;0;5];
    [1;1;1;1;1;2;1;0;4;4;4;0;1;2;1;1;1;1;1];
    [0;0;0;0;1;2;1;0;0;0;0;0;1;2;1;0;0;0;0];
    [1;1;1;1;1;2;1;1;0;1;0;1;1;2;1;1;1;1;1];
    [1;2;2;2;2;2;2;2;2;1;2;2;2;2;2;2;2;2;1];
    [1;2;1;1;1;2;1;1;1;1;1;1;1;2;1;1;1;2;1];
    [1;3;2;2;1;2;2;2;2;2;2;2;2;2;1;2;2;3;1];
    [1;1;1;2;1;2;1;2;1;1;1;2;1;2;1;2;1;1;1];
    [1;2;2;2;2;2;1;2;2;1;2;2;1;2;2;2;2;2;1];
    [1;2;1;1;1;1;1;1;2;1;2;1;1;1;1;1;1;2;1];
    [1;2;2;2;2;2;2;2;2;2;2;2;2;2;2;2;2;2;1];
    [1;1;1;1;1;1;1;1;1;1;1;1;1;1;1;1;1;1;1]
  ]%nat.

(** ** types/game.ts: entities *)

(** A [Position] whose coordinates are any finite numbers: world (pixel)
    positions, and grid positions written as numbers. *)
Record Position := { posX : Q; posY : Q }.

Record Velocity := { dx : Q; dy : Q }.

(** [Ghost], without its [color] string and its [pathPrediction] cache.

    [targetPosition] is a reference in the source: [getGhostTarget] returns
    the object [pacman.position] itself for some ghosts, [updateGhostState]
    stores it, and [updatePacMan] later writes [pacman.position.x] and
    [pacman.position.y] in place. [targetShared] records that sharing: it
    holds while [targetPosition] is the object [pacman.position]; the ghost
    then reads Pac-Man's coordinates through it. No other object of a ghost
    is written in place while something else refers to it. *)
Record Ghost := {
  id : GhostType;
  position : Position;
  velocity : Velocity;
  direction : Direction;
  state : GhostState;
  targetPosition : Position;
  scatterTarget : Position;
  houseTimer : Z;
  frightenedTimer : Z;
  isFlashing : bool;
  lastDirection : Direction;
  targetShared : bool
}.

Record PacMan := {
  pacPosition : Position;
  pacVelocity : Velocity;
  pacDirection : Direction;
  nextDirection : Direction;
  animationFrame : Z;
  isDead : bool;
  mouthOpen : bool
}.

(** [Math.round]: the nearest integer, a half rounded towards [+Infinity]. *)
Definition Math_round (q : Q) : Z := Qfloor (q + (1 # 2)).

(** [Math.min] and [Math.max] on finite numbers. *)
Definition Math_min (a b : Q) : Q := if Qle_bool a b then a else b.
Definition Math_max (a b : Q) : Q := if Qle_bool a b then b else a.

(** ** engine/AIEngine.ts *)

Module AIEngine.

Import JSNum.

(** [patternWeights], an object with one number per [Direction], its keys
    in the order [UP, DOWN, LEFT, RIGHT, NONE]. *)
Record Weights := {
  wUP : num; wDOWN : num; wLEFT : num; wRIGHT : num; wNONE : num
}.

(** The private fields of the class. *)
Record t := {
  playerPatterns : list Direction;
  patternWeights : Weights;
  learningLevel : num
}.

(** [new AIEngine()]. *)
Definition create : t :=
  {| playerPatterns := [];
     patternWeights := {| wUP := Fin 0; wDOWN := Fin 0; wLEFT := Fin 0;
                          wRIGHT := Fin 0; wNONE := Fin 0 |};
     learningLevel := Fin 0 |}.

Definition getWeight (w : Weights) (d : Direction) : num :=
  match d with
  | UP => wUP w | DOWN => wDOWN w | LEFT => wLEFT w | RIGHT => wRIGHT w | NONE => wNONE w
  end.

Definition setWeight (w : Weights) (d : Direction) (v : num) : Weights :=
  match d with
  | UP => {| wUP := v; wDOWN := wDOWN w; wLEFT := wLEFT w; wRIGHT := wRIGHT w; wNONE := wNONE w |}
  | DOWN => {| wUP := wUP w; wDOWN := v; wLEFT := wLEFT w; wRIGHT := wRIGHT w; wNONE := wNONE w |}
  | LEFT => {| wUP := wUP w; wDOWN := wDOWN w; wLEFT := v; wRIGHT := wRIGHT w; wNONE := wNONE w |}
  | RIGHT => {| wUP := wUP w; wDOWN := wDOWN w; wLEFT := wLEFT w; wRIGHT := v; wNONE := wNONE w |}
  | NONE => {| wUP := wUP w; wDOWN := wDOWN w; wLEFT := wLEFT w; wRIGHT := wRIGHT w; wNONE := v |}
  end.

(** [Object.keys(this.patternWeights)] and [Object.values(...)]. *)
Definition keys : list Direction := [UP; DOWN; LEFT; RIGHT; NONE].
Definition values (w : Weights) : list num := map (getWeight w) keys.

Definition updatePatternWeights (s : t) : t :=
  (* Reset weights *)
  let reset := fold_left (fun w key => setWeight w key (Fin 0)) keys (patternWeights s) in
  (* Calculate frequency of each direction: this.patternWeights[direction]++ *)
  let counted :=
    fold_left (fun w dir => setWeight w dir (add (getWeight w dir) (Fin 1)))
      (playerPatterns s) reset in
  (* Normalize to percentages *)
  let total := Fin (inject_Z (Z.of_nat (length (playerPatterns s)))) in
  let normalized :=
    fold_left (fun w key => setWeight w key (div (getWeight w key) total)) keys counted in
  {| playerPatterns := playerPatterns s;
     patternWeights := normalized;
     learningLevel := learningLevel s |}.

Definition updateLearningLevel (s : t) : t :=
  let maxWeight := maxOf (values (patternWeights s)) in
  let consistency := sub maxWeight (Fin (1 # 4)) in
  if gtb consistency (Fin 0) then
    {| playerPatterns := playerPatterns s;
       patternWeights := patternWeights s;
       learningLevel :=
         min (add (learningLevel s) (mul consistency (Fin AI_CONFIG.LEARNING_RATE)))
             (Fin AI_CONFIG.MAX_LEARNING_LEVEL) |}
  else s.

Definition recordPlayerMovement (dir : Direction) (s : t) : t :=
  let pushed := playerPatterns s ++ [dir] in
  (* Keep only recent patterns *)
  let kept :=
    if gtb (Fin (inject_Z (Z.of_nat (length pushed)))) (Fin AI_CONFIG.PATTERN_THRESHOLD)
    then tail pushed (* shift() *)
    else pushed in
  updateLearningLevel
    (updatePatternWeights
       {| playerPatterns := kept;
          patternWeights := patternWeights s;
          learningLevel := learningLevel s |}).


Definition manhattanDistance (pos1 pos2 : Position) : Q :=
  (Qabs (posX pos1 - posX pos2) + Qabs (posY pos1 - posY pos2))%Q.

(** The body of [ghosts.forEach] in [calculateDangerLevel]; [totalDanger]
    is the accumulator. *)
Definition addDanger (pos : Position) (totalDanger : Q) (ghost : Ghost) : Q :=
  match state ghost with
  | FRIGHTENED | EATEN => totalDanger (* No danger from frightened/eaten ghosts *)
  | _ =>
      let distance := manhattanDistance pos (position ghost) in
      let maxDangerDistance := AI_CONFIG.DANGER_RADIUS in
      if Qle_bool distance maxDangerDistance
      then (totalDanger + (maxDangerDistance - distance) / maxDangerDistance)%Q
      else totalDanger
  end.

Definition calculateDangerLevel (pos : Position) (ghosts : list Ghost) : Q :=
  Math_min (fold_left (addDanger pos) ghosts 0%Q) 1.

(** The cell [{x, y}] of the two loop counters. *)
Definition cellPosition (x y : nat) : Position :=
  {| posX := inject_Z (Z.of_nat x); posY := inject_Z (Z.of_nat y) |}.

Definition generateDangerHeatmap (ghosts : list Ghost) (maze : Maze) : list (list Q) :=
  map (fun y =>
         map (fun x =>
                match cellAt maze (Z.of_nat x) (Z.of_nat y) with
                | Some WALL => (-1)%Q (* Mark walls *)
                | _ => calculateDangerLevel (cellPosition x y) ghosts
                end)
             (seq 0 (Z.to_nat (AStar.rowLength maze))))
      (seq 0 (length maze)).

Definition getPositionAhead (pos : Position) (dir : Direction) (distance : Q)
    : Position :=
  match dir with
  | UP => {| posX := posX pos; posY := (posY pos - distance)%Q |}
  | DOWN => {| posX := posX pos; posY := (posY pos + distance)%Q |}
  | LEFT => {| posX := (posX pos - distance)%Q; posY := posY pos |}
  | RIGHT => {| posX := (posX pos + distance)%Q; posY := posY pos |}
  | NONE => pos
  end.

Definition getGhostTarget (ghost : Ghost) (pacman : PacMan) (ghosts : list Ghost) : Position :=
  match id ghost with
  | BLINKY => pacPosition pacman
  | PINKY => getPositionAhead (pacPosition pacman) (pacDirection pacman) 4
  | INKY =>
      match List.find (fun g => bool_decide (id g = BLINKY)) ghosts with
      | Some blinky =>
          let ahead := getPositionAhead (pacPosition pacman) (pacDirection pacman) 2 in
          {| posX := (posX ahead + (posX ahead - posX (position blinky)))%Q;
             posY := (posY ahead + (posY ahead - posY (position blinky)))%Q |}
      | None => pacPosition pacman
      end
  | CLYDE =>
      let distance := manhattanDistance (position ghost) (pacPosition pacman) in
      if negb (Qle_bool distance 8) then pacPosition pacman else scatterTarget ghost
  end.

(** Whether the object that [getGhostTarget] returns is [pacman.position]
    itself: [return pacman.position] for Blinky, for Inky without a Blinky
    and for Clyde when far; for Pinky the [default] branch of
    [getPositionAhead], which returns its argument, when Pac-Man's
    direction is [NONE]. Every other branch builds a new object or returns
    the ghost's own [scatterTarget]. *)
Definition targetIsPacManPosition (ghost : Ghost) (pacman : PacMan) (ghosts : list Ghost)
    : bool :=
  match id ghost with
  | BLINKY => true
  | PINKY => bool_decide (pacDirection pacman = NONE)
  | INKY =>
      match List.find (fun g => bool_decide (id g = BLINKY)) ghosts with
      | Some blinky => false
      | None => true
      end
  | CLYDE =>
      let distance := manhattanDistance (position ghost) (pacPosition pacman) in
      negb (Qle_bool distance 8)
  end.

Section Adapt.

(** The blend of the base target with the intercept point, lines 260-277
    of the source: it takes a square root ([calculateInterceptPoint]),
    so it is left as a parameter; it runs only when the learning level
    is not below 20. *)
Variable blendWithIntercept : t -> Ghost -> PacMan -> Position -> Position.

Definition adaptGhostBehavior (s : t) (ghost : Ghost) (pacman : PacMan)
    (ghosts : list Ghost) : Position :=
  let baseTarget := getGhostTarget ghost pacman ghosts in
  if ltb (learningLevel s) (Fin 20) then baseTarget (* Not enough learning yet *)
  else blendWithIntercept s ghost pacman baseTarget.

End Adapt.

(** Whether the object that [adaptGhostBehavior] returns is
    [pacman.position] itself: below level 20 it returns [baseTarget] as it
    is, from there on a new object. *)
Definition adaptedIsPacManPosition (s : t) (ghost : Ghost) (pacman : PacMan)
    (ghosts : list Ghost) : bool :=
  ltb (learningLevel s) (Fin 20) && targetIsPacManPosition ghost pacman ghosts.

(** [Object.entries(weights).forEach] of [predictPlayerDirection]; the
    accumulator is [(maxWeight, predictedDirection)]. *)
Definition moreFrequent (w : Weights) (acc : num * Direction) (dir : Direction)
    : num * Direction :=
  if gtb (getWeight w dir) acc.1 then (getWeight w dir, dir) else acc.

Definition predictPlayerDirection (s : t) : Direction :=
  (fold_left (moreFrequent (patternWeights s)) keys (Fin 0, NONE)).2.

(** The callback of [ghosts.every] in [findSafeZones]. *)
Definition farEnough (pos : Position) (ghost : Ghost) : bool :=
  match state ghost with
  | FRIGHTENED | EATEN => true
  | _ => Qle_bool AI_CONFIG.SAFE_DISTANCE (manhattanDistance pos (position ghost))
  end.

Definition findSafeZones (pacmanPosition : Position) (ghosts : list Ghost) (maze : Maze)
    : list Position :=
  flat_map
    (fun y =>
       flat_map
         (fun x =>
            match cellAt maze (Z.of_nat x) (Z.of_nat y) with
            | Some WALL => []
            | _ =>
                let pos := cellPosition x y in
                let isSafe := forallb (farEnough pos) ghosts in
                if isSafe && Qle_bool (manhattanDistance pos pacmanPosition) 8
                then [pos]
                else []
            end)
         (seq 0 (Z.to_nat (AStar.rowLength maze))))
    (seq 0 (length maze)).

(** [path.slice(from, to)] for [0 <= from <= to]. *)
Definition slice {A} (from to : nat) (path : list A) : list A :=
  take (to - from) (drop from path).

(** [predictPathToTarget]; of the ghost only its position is read, here a
    grid position as the pathfinder takes it. *)
Definition predictPathToTarget (fuel : nat) (ghostPosition target : AStar.GridPos)
    (maze : Maze) : option (list AStar.GridPos) :=
  match AStar.findPathAStar fuel ghostPosition target maze with
  | Some path => Some (slice 1 (Z.to_nat (GAME_CONFIG.AI_PREDICTION_STEPS + 1)) path)
  | None => None
  end.

(** [getPossibleDirections] of the AI engine. *)
Definition getPossibleDirections (pos : AStar.GridPos) (maze : Maze) : list Direction :=
  (if AStar.isValidPosition (AStar.getNextPosition pos UP) maze then [UP] else [])
  ++ (if AStar.isValidPosition (AStar.getNextPosition pos DOWN) maze then [DOWN] else [])
  ++ (if AStar.isValidPosition (AStar.getNextPosition pos LEFT) maze then [LEFT] else [])
  ++ (if AStar.isValidPosition (AStar.getNextPosition pos RIGHT) maze then [RIGHT] else []).

(** One iteration of the loop of [predictRandomMovement]; [rnd i] is the
    value of [Math.random()] in iteration [i]. With no possible direction
    the index reads [undefined], for which [getNextPosition] takes its
    [default] branch as it does for [NONE]. *)
Definition randomStep (rnd : nat -> Q) (maze : Maze)
    (acc : AStar.GridPos * list AStar.GridPos) (i : nat)
    : AStar.GridPos * list AStar.GridPos :=
  let possibleDirections := getPossibleDirections acc.1 maze in
  let randomDirection :=
    nth (Z.to_nat (Qfloor (rnd i * inject_Z (Z.of_nat (length possibleDirections)))))
        possibleDirections NONE in
  let currentPos := AStar.getNextPosition acc.1 randomDirection in
  (currentPos, acc.2 ++ [currentPos]).

Definition predictRandomMovement (rnd : nat -> Q) (ghostPosition : AStar.GridPos)
    (maze : Maze) : list AStar.GridPos :=
  (fold_left (randomStep rnd maze) (seq 0 (Z.to_nat GAME_CONFIG.AI_PREDICTION_STEPS))
     (ghostPosition, [])).2.

(** An entry [{ position, path }] of the queue of [findEscapeRoutes]. *)
Record Route := {
  routePosition : AStar.GridPos;
  routePath : list AStar.GridPos
}.

(** The grid position as the [Position] that [calculateDangerLevel] takes. *)
Definition positionOf (p : AStar.GridPos) : Position :=
  {| posX := inject_Z p.1; posY := inject_Z p.2 |}.

(** The body of the [directions.forEach] of [findEscapeRoutes]. *)
Definition explore (maze : Maze) (pos : AStar.GridPos) (path : list AStar.GridPos)
    (queue : list Route) (dir : Direction) : list Route :=
  let nextPos := AStar.getNextPosition pos dir in
  if AStar.isValidPosition nextPos maze
  then queue ++ [{| routePosition := nextPos; routePath := path ++ [nextPos] |}]
  else queue.

(** The [while (queue.length > 0)] loop of [findEscapeRoutes]; the set
    [visited] holds positions, its string keys being the positions
    themselves. *)
Fixpoint escapeLoop (fuel : nat) (ghosts : list Ghost) (maze : Maze) (queue : list Route)
    (visited : gset AStar.GridPos) (escapeRoutes : list AStar.GridPos)
    : option (list AStar.GridPos) :=
  match fuel with
  | O => None
  | S fuel' =>
      match queue with
      | [] => Some escapeRoutes
      | entry :: queue' =>
          let pos := routePosition entry in
          let path := routePath entry in
          if bool_decide (pos ∈ visited) || (6 <? length path)%nat then
            escapeLoop fuel' ghosts maze queue' visited escapeRoutes
          else
            let visited' := {[pos]} ∪ visited in
            (* Check if this position is safe *)
            let danger := calculateDangerLevel (positionOf pos) ghosts in
            if negb (Qle_bool (3 # 10) danger) && (2 <? length path)%nat then
              escapeLoop fuel' ghosts maze queue' visited' (escapeRoutes ++ path)
            else
              (* Explore adjacent positions *)
              escapeLoop fuel' ghosts maze
                (fold_left (explore maze pos path) AStar.directions queue')
                visited' escapeRoutes
      end
  end.

Definition findEscapeRoutes (fuel : nat) (pacmanPosition : AStar.GridPos)
    (ghosts : list Ghost) (maze : Maze) : option (list AStar.GridPos) :=
  escapeLoop fuel ghosts maze [{| routePosition := pacmanPosition; routePath := [] |}] ∅ [].

End AIEngine.

(** Field updates ([ghost.state = ...], [pacman.direction = ...]). *)
Definition set_position (v : Position) (r : Ghost) : Ghost :=
  {| id := id r; position := v; velocity := velocity r; direction := direction r; state :=
     state r; targetPosition := targetPosition r; scatterTarget := scatterTarget r; houseTimer :=
     houseTimer r; frightenedTimer := frightenedTimer r; isFlashing := isFlashing r;
     lastDirection := lastDirection r; targetShared := targetShared r |}.
Definition set_velocity (v : Velocity) (r : Ghost) : Ghost :=
  {| id := id r; position := position r; velocity := v; direction := direction r; state :=
     state r; targetPosition := targetPosition r; scatterTarget := scatterTarget r; houseTimer :=
     houseTimer r; frightenedTimer := frightenedTimer r; isFlashing := isFlashing r;
     lastDirection := lastDirection r; targetShared := targetShared r |}.
Definition set_direction (v : Direction) (r : Ghost) : Ghost :=
  {| id := id r; position := position r; velocity := velocity r; direction := v; state :=
     state r; targetPosition := targetPosition r; scatterTarget := scatterTarget r; houseTimer :=
     houseTimer r; frightenedTimer := frightenedTimer r; isFlashing := isFlashing r;
     lastDirection := lastDirection r; targetShared := targetShared r |}.
Definition set_state (v : GhostState) (r : Ghost) : Ghost :=
  {| id := id r; position := position r; velocity := velocity r; direction := direction r;
     state := v; targetPosition := targetPosition r; scatterTarget := scatterTarget r; houseTimer
     := houseTimer r; frightenedTimer := frightenedTimer r; isFlashing := isFlashing r;
     lastDirection := lastDirection r; targetShared := targetShared r |}.
Definition set_targetPosition (v : Position) (r : Ghost) : Ghost :=
  {| id := id r; position := position r; velocity := velocity r; direction := direction r;
     state := state r; targetPosition := v; scatterTarget := scatterTarget r; houseTimer :=
     houseTimer r; frightenedTimer := frightenedTimer r; isFlashing := isFlashing r;
     lastDirection := lastDirection r; targetShared := targetShared r |}.
Definition set_houseTimer (v : Z) (r : Ghost) : Ghost :=
  {| id := id r; position := position r; velocity := velocity r; direction := direction r;
     state := state r; targetPosition := targetPosition r; scatterTarget := scatterTarget r;
     houseTimer := v; frightenedTimer := frightenedTimer r; isFlashing := isFlashing r;
     lastDirection := lastDirection r; targetShared := targetShared r |}.
Definition set_frightenedTimer (v : Z) (r : Ghost) : Ghost :=
  {| id := id r; position := position r; velocity := velocity r; direction := direction r;
     state := state r; targetPosition := targetPosition r; scatterTarget := scatterTarget r;
     houseTimer := houseTimer r; frightenedTimer := v; isFlashing := isFlashing r; lastDirection
     := lastDirection r; targetShared := targetShared r |}.
Definition set_isFlashing (v : bool) (r : Ghost) : Ghost :=
  {| id := id r; position := position r; velocity := velocity r; direction := direction r;
     state := state r; targetPosition := targetPosition r; scatterTarget := scatterTarget r;
     houseTimer := houseTimer r; frightenedTimer := frightenedTimer r; isFlashing := v;
     lastDirection := lastDirection r; targetShared := targetShared r |}.
Definition set_lastDirection (v : Direction) (r : Ghost) : Ghost :=
  {| id := id r; position := position r; velocity := velocity r; direction := direction r;
     state := state r; targetPosition := targetPosition r; scatterTarget := scatterTarget r;
     houseTimer := houseTimer r; frightenedTimer := frightenedTimer r; isFlashing := isFlashing
     r; lastDirection := v; targetShared := targetShared r |}.
Definition set_targetShared (v : bool) (r : Ghost) : Ghost :=
  {| id := id r; position := position r; velocity := velocity r; direction := direction r;
     state := state r; targetPosition := targetPosition r; scatterTarget := scatterTarget r;
     houseTimer := houseTimer r; frightenedTimer := frightenedTimer r; isFlashing := isFlashing
     r; lastDirection := lastDirection r; targetShared := v |}.
Definition set_pacPosition (v : Position) (r : PacMan) : PacMan :=
  {| pacPosition := v; pacVelocity := pacVelocity r; pacDirection := pacDirection r;
     nextDirection := nextDirection r; animationFrame := animationFrame r; isDead := isDead
     r; mouthOpen := mouthOpen r |}.
Definition set_pacVelocity (v : Velocity) (r : PacMan) : PacMan :=
  {| pacPosition := pacPosition r; pacVelocity := v; pacDirection := pacDirection r;
     nextDirection := nextDirection r; animationFrame := animationFrame r; isDead := isDead
     r; mouthOpen := mouthOpen r |}.
Definition set_pacDirection (v : Direction) (r : PacMan) : PacMan :=
  {| pacPosition := pacPosition r; pacVelocity := pacVelocity r; pacDirection := v;
     nextDirection := nextDirection r; animationFrame := animationFrame r; isDead := isDead
     r; mouthOpen := mouthOpen r |}.
Definition set_nextDirection (v : Direction) (r : PacMan) : PacMan :=
  {| pacPosition := pacPosition r; pacVelocity := pacVelocity r; pacDirection :=
     pacDirection r; nextDirection := v; animationFrame := animationFrame r; isDead :=
     isDead r; mouthOpen := mouthOpen r |}.
Definition set_animationFrame (v : Z) (r : PacMan) : PacMan :=
  {| pacPosition := pacPosition r; pacVelocity := pacVelocity r; pacDirection :=
     pacDirection r; nextDirection := nextDirection r; animationFrame := v; isDead := isDead
     r; mouthOpen := mouthOpen r |}.
Definition set_isDead (v : bool) (r : PacMan) : PacMan :=
  {| pacPosition := pacPosition r; pacVelocity := pacVelocity r; pacDirection :=
     pacDirection r; nextDirection := nextDirection r; animationFrame := animationFrame r;
     isDead := v; mouthOpen := mouthOpen r |}.
Definition set_mouthOpen (v : bool) (r : PacMan) : PacMan :=
  {| pacPosition := pacPosition r; pacVelocity := pacVelocity r; pacDirection :=
     pacDirection r; nextDirection := nextDirection r; animationFrame := animationFrame r;
     isDead := isDead r; mouthOpen := v |}.

(** ** engine/GameEngine.ts *)

Module GameEngine.

Definition GridPos := (Z * Z)%type.

Inductive GameStatus := READY | PLAYING | PAUSED | GAME_OVER | LEVEL_COMPLETE.

(** A callback handed to [setTimeout] by the functions below. *)
Inductive Deferred := ResetPositions.

Record GameState := {
  pacman : PacMan;
  ghosts : list Ghost;
  maze : Maze;
  score : Z;
  highScore : Z;
  lives : Z;
  level : Z;
  pelletsRemaining : Z;
  powerPelletActive : bool;
  powerPelletTimer : Z;
  gameStatus : GameStatus;
  ghostEatenCount : Z;
  fruitSpawned : bool;
  fruitPosition : option GridPos;
  fruitScore : Z;
  aiLearningLevel : JSNum.num;
  showAIFeatures : bool;
  dangerMap : list (list Q);
  playerPatterns : list Direction;
  screenShake : bool;
  vhsGlitch : bool
}.

(** The fields of the class; [timeouts] are the pending [setTimeout]
    calls, with their delay in milliseconds. [lastUpdateTime] is only
    written and is left out. *)
Record t := {
  aiEngine : AIEngine.t;
  gameState : GameState;
  frameCount : Z;
  difficultyMultiplier : Q;
  timeouts : list (Z * Deferred)
}.

Definition set_pacman (v : PacMan) (r : GameState) : GameState :=
  {| pacman := v; ghosts := ghosts r; maze := maze r; score := score r; highScore :=
     highScore r; lives := lives r; level := level r; pelletsRemaining := pelletsRemaining
     r; powerPelletActive := powerPelletActive r; powerPelletTimer := powerPelletTimer r;
     gameStatus := gameStatus r; ghostEatenCount := ghostEatenCount r; fruitSpawned :=
     fruitSpawned r; fruitPosition := fruitPosition r; fruitScore := fruitScore r;
     aiLearningLevel := aiLearningLevel r; showAIFeatures := showAIFeatures r; dangerMap
     := dangerMap r; playerPatterns := playerPatterns r; screenShake := screenShake r;
     vhsGlitch := vhsGlitch r |}.
Definition set_ghosts (v : list Ghost) (r : GameState) : GameState :=
  {| pacman := pacman r; ghosts := v; maze := maze r; score := score r; highScore :=
     highScore r; lives := lives r; level := level r; pelletsRemaining := pelletsRemaining
     r; powerPelletActive := powerPelletActive r; powerPelletTimer := powerPelletTimer r;
     gameStatus := gameStatus r; ghostEatenCount := ghostEatenCount r; fruitSpawned :=
     fruitSpawned r; fruitPosition := fruitPosition r; fruitScore := fruitScore r;
     aiLearningLevel := aiLearningLevel r; showAIFeatures := showAIFeatures r; dangerMap
     := dangerMap r; playerPatterns := playerPatterns r; screenShake := screenShake r;
     vhsGlitch := vhsGlitch r |}.
Definition set_maze (v : Maze) (r : GameState) : GameState :=
  {| pacman := pacman r; ghosts := ghosts r; maze := v; score := score r; highScore :=
     highScore r; lives := lives r; level := level r; pelletsRemaining := pelletsRemaining
     r; powerPelletActive := powerPelletActive r; powerPelletTimer := powerPelletTimer r;
     gameStatus := gameStatus r; ghostEatenCount := ghostEatenCount r; fruitSpawned :=
     fruitSpawned r; fruitPosition := fruitPosition r; fruitScore := fruitScore r;
     aiLearningLevel := aiLearningLevel r; showAIFeatures := showAIFeatures r; dangerMap
     := dangerMap r; playerPatterns := playerPatterns r; screenShake := screenShake r;
     vhsGlitch := vhsGlitch r |}.
Definition set_score (v : Z) (r : GameState) : GameState :=
  {| pacman := pacman r; ghosts := ghosts r; maze := maze r; score := v; highScore :=
     highScore r; lives := lives r; level := level r; pelletsRemaining := pelletsRemaining
     r; powerPelletActive := powerPelletActive r; powerPelletTimer := powerPelletTimer r;
     gameStatus := gameStatus r; ghostEatenCount := ghostEatenCount r; fruitSpawned :=
     fruitSpawned r; fruitPosition := fruitPosition r; fruitScore := fruitScore r;
     aiLearningLevel := aiLearningLevel r; showAIFeatures := showAIFeatures r; dangerMap
     := dangerMap r; playerPatterns := playerPatterns r; screenShake := screenShake r;
     vhsGlitch := vhsGlitch r |}.
Definition set_lives (v : Z) (r : GameState) : GameState :=
  {| pacman := pacman r; ghosts := ghosts r; maze := maze r; score := score r; highScore
     := highScore r; lives := v; level := level r; pelletsRemaining := pelletsRemaining r;
     powerPelletActive := powerPelletActive r; powerPelletTimer := powerPelletTimer r;
     gameStatus := gameStatus r; ghostEatenCount := ghostEatenCount r; fruitSpawned :=
     fruitSpawned r; fruitPosition := fruitPosition r; fruitScore := fruitScore r;
     aiLearningLevel := aiLearningLevel r; showAIFeatures := showAIFeatures r; dangerMap
     := dangerMap r; playerPatterns := playerPatterns r; screenShake := screenShake r;
     vhsGlitch := vhsGlitch r |}.
Definition set_pelletsRemaining (v : Z) (r : GameState) : GameState :=
  {| pacman := pacman r; ghosts := ghosts r; maze := maze r; score := score r; highScore
     := highScore r; lives := lives r; level := level r; pelletsRemaining := v;
     powerPelletActive := powerPelletActive r; powerPelletTimer := powerPelletTimer r;
     gameStatus := gameStatus r; ghostEatenCount := ghostEatenCount r; fruitSpawned :=
     fruitSpawned r; fruitPosition := fruitPosition r; fruitScore := fruitScore r;
     aiLearningLevel := aiLearningLevel r; showAIFeatures := showAIFeatures r; dangerMap
     := dangerMap r; playerPatterns := playerPatterns r; screenShake := screenShake r;
     vhsGlitch := vhsGlitch r |}.
Definition set_powerPelletActive (v : bool) (r : GameState) : GameState :=
  {| pacman := pacman r; ghosts := ghosts r; maze := maze r; score := score r; highScore
     := highScore r; lives := lives r; level := level r; pelletsRemaining :=
     pelletsRemaining r; powerPelletActive := v; powerPelletTimer := powerPelletTimer r;
     gameStatus := gameStatus r; ghostEatenCount := ghostEatenCount r; fruitSpawned :=
     fruitSpawned r; fruitPosition := fruitPosition r; fruitScore := fruitScore r;
     aiLearningLevel := aiLearningLevel r; showAIFeatures := showAIFeatures r; dangerMap
     := dangerMap r; playerPatterns := playerPatterns r; screenShake := screenShake r;
     vhsGlitch := vhsGlitch r |}.
Definition set_powerPelletTimer (v : Z) (r : GameState) : GameState :=
  {| pacman := pacman r; ghosts := ghosts r; maze := maze r; score := score r; highScore
     := highScore r; lives := lives r; level := level r; pelletsRemaining :=
     pelletsRemaining r; powerPelletActive := powerPelletActive r; powerPelletTimer := v;
     gameStatus := gameStatus r; ghostEatenCount := ghostEatenCount r; fruitSpawned :=
     fruitSpawned r; fruitPosition := fruitPosition r; fruitScore := fruitScore r;
     aiLearningLevel := aiLearningLevel r; showAIFeatures := showAIFeatures r; dangerMap
     := dangerMap r; playerPatterns := playerPatterns r; screenShake := screenShake r;
     vhsGlitch := vhsGlitch r |}.
Definition set_gameStatus (v : GameStatus) (r : GameState) : GameState :=
  {| pacman := pacman r; ghosts := ghosts r; maze := maze r; score := score r; highScore
     := highScore r; lives := lives r; level := level r; pelletsRemaining :=
     pelletsRemaining r; powerPelletActive := powerPelletActive r; powerPelletTimer :=
     powerPelletTimer r; gameStatus := v; ghostEatenCount := ghostEatenCount r;
     fruitSpawned := fruitSpawned r; fruitPosition := fruitPosition r; fruitScore :=
     fruitScore r; aiLearningLevel := aiLearningLevel r; showAIFeatures := showAIFeatures
     r; dangerMap := dangerMap r; playerPatterns := playerPatterns r; screenShake :=
     screenShake r; vhsGlitch := vhsGlitch r |}.
Definition set_ghostEatenCount (v : Z) (r : GameState) : GameState :=
  {| pacman := pacman r; ghosts := ghosts r; maze := maze r; score := score r; highScore
     := highScore r; lives := lives r; level := level r; pelletsRemaining :=
     pelletsRemaining r; powerPelletActive := powerPelletActive r; powerPelletTimer :=
     powerPelletTimer r; gameStatus := gameStatus r; ghostEatenCount := v; fruitSpawned :=
     fruitSpawned r; fruitPosition := fruitPosition r; fruitScore := fruitScore r;
     aiLearningLevel := aiLearningLevel r; showAIFeatures := showAIFeatures r; dangerMap
     := dangerMap r; playerPatterns := playerPatterns r; screenShake := screenShake r;
     vhsGlitch := vhsGlitch r |}.
Definition set_fruitSpawned (v : bool) (r : GameState) : GameState :=
  {| pacman := pacman r; ghosts := ghosts r; maze := maze r; score := score r; highScore
     := highScore r; lives := lives r; level := level r; pelletsRemaining :=
     pelletsRemaining r; powerPelletActive := powerPelletActive r; powerPelletTimer :=
     powerPelletTimer r; gameStatus := gameStatus r; ghostEatenCount := ghostEatenCount r;
     fruitSpawned := v; fruitPosition := fruitPosition r; fruitScore := fruitScore r;
     aiLearningLevel := aiLearningLevel r; showAIFeatures := showAIFeatures r; dangerMap
     := dangerMap r; playerPatterns := playerPatterns r; screenShake := screenShake r;
     vhsGlitch := vhsGlitch r |}.
Definition set_fruitPosition (v : option GridPos) (r : GameState) : GameState :=
  {| pacman := pacman r; ghosts := ghosts r; maze := maze r; score := score r; highScore
     := highScore r; lives := lives r; level := level r; pelletsRemaining :=
     pelletsRemaining r; powerPelletActive := powerPelletActive r; powerPelletTimer :=
     powerPelletTimer r; gameStatus := gameStatus r; ghostEatenCount := ghostEatenCount r;
     fruitSpawned := fruitSpawned r; fruitPosition := v; fruitScore := fruitScore r;
     aiLearningLevel := aiLearningLevel r; showAIFeatures := showAIFeatures r; dangerMap
     := dangerMap r; playerPatterns := playerPatterns r; screenShake := screenShake r;
     vhsGlitch := vhsGlitch r |}.
Definition set_fruitScore (v : Z) (r : GameState) : GameState :=
  {| pacman := pacman r; ghosts := ghosts r; maze := maze r; score := score r; highScore
     := highScore r; lives := lives r; level := level r; pelletsRemaining :=
     pelletsRemaining r; powerPelletActive := powerPelletActive r; powerPelletTimer :=
     powerPelletTimer r; gameStatus := gameStatus r; ghostEatenCount := ghostEatenCount r;
     fruitSpawned := fruitSpawned r; fruitPosition := fruitPosition r; fruitScore := v;
     aiLearningLevel := aiLearningLevel r; showAIFeatures := showAIFeatures r; dangerMap
     := dangerMap r; playerPatterns := playerPatterns r; screenShake := screenShake r;
     vhsGlitch := vhsGlitch r |}.
Definition set_screenShake (v : bool) (r : GameState) : GameState :=
  {| pacman := pacman r; ghosts := ghosts r; maze := maze r; score := score r; highScore
     := highScore r; lives := lives r; level := level r; pelletsRemaining :=
     pelletsRemaining r; powerPelletActive := powerPelletActive r; powerPelletTimer :=
     powerPelletTimer r; gameStatus := gameStatus r; ghostEatenCount := ghostEatenCount r;
     fruitSpawned := fruitSpawned r; fruitPosition := fruitPosition r; fruitScore :=
     fruitScore r; aiLearningLevel := aiLearningLevel r; showAIFeatures := showAIFeatures
     r; dangerMap := dangerMap r; playerPatterns := playerPatterns r; screenShake := v;
     vhsGlitch := vhsGlitch r |}.
Definition set_aiEngine (v : AIEngine.t) (r : t) : t :=
  {| aiEngine := v; gameState := gameState r; frameCount := frameCount r;
     difficultyMultiplier := difficultyMultiplier r; timeouts := timeouts r |}.
Definition set_gameState (v : GameState) (r : t) : t :=
  {| aiEngine := aiEngine r; gameState := v; frameCount := frameCount r;
     difficultyMultiplier := difficultyMultiplier r; timeouts := timeouts r |}.
Definition set_timeouts (v : list (Z * Deferred)) (r : t) : t :=
  {| aiEngine := aiEngine r; gameState := gameState r; frameCount := frameCount r;
     difficultyMultiplier := difficultyMultiplier r; timeouts := v |}.

(** [GHOST_CONFIG] of gameConfig.ts, in grid coordinates. *)
Definition gridPosition (gx gy : Z) : Position :=
  {| posX := inject_Z gx; posY := inject_Z gy |}.

Definition startPosition (g : GhostType) : Position :=
  match g with
  | BLINKY => gridPosition 9 9
  | PINKY => gridPosition 9 10
  | INKY => gridPosition 8 10
  | CLYDE => gridPosition 10 10
  end.

Definition configScatterTarget (g : GhostType) : Position :=
  match g with
  | BLINKY => gridPosition 17 0
  | PINKY => gridPosition 2 0
  | INKY => gridPosition 17 20
  | CLYDE => gridPosition 0 20
  end.

Definition PACMAN_START_POSITION : Position := gridPosition 9 15.

Definition cellSize : Q := inject_Z GAME_CONFIG.CELL_SIZE.

(** [Math.round(v / GAME_CONFIG.CELL_SIZE)]. *)
Definition toGrid (v : Q) : Z := Math_round (v / cellSize).

(** [{ x: p.x * CELL_SIZE, y: p.y * CELL_SIZE }]. *)
Definition toPixels (p : Position) : Position :=
  {| posX := (posX p * cellSize)%Q; posY := (posY p * cellSize)%Q |}.

Definition getNextPosition (pos : GridPos) (dir : Direction) : GridPos :=
  match dir with
  | UP => (pos.1, pos.2 - 1)
  | DOWN => (pos.1, pos.2 + 1)
  | LEFT => (pos.1 - 1, pos.2)
  | RIGHT => (pos.1 + 1, pos.2)
  | NONE => pos
  end.

Definition getOppositeDirection (dir : Direction) : Direction :=
  match dir with
  | UP => DOWN
  | DOWN => UP
  | LEFT => RIGHT
  | RIGHT => LEFT
  | NONE => NONE
  end.

(** [isValidMove] reads [this.gameState.maze], which always has the
    layout's [MAZE_HEIGHT] rows of [MAZE_WIDTH] cells. *)
Definition isValidMove (mz : Maze) (pos : GridPos) : bool :=
  if (pos.2 <? 0) || (pos.2 >=? GAME_CONFIG.MAZE_HEIGHT) then false
  else if (pos.1 <? 0) || (pos.1 >=? GAME_CONFIG.MAZE_WIDTH) then false
  else notWall (cellAt mz pos.1 pos.2).

Definition getPossibleDirections (mz : Maze) (pos : GridPos) : list Direction :=
  (if isValidMove mz (getNextPosition pos UP) then [UP] else [])
  ++ (if isValidMove mz (getNextPosition pos DOWN) then [DOWN] else [])
  ++ (if isValidMove mz (getNextPosition pos LEFT) then [LEFT] else [])
  ++ (if isValidMove mz (getNextPosition pos RIGHT) then [RIGHT] else []).

Definition manhattanDistance (pos1 pos2 : GridPos) : Z :=
  Z.abs (pos1.1 - pos2.1) + Z.abs (pos1.2 - pos2.2).

Definition directionVelocity (dir : Direction) (speed : Q) : Velocity :=
  match dir with
  | UP => {| dx := 0; dy := - speed |}
  | DOWN => {| dx := 0; dy := speed |}
  | LEFT => {| dx := - speed; dy := 0 |}
  | RIGHT => {| dx := speed; dy := 0 |}
  | NONE => {| dx := 0; dy := 0 |}
  end.

Definition setVelocity (entity : PacMan) (dir : Direction) : PacMan :=
  set_pacVelocity (directionVelocity dir GAME_CONFIG.PACMAN_SPEED) entity.

Definition setGhostVelocity (multiplier : Q) (ghost : Ghost) : Ghost :=
  let speed :=
    match state ghost with
    | FRIGHTENED => (GAME_CONFIG.FRIGHTENED_SPEED * multiplier)%Q
    | EATEN => (GAME_CONFIG.GHOST_SPEED * (15 # 10) * multiplier)%Q
    | _ => (GAME_CONFIG.GHOST_SPEED * multiplier)%Q
    end in
  set_velocity (directionVelocity (direction ghost) speed) ghost.

(** "Handle tunnel wraparound", the same four lines in [updatePacMan] and
    in [updateGhostMovement]. *)
Definition wrapTunnel (nextX : Q) : Q :=
  if negb (Qle_bool 0 nextX) then
    inject_Z ((GAME_CONFIG.MAZE_WIDTH - 1) * GAME_CONFIG.CELL_SIZE)
  else if Qle_bool (inject_Z (GAME_CONFIG.MAZE_WIDTH * GAME_CONFIG.CELL_SIZE)) nextX then 0%Q
  else nextX.

Definition positionEqb (p q : Position) : bool :=
  Qeq_bool (posX p) (posX q) && Qeq_bool (posY p) (posY q).

Section Ghosts.

Variable blendWithIntercept : AIEngine.t -> Ghost -> PacMan -> Position -> Position.

Definition updateGhostState (e : t) (ghost : Ghost) : Ghost :=
  if bool_decide (state ghost = IN_HOUSE) && (0 <? houseTimer ghost) then
    (* Handle house timer *)
    let ghost := set_houseTimer (houseTimer ghost - 1) ghost in
    if houseTimer ghost <=? 0 then set_state CHASE ghost else ghost
  else if bool_decide (state ghost = FRIGHTENED) then
    (* Handle frightened state *)
    let ghost := set_frightenedTimer (frightenedTimer ghost - 1) ghost in
    let ghost :=
      if frightenedTimer ghost <=? GAME_CONFIG.GHOST_FLASH_DURATION
      then set_isFlashing (Z.rem (frightenedTimer ghost / 10) 2 =? 0) ghost
      else ghost in
    if frightenedTimer ghost <=? 0
    then set_isFlashing false (set_state CHASE ghost)
    else ghost
  else if bool_decide (state ghost = EATEN) then
    (* Return to house *)
    let housePos := startPosition (id ghost) in
    let ghost :=
      if positionEqb (position ghost) housePos then set_state CHASE ghost else ghost in
    set_targetShared false (set_targetPosition housePos ghost)
  else
    (* Normal chase/scatter behavior with AI adaptation *)
    let ghost :=
      set_targetShared
        (AIEngine.adaptedIsPacManPosition (aiEngine e) ghost
           (pacman (gameState e)) (ghosts (gameState e)))
        (set_targetPosition
           (AIEngine.adaptGhostBehavior blendWithIntercept (aiEngine e) ghost
              (pacman (gameState e)) (ghosts (gameState e)))
           ghost) in
    (* Alternate between chase and scatter modes *)
    let modeTime := frameCount e / 600 in
    set_state (if Z.rem modeTime 2 =? 0 then CHASE else SCATTER) ghost.

End Ghosts.

(** [distance < shortestDistance], where [None] is [Infinity]. *)
Definition closer (distance : Z) (shortestDistance : option Z) : bool :=
  match shortestDistance with
  | None => true
  | Some s => distance <? s
  end.

(** The [possibleDirections.forEach] that moves towards the target; the
    accumulator is [(bestDirection, shortestDistance)]. *)
Definition towardTarget (gridPos target : GridPos) (acc : Direction * option Z)
    (dir : Direction) : Direction * option Z :=
  let nextPos := getNextPosition gridPos dir in
  let distance := manhattanDistance nextPos target in
  if closer distance acc.2 then (dir, Some distance) else acc.

(** [possibleDirections[Math.floor(Math.random() * possibleDirections.length)]];
    [rnd] is the value of [Math.random()], in [0, 1). *)
Definition randomChoice (rnd : Q) (possibleDirections : list Direction) : Direction :=
  nth (Z.to_nat (Qfloor (rnd * inject_Z (Z.of_nat (length possibleDirections)))))
      possibleDirections NONE.

(** The ghost's position in grid coordinates, for pathfinding. *)
Definition ghostGridPos (ghost : Ghost) : GridPos :=
  (toGrid (posX (position ghost)), toGrid (posY (position ghost))).

(** "Get possible directions (can't reverse unless frightened)": the
    filtered [possibleDirections] of [updateGhostMovement]. *)
Definition allowedDirections (mz : Maze) (ghost : Ghost) : list Direction :=
  List.filter
    (fun dir =>
       if bool_decide (state ghost = FRIGHTENED) then true
       else negb (bool_decide (getOppositeDirection dir = lastDirection ghost)))
    (getPossibleDirections mz (ghostGridPos ghost)).

Definition updateGhostMovement (e : t) (rnd : Q) (ghost : Ghost) : Ghost :=
  if bool_decide (state ghost = IN_HOUSE) then
    (* Simple up-down movement in house *)
    let ghost :=
      set_direction (if Z.rem (frameCount e) 60 <? 30 then UP else DOWN) ghost in
    let ghost := setGhostVelocity (difficultyMultiplier e) ghost in
    set_position {| posX := posX (position ghost);
                    posY := (posY (position ghost) + dy (velocity ghost))%Q |} ghost
  else
    let gridPos := ghostGridPos ghost in
    let possibleDirections := allowedDirections (maze (gameState e)) ghost in
    match possibleDirections with
    | [] => ghost
    | first :: _ =>
        let bestDirection :=
          if bool_decide (state ghost = FRIGHTENED) then
            randomChoice rnd possibleDirections
          else
            let target := (toGrid (posX (targetPosition ghost)),
                           toGrid (posY (targetPosition ghost))) in
            (fold_left (towardTarget gridPos target) possibleDirections (first, None)).1 in
        let ghost := set_lastDirection (direction ghost) ghost in
        let ghost := set_direction bestDirection ghost in
        let ghost := setGhostVelocity (difficultyMultiplier e) ghost in
        (* Move ghost *)
        let nextX := wrapTunnel (posX (position ghost) + dx (velocity ghost))%Q in
        let nextY := (posY (position ghost) + dy (velocity ghost))%Q in
        if isValidMove (maze (gameState e)) (toGrid nextX, toGrid nextY)
        then set_position {| posX := nextX; posY := nextY |} ghost
        else ghost
    end.

(** The body of the [ghosts.forEach] of [updateGhosts] for one ghost; its
    third call, [updateGhostAnimation], writes [pathPrediction] only. *)
Definition updateGhost (blendWithIntercept : AIEngine.t -> Ghost -> PacMan -> Position -> Position)
    (e : t) (rnd : Q) (ghost : Ghost) : Ghost :=
  updateGhostMovement e rnd (updateGhostState blendWithIntercept e ghost).

(** What a write to the coordinates of the object [pacman.position] is to
    a ghost: the ghost whose [targetPosition] is that object has the new
    coordinates as its target. *)
Definition sharePosition (pos : Position) (ghost : Ghost) : Ghost :=
  if targetShared ghost then set_targetPosition pos ghost else ghost.

Definition updatePacMan (e : t) (inputDirection : Direction) : t :=
  let pac := pacman (gameState e) in
  (* Handle direction changes *)
  let '(pac, ai) :=
    if negb (bool_decide (inputDirection = NONE)) then
      (set_nextDirection inputDirection pac,
       (* Record movement for AI learning *)
       AIEngine.recordPlayerMovement inputDirection (aiEngine e))
    else (pac, aiEngine e) in
  (* Try to change direction if possible *)
  let pac :=
    if negb (bool_decide (nextDirection pac = pacDirection pac))
       && negb (bool_decide (nextDirection pac = NONE)) then
      let gridX := toGrid (posX (pacPosition pac)) in
      let gridY := toGrid (posY (pacPosition pac)) in
      let nextGridPos := getNextPosition (gridX, gridY) (nextDirection pac) in
      if isValidMove (maze (gameState e)) nextGridPos then
        let pac := set_pacDirection (nextDirection pac) pac in
        setVelocity pac (pacDirection pac)
      else pac
    else pac in
  (* Move Pac-Man *)
  let '(pac, ghosts') :=
    if negb (bool_decide (pacDirection pac = NONE)) then
      let nextX := wrapTunnel (posX (pacPosition pac) + dx (pacVelocity pac))%Q in
      let nextY := (posY (pacPosition pac) + dy (pacVelocity pac))%Q in
      if isValidMove (maze (gameState e)) (toGrid nextX, toGrid nextY) then
        (* pacman.position.x = nextX; pacman.position.y = nextY: written in
           place, so every ghost whose target is that object reads them *)
        (set_pacPosition {| posX := nextX; posY := nextY |} pac,
         map (sharePosition {| posX := nextX; posY := nextY |}) (ghosts (gameState e)))
      else
        (* Stop if hitting wall *)
        (set_pacVelocity {| dx := 0; dy := 0 |} (set_pacDirection NONE pac),
         ghosts (gameState e))
    else (pac, ghosts (gameState e)) in
  (* Update animation *)
  let pac :=
    if Z.rem (frameCount e) 8 =? 0 then
      set_animationFrame (Z.rem (animationFrame pac + 1) 4)
        (set_mouthOpen (negb (mouthOpen pac)) pac)
    else pac in
  set_aiEngine ai (set_gameState (set_ghosts ghosts' (set_pacman pac (gameState e))) e).

Definition activatePowerPellet (gs : GameState) : GameState :=
  let gs := set_powerPelletActive true gs in
  let gs := set_powerPelletTimer GAME_CONFIG.POWER_PELLET_DURATION gs in
  let gs := set_ghostEatenCount 0 gs in
  (* Make ghosts frightened *)
  set_ghosts
    (map (fun ghost =>
            if negb (bool_decide (state ghost = EATEN))
               && negb (bool_decide (state ghost = IN_HOUSE)) then
              let ghost := set_state FRIGHTENED ghost in
              let ghost := set_frightenedTimer GAME_CONFIG.POWER_PELLET_DURATION ghost in
              let ghost := set_isFlashing false ghost in
              (* Reverse direction *)
              set_direction (getOppositeDirection (direction ghost)) ghost
            else ghost)
         (ghosts gs))
    gs.

(** [this.gameState.maze[gridY][gridX] = CellType.EMPTY], inside the bounds
    that [checkCollisions] has checked. *)
Definition clearCell (mz : Maze) (gridX gridY : Z) : Maze :=
  alter (fun row => <[Z.to_nat gridX := EMPTY]> row) (Z.to_nat gridY) mz.

(** The body of the [ghosts.forEach] of [checkCollisions]: the engine, and
    the ghosts already visited in reverse order. *)
Definition collideWithGhost (gridX gridY : Z) (acc : t * list Ghost) (ghost : Ghost)
    : t * list Ghost :=
  let '(e, seen) := acc in
  let gs := gameState e in
  let ghostGridX := toGrid (posX (position ghost)) in
  let ghostGridY := toGrid (posY (position ghost)) in
  let distance := Z.abs (gridX - ghostGridX) + Z.abs (gridY - ghostGridY) in
  if distance <? 1 then
    if bool_decide (state ghost = FRIGHTENED) then
      (* Eat ghost *)
      let ghost := set_state EATEN ghost in
      (* Math.pow(2, ghostEatenCount); the count is never negative *)
      let points := GAME_CONFIG.POINTS_GHOST_BASE * 2 ^ ghostEatenCount gs in
      let gs := set_score (score gs + points) gs in
      let gs := set_ghostEatenCount (ghostEatenCount gs + 1) gs in
      let gs := set_screenShake true gs in
      (set_gameState gs e, ghost :: seen)
    else if negb (bool_decide (state ghost = EATEN)) then
      (* Pac-Man dies *)
      let gs := set_pacman (set_isDead true (pacman gs)) gs in
      let gs := set_lives (lives gs - 1) gs in
      let gs := set_screenShake true gs in
      if lives gs <=? 0 then
        (set_gameState (set_gameStatus GAME_OVER gs) e, ghost :: seen)
      else
        (* Reset positions: setTimeout(() => this.resetPositions(), 2000) *)
        (set_timeouts (timeouts e ++ [(2000, ResetPositions)]) (set_gameState gs e),
         ghost :: seen)
    else (e, ghost :: seen)
  else (e, ghost :: seen).

Definition checkCollisions (e : t) : t :=
  let gs := gameState e in
  let gridX := toGrid (posX (pacPosition (pacman gs))) in
  let gridY := toGrid (posY (pacPosition (pacman gs))) in
  (* Ensure we're within bounds *)
  if (gridX <? 0) || (gridX >=? GAME_CONFIG.MAZE_WIDTH)
     || (gridY <? 0) || (gridY >=? GAME_CONFIG.MAZE_HEIGHT) then e
  else
    let cellType := cellAt (maze gs) gridX gridY in
    (* Collect pellets *)
    let gs :=
      if bool_decide (cellType = Some PELLET) then
        let gs := set_maze (clearCell (maze gs) gridX gridY) gs in
        let gs := set_score (score gs + GAME_CONFIG.POINTS_PELLET) gs in
        set_pelletsRemaining (pelletsRemaining gs - 1) gs
      else gs in
    (* Collect power pellets *)
    let gs :=
      if bool_decide (cellType = Some POWER_PELLET) then
        let gs := set_maze (clearCell (maze gs) gridX gridY) gs in
        let gs := set_score (score gs + GAME_CONFIG.POINTS_POWER_PELLET) gs in
        let gs := set_pelletsRemaining (pelletsRemaining gs - 1) gs in
        activatePowerPellet gs
      else gs in
    (* Collect fruit *)
    let gs :=
      match fruitPosition gs with
      | Some fruit =>
          if (gridX =? fruit.1) && (gridY =? fruit.2) then
            let fruitPoints :=
              nth (Z.to_nat (Z.min (level gs - 1) 7)) GAME_CONFIG.POINTS_FRUIT 0 in
            let gs := set_score (score gs + fruitPoints) gs in
            let gs := set_fruitScore fruitPoints gs in
            let gs := set_fruitPosition None gs in
            set_fruitSpawned false gs
          else gs
      | None => gs
      end in
    (* Check ghost collisions *)
    let '(e, visited) :=
      fold_left (collideWithGhost gridX gridY) (ghosts gs) (set_gameState gs e, []) in
    set_gameState (set_ghosts (rev visited) (gameState e)) e.

Definition countPellets (mz : Maze) : Z :=
  fold_left
    (fun count row =>
       fold_left
         (fun count cell =>
            match cell with
            | PELLET | POWER_PELLET => count + 1
            | _ => count
            end)
         row count)
    mz 0.

Definition createPacMan : PacMan :=
  {| pacPosition := toPixels PACMAN_START_POSITION;
     pacVelocity := {| dx := 0; dy := 0 |};
     pacDirection := NONE;
     nextDirection := NONE;
     animationFrame := 0;
     isDead := false;
     mouthOpen := true |}.

(** [Object.entries(GHOST_CONFIG)], with the index of each key. *)
Definition ghostEntries : list (Z * GhostType) :=
  [(0, BLINKY); (1, PINKY); (2, INKY); (3, CLYDE)].

Definition createGhosts : list Ghost :=
  map (fun '(index, type) =>
         {| id := type;
            position := toPixels (startPosition type);
            velocity := {| dx := 0; dy := 0 |};
            direction := UP;
            state := if bool_decide (type = BLINKY) then CHASE else IN_HOUSE;
            targetPosition := toPixels (configScatterTarget type);
            scatterTarget := toPixels (configScatterTarget type);
            houseTimer := if bool_decide (type = BLINKY) then 0 else 60 + index * 30;
            frightenedTimer := 0;
            isFlashing := false;
            lastDirection := UP;
            targetShared := false |})
      ghostEntries.

(** [initializeGameState]; [storedHighScore] is what
    [parseInt(localStorage.getItem('pacman_highscore') || '0')] reads. *)
Definition initializeGameState (storedHighScore : Z) : GameState :=
  let mz := MAZE_LAYOUT in
  {| pacman := createPacMan;
     ghosts := createGhosts;
     maze := mz;
     score := 0;
     highScore := storedHighScore;
     lives := 3;
     level := 1;
     pelletsRemaining := countPellets mz;
     powerPelletActive := false;
     powerPelletTimer := 0;
     gameStatus := READY;
     ghostEatenCount := 0;
     fruitSpawned := false;
     fruitPosition := None;
     fruitScore := 0;
     aiLearningLevel := JSNum.Fin 0;
     showAIFeatures := true;
     dangerMap := [];
     playerPatterns := [];
     screenShake := false;
     vhsGlitch := false |}.

(** [new GameEngine()]. *)
Definition create (storedHighScore : Z) : t :=
  {| aiEngine := AIEngine.create;
     gameState := initializeGameState storedHighScore;
     frameCount := 0;
     difficultyMultiplier := 1;
     timeouts := [] |}.



Definition set_highScore (v : Z) (r : GameState) : GameState :=
  {| pacman := pacman r; ghosts := ghosts r; maze := maze r; score := score r; highScore :=
     v; lives := lives r; level := level r; pelletsRemaining := pelletsRemaining r;
     powerPelletActive := powerPelletActive r; powerPelletTimer := powerPelletTimer r;
     gameStatus := gameStatus r; ghostEatenCount := ghostEatenCount r; fruitSpawned :=
     fruitSpawned r; fruitPosition := fruitPosition r; fruitScore := fruitScore r;
     aiLearningLevel := aiLearningLevel r; showAIFeatures := showAIFeatures r; dangerMap :=
     dangerMap r; playerPatterns := playerPatterns r; screenShake := screenShake r;
     vhsGlitch := vhsGlitch r |}.
Definition set_level (v : Z) (r : GameState) : GameState :=
  {| pacman := pacman r; ghosts := ghosts r; maze := maze r; score := score r; highScore :=
     highScore r; lives := lives r; level := v; pelletsRemaining := pelletsRemaining r;
     powerPelletActive := powerPelletActive r; powerPelletTimer := powerPelletTimer r;
     gameStatus := gameStatus r; ghostEatenCount := ghostEatenCount r; fruitSpawned :=
     fruitSpawned r; fruitPosition := fruitPosition r; fruitScore := fruitScore r;
     aiLearningLevel := aiLearningLevel r; showAIFeatures := showAIFeatures r; dangerMap :=
     dangerMap r; playerPatterns := playerPatterns r; screenShake := screenShake r;
     vhsGlitch := vhsGlitch r |}.

Definition updatePowerPelletTimer (gs : GameState) : GameState :=
  if powerPelletActive gs then
    let gs := set_powerPelletTimer (powerPelletTimer gs - 1) gs in
    if powerPelletTimer gs <=? 0 then set_powerPelletActive false gs else gs
  else gs.

(** [resetPositions] gives Pac-Man a new [position] object: the targets
    that were the old one keep its last coordinates and are [pacman.position]
    no more. *)
Definition resetPositions (gs : GameState) : GameState :=
  let pac := set_pacPosition (toPixels PACMAN_START_POSITION) (pacman gs) in
  let pac := set_pacDirection NONE pac in
  let pac := set_pacVelocity {| dx := 0; dy := 0 |} pac in
  let pac := set_isDead false pac in
  let gs := set_pacman pac gs in
  let gs :=
    set_ghosts
      (map (fun ghost =>
              let ghost := set_position (toPixels (startPosition (id ghost))) ghost in
              let ghost := set_direction UP ghost in
              let ghost := set_velocity {| dx := 0; dy := 0 |} ghost in
              let ghost :=
                set_state (if bool_decide (id ghost = BLINKY) then CHASE else IN_HOUSE) ghost in
              let ghost :=
                set_houseTimer (if bool_decide (id ghost = BLINKY) then 0 else 60) ghost in
              set_targetShared false ghost)
           (ghosts gs))
      gs in
  let gs := set_powerPelletActive false gs in
  let gs := set_powerPelletTimer 0 gs in
  set_gameStatus READY gs.

(** The callback that [checkGameConditions] hands to [setTimeout] when a
    level is complete. *)
Definition startNextLevel (gs : GameState) : GameState :=
  let gs := set_maze MAZE_LAYOUT gs in
  let gs := set_pelletsRemaining (countPellets (maze gs)) gs in
  let gs := resetPositions gs in
  set_gameStatus READY gs.

(** What [checkGameConditions] does besides changing the game state: whether
    it has scheduled [startNextLevel] (in 2000 ms), and the score it has
    written to [localStorage], if any. *)
Record Conditions := {
  conditionsState : GameState;
  nextLevelScheduled : bool;
  highScoreStored : option Z
}.

Definition checkGameConditions (gs : GameState) : Conditions :=
  (* Check if all pellets collected *)
  let complete := pelletsRemaining gs <=? 0 in
  let gs :=
    if complete then set_level (level gs + 1) (set_gameStatus LEVEL_COMPLETE gs) else gs in
  (* Update high score *)
  if highScore gs <? score gs then
    {| conditionsState := set_highScore (score gs) gs;
       nextLevelScheduled := complete;
       highScoreStored := Some (score gs) |}
  else
    {| conditionsState := gs; nextLevelScheduled := complete; highScoreStored := None |}.


End GameEngine.

(** * Vocabulary of the properties *)

(** ** Paths *)

Section PathVocabulary.

Import AStar.

Variables (maze : Maze) (start : GridPos).

(** [p] is the start or has a predecessor recorded in [cf]. *)
Definition linked (cf : gmap GridPos GridPos) (p : GridPos) : Prop :=
  p = start \/ is_Some (cf !! p).

(** Every [cameFrom] entry leads from a valid cell to a 4-adjacent cell
    that is linked in turn. *)
Definition cameFromOk (cf : gmap GridPos GridPos) : Prop :=
  forall k v, cf !! k = Some v ->
    isValidPosition k maze = true /\ manhattanDistance v k = 1 /\ linked cf v.

Definition searchInv (st : SearchState) : Prop :=
  (forall p, p ∈ openSet st -> linked (cameFrom st) p) /\ cameFromOk (cameFrom st).

(** Consecutive positions are 4-adjacent. *)
Fixpoint stepwise (l : list GridPos) : Prop :=
  match l with
  | a :: (b :: _) as rest => manhattanDistance a b = 1 /\ stepwise rest
  | _ => True
  end.

(** Every [cameFrom] entry leads to a position that has an entry itself:
    following the map never ends. *)
Definition cameFromClosed (cf : gmap AStar.GridPos AStar.GridPos) : Prop :=
  forall k v, cf !! k = Some v -> is_Some (cf !! v).

(** The state while the start is being expanded: everything recorded leads
    back to the start, whose own gScore is still the falsy [0]. *)
Definition aroundStart (st : SearchState) : Prop :=
  (forall p, p ∈ openSet st -> is_Some (cameFrom st !! p))
  /\ (forall k v, cameFrom st !! k = Some v ->
        v = start /\ exists d, d ∈ directions /\ k = getNextPosition start d)
  /\ gScore st !! start = Some 0.

(** The state while the first neighbour is being expanded. *)
Definition startPending (st : SearchState) : Prop :=
  (forall p, p ∈ openSet st -> is_Some (cameFrom st !! p))
  /\ (forall k v, cameFrom st !! k = Some v -> v = start \/ is_Some (cameFrom st !! v))
  /\ (gScore st !! start = Some 0 \/ is_Some (cameFrom st !! start)).

(** The state from then on. *)
Definition closedState (st : SearchState) : Prop :=
  (forall p, p ∈ openSet st -> is_Some (cameFrom st !! p))
  /\ cameFromClosed (cameFrom st).

End PathVocabulary.

(** A corridor of three cells. *)
Definition corridor3 : Maze := [[EMPTY; EMPTY; EMPTY]].

(** The [cameFrom] map when the search of the three-cell corridor reaches
    the goal: expanding [(1,0)] has recorded it as the predecessor of the
    start, whose stored gScore [0] was read as [Infinity]. *)
Definition corridorCameFrom : gmap AStar.GridPos AStar.GridPos :=
  {[ (1, 0) := (0, 0); (0, 0) := (1, 0); (2, 0) := (1, 0) ]}.

(** ** The pattern learner *)

(** A sequence of calls to [recordPlayerMovement], oldest first. *)
Definition recordAll (dirs : list Direction) (s : AIEngine.t) : AIEngine.t :=
  fold_left (fun s dir => AIEngine.recordPlayerMovement dir s) dirs s.


(** The last [n] elements of a list. *)
Definition lastN {A} (n : nat) (l : list A) : list A := drop (length l - n) l.

(** The pattern memory as the specification words it: after the directions
    [dirs] have been recorded, the last [min(k, N)] of them in insertion
    order, [k] their number and [N] the configured memory size. *)
Definition specPatternMemory (dirs : list Direction) : list Direction :=
  lastN (Nat.min (length dirs) (Z.to_nat GAME_CONFIG.AI_PATTERN_MEMORY)) dirs.

(** The weights when the window is empty: [0 / 0] for every key. *)
Definition nanWeights : AIEngine.Weights :=
  {| AIEngine.wUP := JSNum.NaN; AIEngine.wDOWN := JSNum.NaN; AIEngine.wLEFT := JSNum.NaN;
     AIEngine.wRIGHT := JSNum.NaN; AIEngine.wNONE := JSNum.NaN |}.

(** ** The session *)

(** A new engine, with nothing in [localStorage]. *)
Definition engine0 : GameEngine.t := GameEngine.create 0.


(** ** Captures *)

(** Pac-Man, in grid cell [(gridX, gridY)], is on a frightened ghost. *)
Definition capturable (gridX gridY : Z) (ghost : Ghost) : Prop :=
  state ghost = FRIGHTENED
  /\ Z.abs (gridX - GameEngine.toGrid (posX (position ghost)))
     + Z.abs (gridY - GameEngine.toGrid (posY (position ghost))) < 1.

(** A frightened ghost standing on the cell of Pac-Man's start. *)
Definition frightenedGhost (type : GhostType) : Ghost :=
  {| id := type;
     position := GameEngine.toPixels GameEngine.PACMAN_START_POSITION;
     velocity := {| dx := 0; dy := 0 |};
     direction := UP;
     state := FRIGHTENED;
     targetPosition := GameEngine.toPixels (GameEngine.configScatterTarget type);
     scatterTarget := GameEngine.toPixels (GameEngine.configScatterTarget type);
     houseTimer := 0;
     frightenedTimer := 100;
     isFlashing := false;
     lastDirection := UP;
     targetShared := false |}.

(** ** The danger field *)

(** A ghost that is neither frightened nor eaten. *)
Definition threatening (ghost : Ghost) : bool :=
  match state ghost with
  | FRIGHTENED | EATEN => false
  | _ => true
  end.

Definition withinRadius (pos : Position) (ghost : Ghost) : bool :=
  Qle_bool (AIEngine.manhattanDistance pos (position ghost)) AI_CONFIG.DANGER_RADIUS.

(** [(R - d) / R] for the ghost at Manhattan distance [d]. *)
Definition contribution (pos : Position) (ghost : Ghost) : Q :=
  ((AI_CONFIG.DANGER_RADIUS - AIEngine.manhattanDistance pos (position ghost))
   / AI_CONFIG.DANGER_RADIUS)%Q.

(** The sum of the contributions of the threatening ghosts within the
    radius. *)
Fixpoint dangerSum (pos : Position) (ghosts : list Ghost) : Q :=
  match ghosts with
  | [] => 0%Q
  | ghost :: rest =>
      if threatening ghost && withinRadius pos ghost
      then (contribution pos ghost + dangerSum pos rest)%Q
      else dangerSum pos rest
  end.

Definition clamp01 (q : Q) : Q := Math_max 0 (Math_min q 1).

(** [heatmap[y][x]]. *)
Definition heatAt (heatmap : list (list Q)) (x y : nat) : option Q :=
  match nth_error heatmap y with
  | Some row => nth_error row x
  | None => None
  end.

(** The value that marks a wall in the heatmap. *)
Definition wallSentinel : Q := (-1)%Q.

(** Blinky, chasing, in the cell [(1, 1)] of the layout. *)
Definition blinkyAt11 : Ghost :=
  {| id := BLINKY;
     position := GameEngine.gridPosition 1 1;
     velocity := {| dx := 0; dy := 0 |};
     direction := UP;
     state := CHASE;
     targetPosition := GameEngine.gridPosition 17 0;
     scatterTarget := GameEngine.gridPosition 17 0;
     houseTimer := 0;
     frightenedTimer := 0;
     isFlashing := false;
     lastDirection := UP;
     targetShared := false |}.

(** ** Ghost movement *)

(** A ghost in the chase branch of [updateGhostMovement]. *)
Definition ghostAt (type : GhostType) (pos target : Position) (dir last : Direction)
    (st : GhostState) : Ghost :=
  {| id := type;
     position := pos;
     velocity := GameEngine.directionVelocity dir GAME_CONFIG.GHOST_SPEED;
     direction := dir;
     state := st;
     targetPosition := target;
     scatterTarget := GameEngine.toPixels (GameEngine.configScatterTarget type);
     houseTimer := 0;
     frightenedTimer := 0;
     isFlashing := false;
     lastDirection := last;
     targetShared := false |}.

(** Blinky after 114 steps to the left from its start, in the left mouth of
    the tunnel: pixel [(10.8, 216)], grid cell [(0, 9)]. *)
Definition tunnelGhost : Ghost :=
  ghostAt BLINKY {| posX := 54 # 5; posY := 216 |} {| posX := 216; posY := 360 |}
    LEFT LEFT CHASE.

(** Blinky at the crossing [(5, 3)], having moved up and then turned left,
    with its target to the right on the same row. *)
Definition crossingGhost : Ghost :=
  ghostAt BLINKY {| posX := 120; posY := 72 |} {| posX := 408; posY := 72 |}
    LEFT UP CHASE.

(** Blinky passing the same crossing to the left, as in its previous
    update, with its target to the right. *)
Definition passingGhost : Ghost :=
  ghostAt BLINKY {| posX := 120; posY := 72 |} {| posX := 408; posY := 72 |}
    LEFT LEFT CHASE.

(** The first ghost of a new game. *)
Definition blinky0 : Ghost := hd tunnelGhost GameEngine.createGhosts.


(** A blend that is never run below learning level 20. *)
Definition keepBaseTarget (s : AIEngine.t) (ghost : Ghost) (pac : PacMan) (baseTarget : Position)
    : Position := baseTarget.

(** ** The tunnel *)

(** A new engine whose Pac-Man moves in direction [dir] at pixel [(px, 216)]
    of the tunnel row (grid row 9). *)
Definition tunnelEngine (px : Q) (dir : Direction) : GameEngine.t :=
  GameEngine.set_gameState
    (GameEngine.set_pacman
       {| pacPosition := {| posX := px; posY := 216 |};
          pacVelocity := GameEngine.directionVelocity dir GAME_CONFIG.PACMAN_SPEED;
          pacDirection := dir;
          nextDirection := dir;
          animationFrame := 0;
          isDead := false;
          mouthOpen := true |}
       (GameEngine.gameState engine0))
    engine0.

(** ** The first expansion of the pathfinder *)

(** The state while the start is being expanded, with the scores: the open
    set holds exactly the positions that have a [cameFrom] entry, each with
    gScore 1 and fScore 1 plus its distance to the goal, and nothing else
    but the start has a gScore. *)
Definition firstRing (start goal : AStar.GridPos) (st : AStar.SearchState) : Prop :=
  aroundStart start st
  /\ (forall p, is_Some (AStar.cameFrom st !! p) -> p ∈ AStar.openSet st)
  /\ (forall p, is_Some (AStar.cameFrom st !! p) ->
        AStar.gScore st !! p = Some 1
        /\ AStar.fScore st !! p = Some (1 + AStar.manhattanDistance p goal))
  /\ (forall p, AStar.cameFrom st !! p = None -> p <> start -> AStar.gScore st !! p = None).

(** The fScore of a position as the selection loop reads it. *)
Definition readScore (fs : gmap AStar.GridPos Z) (p : AStar.GridPos) : AStar.score :=
  AStar.orInfinity (fs !! p).

(** A ghost over consecutive frames in which only [updateGhosts] touches
    it: each frame has its engine and its value of [Math.random()]. *)
Definition ghostFrames (blend : AIEngine.t -> Ghost -> PacMan -> Position -> Position)
    (frames : list (GameEngine.t * Q)) (ghost : Ghost) : Ghost :=
  fold_left (fun g frame => GameEngine.updateGhost blend frame.1 frame.2 g) frames ghost.

(** The maze has the walls of the layout: pellets are eaten, walls stay. *)
Definition sameWalls (mz : Maze) : Prop :=
  forall pos, GameEngine.isValidMove mz pos = GameEngine.isValidMove MAZE_LAYOUT pos.

Definition onWalkableCell (ghost : Ghost) : Prop :=
  GameEngine.isValidMove MAZE_LAYOUT (GameEngine.ghostGridPos ghost) = true.

(** Pinky as a new game creates it: in the house, with 90 frames to wait. *)
Definition pinky0 : Ghost := nth 1 GameEngine.createGhosts blinky0.

(** A ghost that has just been eaten on the cell of Pac-Man's start. *)
Definition eatenGhost (type : GhostType) : Ghost :=
  ghostAt type (GameEngine.toPixels GameEngine.PACMAN_START_POSITION)
    (GameEngine.startPosition type) UP UP EATEN.

(** The distance to the target that [updateGhostMovement] compares: from
    the cell next to the ghost in direction [dir]. *)
Definition distanceVia (ghost : Ghost) (dir : Direction) : Z :=
  GameEngine.manhattanDistance
    (GameEngine.getNextPosition (GameEngine.ghostGridPos ghost) dir)
    (GameEngine.toGrid (posX (targetPosition ghost)),
     GameEngine.toGrid (posY (targetPosition ghost))).

(** Pac-Man's grid cell, as [updatePacMan] and [checkCollisions] round it. *)
Definition pacGridPos (e : GameEngine.t) : GameEngine.GridPos :=
  (GameEngine.toGrid (posX (pacPosition (GameEngine.pacman (GameEngine.gameState e)))),
   GameEngine.toGrid (posY (pacPosition (GameEngine.pacman (GameEngine.gameState e))))).

(** ** Collisions *)

(** [count] after the inner [forEach] of [countPellets] has run over one
    row. *)
Definition pelletsInRow (count : Z) (row : list CellType) : Z :=
  fold_left
    (fun count cell =>
       match cell with
       | PELLET | POWER_PELLET => count + 1
       | _ => count
       end)
    row count.

(** Pac-Man, in grid cell [(gridX, gridY)], is on this ghost. *)
Definition touching (gridX gridY : Z) (ghost : Ghost) : bool :=
  Z.abs (gridX - GameEngine.toGrid (posX (position ghost)))
  + Z.abs (gridY - GameEngine.toGrid (posY (position ghost))) <? 1.

(** A ghost that costs a life: on Pac-Man's cell, neither frightened nor
    eaten. *)
Definition deadly (gridX gridY : Z) (ghost : Ghost) : bool :=
  touching gridX gridY ghost
  && negb (bool_decide (state ghost = FRIGHTENED))
  && negb (bool_decide (state ghost = EATEN)).

(** What a collision check leaves of a ghost: a frightened ghost on
    Pac-Man's cell is eaten, every other ghost is as it was. *)
Definition afterCollision (gridX gridY : Z) (ghost : Ghost) : Ghost :=
  if touching gridX gridY ghost && bool_decide (state ghost = FRIGHTENED)
  then set_state EATEN ghost else ghost.

(** Pac-Man's cell lies inside the maze. *)
Definition insideMaze (pos : GameEngine.GridPos) : Prop :=
  0 <= pos.1 < GAME_CONFIG.MAZE_WIDTH /\ 0 <= pos.2 < GAME_CONFIG.MAZE_HEIGHT.

(** A new engine with Blinky and Pinky both standing on Pac-Man. *)
Definition crowdedEngine : GameEngine.t :=
  GameEngine.set_gameState
    (GameEngine.set_ghosts
       [ghostAt BLINKY (GameEngine.toPixels GameEngine.PACMAN_START_POSITION)
          (GameEngine.gridPosition 17 0) UP UP CHASE;
        ghostAt PINKY (GameEngine.toPixels GameEngine.PACMAN_START_POSITION)
          (GameEngine.gridPosition 2 0) UP UP SCATTER]
       (GameEngine.gameState engine0))
    engine0.

(** ** Predicted wandering and escape routes *)

(** Each position is its predecessor, when the predecessor has no valid
    neighbour, or a valid position next to the predecessor. *)
Fixpoint wandering (maze : Maze) (from : AStar.GridPos) (l : list AStar.GridPos) : Prop :=
  match l with
  | [] => True
  | next :: rest =>
      (next = from /\ AIEngine.getPossibleDirections from maze = []
       \/ AStar.manhattanDistance from next = 1 /\ AStar.isValidPosition next maze = true)
      /\ wandering maze next rest
  end.

(** The number of loop iterations that one queue entry can cause: itself
    and, while its path has at most 6 cells, four entries with a path
    longer by one. [budget k] is for a path of [7 - k] cells. *)
Fixpoint budget (k : nat) : Z :=
  match k with
  | O => 1
  | S k' => 1 + 4 * budget k'
  end.

Definition routeBudget (entry : AIEngine.Route) : Z :=
  budget (7 - length (AIEngine.routePath entry)).

Definition queueBudget (queue : list AIEngine.Route) : Z :=
  fold_right (fun entry total => routeBudget entry + total) 0 queue.

(** Every path waiting in the queue runs over valid positions only. *)
Definition validRoutes (maze : Maze) (queue : list AIEngine.Route) : Prop :=
  Forall (fun entry =>
            Forall (fun p => AStar.isValidPosition p maze = true) (AIEngine.routePath entry))
         queue.

(** ** Targets that are Pac-Man's position *)

(** A new engine after [updateGhostState] has run for Blinky: Blinky's
    target is the object [pacman.position]. *)
Definition chasingEngine : GameEngine.t :=
  GameEngine.set_gameState
    (GameEngine.set_ghosts
       (GameEngine.updateGhostState keepBaseTarget engine0 blinky0
        :: tail (GameEngine.ghosts (GameEngine.gameState engine0)))
       (GameEngine.gameState engine0))
    engine0.
(** * Properties *)

(** [forEach] one element at a time. *)
Lemma fold_left_cons {A B} (f : A -> B -> A) b l a :
  fold_left f (b :: l) a = fold_left f l (f a b).
Proof. reflexivity. Qed.

(** ** The pathfinder *)

Section PathShape.

Import AStar.

Variables (maze : Maze) (start goal : GridPos).

Local Abbreviation linked := (linked start).
Local Abbreviation cameFromOk := (cameFromOk maze start).
Local Abbreviation searchInv := (searchInv maze start).

Lemma linked_insert cf n c p : linked cf p -> linked (<[n := c]> cf) p.
Proof.
  intros [-> | Hs]; [by left | right].
  destruct (decide (n = p)) as [-> | Hne].
  - rewrite lookup_insert_eq. eauto.
  - by rewrite lookup_insert_ne.
Qed.

Lemma neighbor_adjacent current dir :
  dir ∈ directions -> manhattanDistance current (getNextPosition current dir) = 1.
Proof.
  unfold directions, manhattanDistance. intros Hd.
  destruct dir; cbn; try lia.
  exfalso. repeat (apply elem_of_cons in Hd as [Hd | Hd]; [discriminate |]).
  by apply elem_of_nil in Hd.
Qed.

Lemma searchInv_initial : searchInv (initialState start goal).
Proof.
  split; cbn.
  - intros p Hp. left. by apply list_elem_of_singleton in Hp.
  - intros k v Hk. by rewrite lookup_empty in Hk.
Qed.

Lemma visitNeighbor_inv current st dir :
  dir ∈ directions -> searchInv st -> linked (cameFrom st) current ->
  searchInv (visitNeighbor maze goal current st dir)
  /\ linked (cameFrom (visitNeighbor maze goal current st dir)) current.
Proof.
  intros Hd [Hopen Hcame] Hcur. unfold visitNeighbor.
  destruct (isValidPosition (getNextPosition current dir) maze) eqn:Hvalid;
    simpl negb; cbv iota; [| by split; [split |]].
  destruct (score_ltb _ _); [| by split; [split |]].
  split; [split |]; cbn.
  - intros p Hp.
    assert (p ∈ openSet st \/ p = getNextPosition current dir) as [Hin | ->].
    { destruct (inOpenSet _ _); [by left |].
      apply elem_of_app in Hp as [? | Hp]; [by left | right].
      by apply list_elem_of_singleton in Hp. }
    + by apply linked_insert, Hopen.
    + right. rewrite lookup_insert_eq. eauto.
  - intros k v Hk.
    destruct (decide (getNextPosition current dir = k)) as [<- | Hne].
    + rewrite lookup_insert_eq in Hk. injection Hk as <-.
      split; [done | split; [by apply neighbor_adjacent | by apply linked_insert]].
    + rewrite lookup_insert_ne in Hk by done.
      destruct (Hcame k v Hk) as (? & ? & ?).
      split; [done | split; [done | by apply linked_insert]].
  - by apply linked_insert.
Qed.

Lemma fold_visit_inv current ds st :
  (forall d, d ∈ ds -> d ∈ directions) -> searchInv st -> linked (cameFrom st) current ->
  searchInv (fold_left (visitNeighbor maze goal current) ds st).
Proof.
  revert st. induction ds as [| d ds IH]; intros st Hds Hinv Hcur; cbn; [done |].
  destruct (visitNeighbor_inv current st d) as [Hinv' Hcur']; [| done | done |].
  { apply Hds, elem_of_cons. by left. }
  apply IH; [| done | done].
  intros d' Hd'. apply Hds, elem_of_cons. by right.
Qed.

Lemma expand_inv current st :
  searchInv st -> linked (cameFrom st) current -> searchInv (expand maze goal current st).
Proof. intros. by apply fold_visit_inv. Qed.

Lemma lowestFrom_elem fs current ci i rest :
  (lowestFrom fs current ci i rest).1 ∈ current :: rest.
Proof.
  revert current ci i. induction rest as [| node rest IH]; intros current ci i; cbn.
  - apply elem_of_cons. by left.
  - destruct (score_ltb _ _).
    + apply elem_of_cons. right. apply IH.
    + specialize (IH current ci (S i)).
      apply elem_of_cons in IH as [-> | IH]; [apply elem_of_cons; by left |].
      do 2 (apply elem_of_cons; right). done.
Qed.

Lemma splice1_subset l i p : p ∈ splice1 l i -> p ∈ l.
Proof.
  unfold splice1. revert i. induction l as [| a l IH]; intros [| i]; cbn; [done | done | |].
  - intros Hp. apply elem_of_cons. by right.
  - intros Hp. apply elem_of_cons in Hp as [-> | Hp]; apply elem_of_cons; [by left |].
    right. eauto.
Qed.

Lemma searchLoop_reached fuel st cf current :
  searchInv st -> searchLoop fuel maze goal st = Some (GoalReached cf current) ->
  current = goal /\ linked cf current /\ cameFromOk cf.
Proof.
  revert st. induction fuel as [| fuel IH]; intros st Hinv Hrun; cbn in Hrun; [done |].
  destruct (openSet st) as [| first rest] eqn:Hopen; [done |].
  pose proof (lowestFrom_elem (fScore st) first 0%nat 1%nat rest) as Hin.
  destruct (lowestFrom (fScore st) first 0 1 rest) as [cur idx] eqn:Hlow. cbn in Hin.
  assert (linked (cameFrom st) cur) as Hcur.
  { destruct Hinv as [Ho _]. apply Ho. by rewrite Hopen. }
  destruct ((cur.1 =? goal.1) && (cur.2 =? goal.2)) eqn:Hgoal.
  - injection Hrun as <- <-.
    apply andb_true_iff in Hgoal as [H1 H2].
    apply Z.eqb_eq in H1, H2.
    split; [| split; [done | apply Hinv]].
    destruct cur, goal; cbn in *; congruence.
  - apply IH in Hrun; [done |].
    apply expand_inv; [| done].
    destruct Hinv as [Ho Hc]. split; cbn; [| done].
    intros p Hp. apply Ho. rewrite <- Hopen in Hp. by apply splice1_subset in Hp.
Qed.

Lemma reconstructPath_shape fuel cf current rest path :
  cameFromOk cf -> linked cf current ->
  stepwise (current :: rest) ->
  Forall (fun p => isValidPosition p maze = true) rest ->
  last (current :: rest) = Some goal ->
  reconstructPath fuel cf current (current :: rest) = Some path ->
  head path = Some start /\ last path = Some goal /\ stepwise path
  /\ Forall (fun p => isValidPosition p maze = true) (tail path).
Proof.
  intros Hcf. revert current rest.
  induction fuel as [| fuel IH]; intros current rest Hlink Hstep Hvalid Hlast Hrun;
    cbn in Hrun; destruct (cf !! current) as [prev |] eqn:Hprev; try done.
  - injection Hrun as <-. destruct Hlink as [-> | [? ?]]; [done | congruence].
  - destruct (Hcf current prev Hprev) as (Hv & Hadj & Hl).
    apply IH in Hrun; [done | done | by split | by constructor | done].
  - injection Hrun as <-. destruct Hlink as [-> | [? ?]]; [done | congruence].
Qed.

End PathShape.

(** C10. A non-empty path returned by [findPathAStar] begins at [start],
    ends at [goal], moves between 4-adjacent cells, and every position after
    the first is a valid (in-bounds, non-wall) cell of the maze. *)
Theorem findPathAStar_path_shape fuel (maze : Maze) (start goal : AStar.GridPos) path :
  AStar.findPathAStar fuel start goal maze = Some path ->
  path <> [] ->
  head path = Some start
  /\ last path = Some goal
  /\ stepwise path
  /\ Forall (fun p => AStar.isValidPosition p maze = true) (tail path).
Proof.
  unfold AStar.findPathAStar. intros Hrun Hne.
  destruct (AStar.searchLoop fuel maze goal (AStar.initialState start goal))
    as [[cf current |] |] eqn:Hsearch; [| by injection Hrun as <- | done].
  apply (searchLoop_reached maze start) in Hsearch as (-> & Hlink & Hcf);
    [| apply searchInv_initial].
  by apply (reconstructPath_shape maze start goal) in Hrun.
Qed.

Lemma findPathAStar_path_shape_witness :
  head [(0, 0); (1, 0)] = Some (0, 0)
  /\ last [(0, 0); (1, 0)] = Some (1, 0)
  /\ stepwise [(0, 0); (1, 0)]
  /\ Forall (fun p => AStar.isValidPosition p corridor3 = true) (tail [(0, 0); (1, 0)]).
Proof.
  apply (findPathAStar_path_shape 5 corridor3 (0, 0) (1, 0)).
  - vm_compute. reflexivity.
  - discriminate.
Defined.

(** The parts of the pathfinder's contract that the code keeps: a path from
    a cell to itself is that cell alone, whatever the maze. *)
Lemma findPathAStar_self fuel (maze : Maze) (start : AStar.GridPos) :
  AStar.findPathAStar (S fuel) start start maze = Some [start].
Proof.
  unfold AStar.findPathAStar. cbn.
  rewrite !Z.eqb_refl. cbn. by rewrite lookup_empty.
Qed.

Lemma searchLoop_more_fuel n m (maze : Maze) goal st r :
  AStar.searchLoop n maze goal st = Some r -> (n <= m)%nat ->
  AStar.searchLoop m maze goal st = Some r.
Proof.
  revert m st. induction n as [| n IH]; intros m st Hrun Hle; [done |].
  destruct m as [| m]; [lia |]. cbn in *.
  destruct (AStar.openSet st) as [| first rest]; [done |].
  destruct (AStar.lowestFrom _ _ _ _ _) as [cur idx].
  destruct (_ && _); [done |]. apply IH; [done | lia].
Qed.

Lemma corridor_reconstruct_loops fuel path :
  AStar.reconstructPath fuel corridorCameFrom (0, 0) path = None
  /\ AStar.reconstructPath fuel corridorCameFrom (1, 0) path = None.
Proof.
  revert path. induction fuel as [| fuel IH]; intros path.
  - split; reflexivity.
  - split.
    + change (AStar.reconstructPath fuel corridorCameFrom (1, 0) ((1, 0) :: path) = None).
      apply IH.
    + change (AStar.reconstructPath fuel corridorCameFrom (0, 0) ((0, 0) :: path) = None).
      apply IH.
Qed.

(** C1, at the corridor [[EMPTY; EMPTY; EMPTY]] from [(0,0)] to [(2,0)]: both
    cells are valid and the goal is two steps away; the search loop reaches
    the goal on its third iteration, and the reconstruction of the path then
    never ends: whatever the number of iterations allowed, [findPathAStar]
    has not returned. *)
Theorem findPathAStar_corridor_never_returns :
  AStar.isValidPosition (0, 0) corridor3 = true
  /\ AStar.isValidPosition (2, 0) corridor3 = true
  /\ AStar.searchLoop 3 corridor3 (2, 0) (AStar.initialState (0, 0) (2, 0))
     = Some (AStar.GoalReached corridorCameFrom (2, 0))
  /\ forall fuel, AStar.findPathAStar fuel (0, 0) (2, 0) corridor3 = None.
Proof.
  assert (AStar.searchLoop 3 corridor3 (2, 0) (AStar.initialState (0, 0) (2, 0))
          = Some (AStar.GoalReached corridorCameFrom (2, 0))) as Hsearch
    by (vm_compute; reflexivity).
  split; [reflexivity | split; [reflexivity | split; [exact Hsearch |]]].
  intros fuel. unfold AStar.findPathAStar.
  destruct (le_lt_dec 3 fuel) as [Hge | Hlt].
  - rewrite (searchLoop_more_fuel 3 fuel _ _ _ _ Hsearch Hge).
    destruct fuel as [| fuel]; [lia |].
    change (AStar.reconstructPath fuel corridorCameFrom (1, 0) [(1, 0); (2, 0)] = None).
    apply corridor_reconstruct_loops.
  - destruct fuel as [| [| [| fuel]]]; [reflexivity | reflexivity | reflexivity | lia].
Qed.

(** ** How far the pathfinder's defect reaches *)

Section PathExtent.

Import AStar.

Variables (maze : Maze) (start goal : GridPos).

Hypothesis start_valid : isValidPosition start maze = true.

Local Abbreviation aroundStart := (aroundStart start).
Local Abbreviation startPending := (startPending start).

Lemma is_Some_insert (cf : gmap GridPos GridPos) n c p :
  is_Some (cf !! p) -> is_Some (<[n := c]> cf !! p).
Proof.
  intros Hp. destruct (decide (n = p)) as [-> | Hne].
  - rewrite lookup_insert_eq. eauto.
  - by rewrite lookup_insert_ne.
Qed.

Lemma neighbor_not_self p d : d ∈ directions -> getNextPosition p d <> p.
Proof.
  intros Hd Heq. pose proof (neighbor_adjacent p d Hd) as Hadj.
  rewrite Heq in Hadj. unfold manhattanDistance in Hadj. lia.
Qed.

(** What one visit does to the state, when it records anything. *)
Lemma visitNeighbor_cases current st d :
  visitNeighbor maze goal current st d = st
  \/ (isValidPosition (getNextPosition current d) maze = true
      /\ cameFrom (visitNeighbor maze goal current st d)
         = <[getNextPosition current d := current]> (cameFrom st)
      /\ gScore (visitNeighbor maze goal current st d)
         = <[getNextPosition current d := orZero (gScore st !! current) + 1]> (gScore st)
      /\ (forall p, p ∈ openSet (visitNeighbor maze goal current st d) ->
            p ∈ openSet st \/ p = getNextPosition current d)).
Proof.
  unfold visitNeighbor.
  destruct (isValidPosition (getNextPosition current d) maze) eqn:Hvalid;
    simpl negb; cbv iota; [| by left].
  destruct (score_ltb _ _); [right | by left].
  split; [done | split; [done | split; [done |]]]. cbn [openSet].
  intros p Hp. destruct (inOpenSet _ _); [by left |].
  apply elem_of_app in Hp as [? | Hp]; [by left | right].
  by apply list_elem_of_singleton in Hp.
Qed.

Lemma visitNeighbor_around st d :
  d ∈ directions -> aroundStart st -> aroundStart (visitNeighbor maze goal start st d).
Proof.
  intros Hd (Hopen & Hcame & Hg).
  destruct (visitNeighbor_cases start st d) as [-> | (_ & Hcf & Hgs & Hos)]; [done |].
  split; [| split].
  - intros p Hp. rewrite Hcf. destruct (Hos p Hp) as [Hin | ->].
    + by apply is_Some_insert, Hopen.
    + rewrite lookup_insert_eq. eauto.
  - intros k v. rewrite Hcf. destruct (decide (getNextPosition start d = k)) as [<- | Hne].
    + rewrite lookup_insert_eq. intros [= <-]. split; [done |]. by exists d.
    + rewrite lookup_insert_ne by done. apply Hcame.
  - rewrite Hgs, lookup_insert_ne; [done |]. by apply neighbor_not_self.
Qed.

Lemma expand_around st :
  aroundStart st -> aroundStart (expand maze goal start st).
Proof.
  intros Hst. unfold expand, directions.
  repeat (rewrite fold_left_cons).
  cbn [fold_left].
  repeat (apply visitNeighbor_around;
          [unfold directions; repeat (first [by apply list_elem_of_here
                                            | apply list_elem_of_further]) |]).
  exact Hst.
Qed.

Lemma visitNeighbor_keeps current st d p :
  is_Some (cameFrom st !! p) ->
  is_Some (cameFrom (visitNeighbor maze goal current st d) !! p).
Proof.
  intros Hp.
  destruct (visitNeighbor_cases current st d) as [-> | (_ & -> & _)]; [done |].
  by apply is_Some_insert.
Qed.

(** The visit that finds the start with its gScore still [0] takes the [0]
    for a missing entry and records a predecessor for the start. *)
Lemma visitNeighbor_reaches_start current st d :
  getNextPosition current d = start ->
  gScore st !! start = Some 0 ->
  cameFrom (visitNeighbor maze goal current st d) = <[start := current]> (cameFrom st).
Proof.
  intros Heq Hg. unfold visitNeighbor. rewrite Heq, start_valid, Hg. reflexivity.
Qed.

Lemma visitNeighbor_pending current st d :
  is_Some (cameFrom st !! current) -> startPending st ->
  startPending (visitNeighbor maze goal current st d)
  /\ (getNextPosition current d = start ->
      is_Some (cameFrom (visitNeighbor maze goal current st d) !! start)).
Proof.
  intros Hcur (Hopen & Hcame & Hstart). split.
  - destruct (visitNeighbor_cases current st d) as [-> | (Hvalid & Hcf & Hgs & Hos)];
      [done |].
    split; [| split].
    + intros p Hp. rewrite Hcf. destruct (Hos p Hp) as [Hin | ->].
      * by apply is_Some_insert, Hopen.
      * rewrite lookup_insert_eq. eauto.
    + intros k v. rewrite Hcf.
      destruct (decide (getNextPosition current d = k)) as [<- | Hne].
      * rewrite lookup_insert_eq. intros [= <-]. right. by apply is_Some_insert.
      * rewrite lookup_insert_ne by done. intros Hk.
        destruct (Hcame k v Hk) as [-> | Hv]; [by left | right; by apply is_Some_insert].
    + rewrite Hcf, Hgs. destruct Hstart as [Hg | Hs]; [| right; by apply is_Some_insert].
      destruct (decide (getNextPosition current d = start)) as [-> | Hns].
      * right. rewrite lookup_insert_eq. eauto.
      * left. by rewrite lookup_insert_ne.
  - intros Heq. destruct Hstart as [Hg | Hs]; [| by apply visitNeighbor_keeps].
    rewrite (visitNeighbor_reaches_start _ _ _ Heq Hg), lookup_insert_eq. eauto.
Qed.

Lemma fold_visit_pending current ds st :
  is_Some (cameFrom st !! current) -> startPending st ->
  startPending (fold_left (visitNeighbor maze goal current) ds st)
  /\ ((exists d, d ∈ ds /\ getNextPosition current d = start) ->
      is_Some (cameFrom (fold_left (visitNeighbor maze goal current) ds st) !! start))
  /\ (is_Some (cameFrom st !! start) ->
      is_Some (cameFrom (fold_left (visitNeighbor maze goal current) ds st) !! start)).
Proof.
  revert st. induction ds as [| d ds IH]; intros st Hcur Hst.
  - split; [done | split; [| done]]. intros (d & Hd & _). by apply elem_of_nil in Hd.
  - rewrite fold_left_cons.
    destruct (visitNeighbor_pending current st d Hcur Hst) as [Hst' Hfound].
    destruct (IH _ (visitNeighbor_keeps current st d current Hcur) Hst')
      as (Hpend & Hlater & Hkeep).
    split; [done | split].
    + intros (d' & Hd' & Heq). apply elem_of_cons in Hd' as [-> | Hd'].
      * by apply Hkeep, Hfound.
      * apply Hlater. by exists d'.
    + intros Hs. by apply Hkeep, visitNeighbor_keeps.
Qed.

Lemma visitNeighbor_closed current st d :
  is_Some (cameFrom st !! current) -> closedState st ->
  closedState (visitNeighbor maze goal current st d).
Proof.
  intros Hcur [Hopen Hclosed].
  destruct (visitNeighbor_cases current st d) as [-> | (_ & Hcf & _ & Hos)]; [done |].
  split.
  - intros p Hp. rewrite Hcf. destruct (Hos p Hp) as [Hin | ->].
    + by apply is_Some_insert, Hopen.
    + rewrite lookup_insert_eq. eauto.
  - intros k v. rewrite Hcf.
    destruct (decide (getNextPosition current d = k)) as [<- | Hne].
    + rewrite lookup_insert_eq. intros [= <-]. by apply is_Some_insert.
    + rewrite lookup_insert_ne by done. intros Hk. by apply is_Some_insert, (Hclosed k).
Qed.

Lemma expand_closed current st :
  is_Some (cameFrom st !! current) -> closedState st ->
  closedState (expand maze goal current st).
Proof.
  unfold expand. generalize directions as ds. intros ds. revert st.
  induction ds as [| d ds IH]; intros st Hcur Hst; [done |].
  rewrite fold_left_cons. apply IH; [by apply visitNeighbor_keeps |].
  by apply visitNeighbor_closed.
Qed.

Lemma searchLoop_closed fuel st cf current :
  closedState st -> searchLoop fuel maze goal st = Some (GoalReached cf current) ->
  is_Some (cf !! current) /\ cameFromClosed cf.
Proof.
  revert st. induction fuel as [| fuel IH]; intros st Hst Hrun; cbn in Hrun; [done |].
  destruct (openSet st) as [| first rest] eqn:Hopen; [done |].
  pose proof (lowestFrom_elem (fScore st) first 0%nat 1%nat rest) as Hin.
  destruct (lowestFrom (fScore st) first 0 1 rest) as [cur idx] eqn:Hlow. cbn in Hin.
  assert (is_Some (cameFrom st !! cur)) as Hcur.
  { destruct Hst as [Ho _]. apply Ho. by rewrite Hopen. }
  destruct ((cur.1 =? goal.1) && (cur.2 =? goal.2)).
  - injection Hrun as <- <-. split; [done | apply Hst].
  - apply IH in Hrun; [done |]. apply expand_closed; [done |].
    destruct Hst as [Ho Hc]. split; [| done]. cbn [openSet cameFrom].
    intros p Hp. apply Ho. rewrite <- Hopen in Hp. by apply splice1_subset in Hp.
Qed.

(** Following a closed [cameFrom] map never ends. *)
Lemma reconstructPath_closed fuel cf current path :
  cameFromClosed cf -> is_Some (cf !! current) ->
  reconstructPath fuel cf current path = None.
Proof.
  intros Hclosed. revert current path.
  induction fuel as [| fuel IH]; intros current path [prev Hprev]; cbn; rewrite Hprev;
    [done |].
  apply IH. by apply (Hclosed current).
Qed.

Lemma searchLoop_step fuel st :
  searchLoop (S fuel) maze goal st
  = match openSet st with
    | [] => Some OpenSetEmpty
    | first :: rest =>
        let '(current, currentIndex) := lowestFrom (fScore st) first 0 1 rest in
        if (current.1 =? goal.1) && (current.2 =? goal.2)
        then Some (GoalReached (cameFrom st) current)
        else
          searchLoop fuel maze goal
            (expand maze goal current
               {| openSet := splice1 (openSet st) currentIndex;
                  cameFrom := cameFrom st;
                  gScore := gScore st;
                  fScore := fScore st |})
    end.
Proof. reflexivity. Qed.

Lemma aroundStart_beforeExpand :
  aroundStart {| openSet := splice1 (openSet (initialState start goal)) 0;
                 cameFrom := cameFrom (initialState start goal);
                 gScore := gScore (initialState start goal);
                 fScore := fScore (initialState start goal) |}.
Proof.
  split; [| split]; cbn.
  - intros p Hp. by apply elem_of_nil in Hp.
  - intros k v Hk. by rewrite lookup_empty in Hk.
  - apply lookup_singleton_eq.
Qed.

Lemma aroundStart_no_start_entry st : aroundStart st -> cameFrom st !! start = None.
Proof.
  intros (_ & Hcame & _). destruct (cameFrom st !! start) as [v |] eqn:Hs; [| done].
  destruct (Hcame start v Hs) as (_ & d & Hd & Heq).
  symmetry in Heq. by apply neighbor_not_self in Heq.
Qed.

Lemma opposite_neighbor p d :
  d ∈ directions ->
  exists d', d' ∈ directions /\ getNextPosition (getNextPosition p d) d' = p.
Proof.
  intros Hd. destruct p as [px py].
  destruct d; [exists DOWN | exists UP | exists RIGHT | exists LEFT |].
  1-4: split; [unfold directions;
               repeat (first [by apply list_elem_of_here | apply list_elem_of_further])
              | cbn; f_equal; lia].
  exfalso. unfold directions in Hd.
  repeat (apply elem_of_cons in Hd as [Hd | Hd]; [discriminate |]).
  by apply elem_of_nil in Hd.
Qed.

(** With a valid start, the pathfinder answers with the empty path, with
    the start alone, or with the start and a goal next to it; it gives no
    other answer, however many iterations it is allowed. *)
Theorem findPathAStar_short_paths fuel path :
  findPathAStar fuel start goal maze = Some path ->
  path = [] \/ path = [start] \/ path = [start; goal].
Proof.
  unfold findPathAStar. destruct fuel as [| fuel1]; [done |].
  rewrite searchLoop_step. cbn [initialState openSet lowestFrom fScore cameFrom].
  destruct ((start.1 =? goal.1) && (start.2 =? goal.2)) eqn:Hgoal.
  { cbn [reconstructPath]. rewrite lookup_empty. intros [= <-]. right. by left. }
  pose proof (expand_around _ aroundStart_beforeExpand) as Hst1.
  set (st1 := expand maze goal start _) in *.
  destruct fuel1 as [| fuel2]; [done |]. rewrite searchLoop_step.
  destruct (openSet st1) as [| first rest] eqn:Hopen.
  { intros [= <-]. by left. }
  pose proof (lowestFrom_elem (fScore st1) first 0%nat 1%nat rest) as Hin.
  destruct (lowestFrom (fScore st1) first 0 1 rest) as [cur idx] eqn:Hlow. cbn in Hin.
  rewrite <- Hopen in Hin.
  destruct Hst1 as (Hopen1 & Hcame1 & Hg1).
  destruct (Hopen1 cur Hin) as [v Hv].
  destruct (Hcame1 cur v Hv) as (-> & d & Hd & Hcur).
  destruct ((cur.1 =? goal.1) && (cur.2 =? goal.2)) eqn:Hcurgoal.
  - apply andb_true_iff in Hcurgoal as [H1 H2]. apply Z.eqb_eq in H1, H2.
    assert (cur = goal) as Heq by (destruct cur, goal; cbn in *; congruence).
    cbn [reconstructPath]. rewrite Hv.
    rewrite (aroundStart_no_start_entry st1) by (by split; [| split]).
    rewrite Heq. intros [= <-]. right. by right.
  - set (st2 := expand maze goal cur _).
    assert (closedState st2) as Hclosed.
    { assert (is_Some (cameFrom st1 !! cur)) as Hsome by eauto.
      destruct (opposite_neighbor start d Hd) as (d' & Hd' & Hback).
      rewrite <- Hcur in Hback.
      destruct (fold_visit_pending cur directions
                  {| openSet := splice1 (first :: rest) idx; cameFrom := cameFrom st1;
                     gScore := gScore st1; fScore := fScore st1 |})
        as ((Hopen2 & Hcame2 & _) & Hfound & _).
      - exact Hsome.
      - split; [| split]; cbn [openSet cameFrom gScore].
        + intros p Hp. apply Hopen1. rewrite Hopen. by apply splice1_subset in Hp.
        + intros k w Hk. left. by destruct (Hcame1 k w Hk).
        + by left.
      - fold (expand maze goal cur
                {| openSet := splice1 (first :: rest) idx; cameFrom := cameFrom st1;
                   gScore := gScore st1; fScore := fScore st1 |}) in *.
        fold st2 in Hopen2, Hcame2, Hfound.
        assert (is_Some (cameFrom st2 !! start)) as Hstart by (apply Hfound; eauto).
        split; [done |]. intros k w Hk.
        destruct (Hcame2 k w Hk) as [-> | Hw]; done. }
    destruct (searchLoop fuel2 maze goal st2) as [[cf current |] |] eqn:Hsearch; [| | done].
    + destruct (searchLoop_closed _ _ _ _ Hclosed Hsearch) as [Hsome Hcf].
      by rewrite (reconstructPath_closed _ cf current [current] Hcf Hsome).
    + intros [= <-]. by left.
Qed.

End PathExtent.

(** In a rectangular maze a valid position is a cell of the grid that is not
    a wall. *)
Lemma isValidPosition_cell (maze : Maze) (p : AStar.GridPos) :
  Forall (fun row => Z.of_nat (length row) = AStar.rowLength maze) maze ->
  AStar.isValidPosition p maze = true ->
  0 <= p.1 < AStar.rowLength maze
  /\ 0 <= p.2 < Z.of_nat (length maze)
  /\ exists c, cellAt maze p.1 p.2 = Some c /\ c <> WALL.
Proof.
  intros Hrect. unfold AStar.isValidPosition, cellAt.
  destruct (Z.ltb_spec p.2 0), (Z.geb_spec p.2 (Z.of_nat (length maze)));
    cbn [orb]; try done.
  destruct (Z.ltb_spec p.1 0), (Z.geb_spec p.1 (AStar.rowLength maze));
    cbn [orb]; try done.
  destruct (nth_error maze (Z.to_nat p.2)) as [row |] eqn:Hrow.
  2: { apply nth_error_None in Hrow. lia. }
  assert (Z.of_nat (length row) = AStar.rowLength maze) as Hlen.
  { rewrite Forall_forall in Hrect. apply Hrect, list_elem_of_In. by eapply nth_error_In. }
  destruct (nth_error row (Z.to_nat p.1)) as [c |] eqn:Hcell.
  2: { apply nth_error_None in Hcell. lia. }
  intros Hwall. split; [lia | split; [lia |]]. exists c. split; [done |].
  intros ->. discriminate.
Qed.

(** ** The pattern learner *)

Section Learner.

Import JSNum AIEngine.

Lemma updatePatternWeights_empty s :
  playerPatterns s = [] ->
  updatePatternWeights s
  = {| playerPatterns := []; patternWeights := nanWeights; learningLevel := learningLevel s |}.
Proof. destruct s as [pp w ll]. cbn [playerPatterns]. intros ->. reflexivity. Qed.

Lemma updateLearningLevel_nan pp ll :
  updateLearningLevel {| playerPatterns := pp; patternWeights := nanWeights; learningLevel := ll |}
  = {| playerPatterns := pp; patternWeights := nanWeights; learningLevel := ll |}.
Proof. reflexivity. Qed.

(** Whatever is pushed on an empty window is shifted out at once: the
    length [1] exceeds [PATTERN_THRESHOLD = 0.6]. *)
Lemma recordPlayerMovement_empty dir s :
  playerPatterns s = [] ->
  recordPlayerMovement dir s
  = {| playerPatterns := []; patternWeights := nanWeights; learningLevel := learningLevel s |}.
Proof.
  intros Hpp. unfold recordPlayerMovement. rewrite Hpp. cbn [app length tail].
  change (gtb _ _) with true. cbv iota.
  rewrite updatePatternWeights_empty by reflexivity. apply updateLearningLevel_nan.
Qed.

Lemma recordAll_cons dir dirs s :
  recordAll (dir :: dirs) s = recordAll dirs (recordPlayerMovement dir s).
Proof. exact (fold_left_cons _ dir dirs s). Qed.

Lemma recordAll_empty dirs s :
  playerPatterns s = [] ->
  playerPatterns (recordAll dirs s) = []
  /\ learningLevel (recordAll dirs s) = learningLevel s.
Proof.
  revert s. induction dirs as [| dir dirs IH]; intros s Hpp; [done |].
  rewrite recordAll_cons, (recordPlayerMovement_empty dir s Hpp).
  apply (IH {| playerPatterns := []; patternWeights := nanWeights;
               learningLevel := learningLevel s |}). reflexivity.
Qed.


Lemma updateLearningLevel_level s :
  learningLevel (updateLearningLevel s)
  = let consistency := sub (maxOf (values (patternWeights s))) (Fin (1 # 4)) in
    if gtb consistency (Fin 0)
    then min (add (learningLevel s) (mul consistency (Fin AI_CONFIG.LEARNING_RATE)))
             (Fin AI_CONFIG.MAX_LEARNING_LEVEL)
    else learningLevel s.
Proof. unfold updateLearningLevel. cbv zeta. by destruct (gtb _ _). Qed.

End Learner.

(** C7, on the code: the window is compared with [AI_CONFIG.PATTERN_THRESHOLD],
    which is [0.6], so after one call on a new engine the pattern memory is
    empty, where the specification has the recorded direction in it, and it
    is empty after every sequence of calls. *)
Theorem playerPatterns_never_kept :
  AIEngine.playerPatterns (recordAll [UP] AIEngine.create) = []
  /\ specPatternMemory [UP] = [UP]
  /\ forall dirs, AIEngine.playerPatterns (recordAll dirs AIEngine.create) = [].
Proof.
  split; [reflexivity | split; [reflexivity |]].
  intros dirs. by apply recordAll_empty.
Qed.


(** ** The learning level over a session *)

Section Session.

Import GameEngine.






End Session.

(** For any weights, [updateLearningLevel] does not lower a level that is
    within the maximum, and keeps it within the maximum. *)
Lemma updateLearningLevel_monotone (s : AIEngine.t) (q : Q) :
  AIEngine.learningLevel s = JSNum.Fin q ->
  (q <= AI_CONFIG.MAX_LEARNING_LEVEL)%Q ->
  JSNum.le (AIEngine.learningLevel s) (AIEngine.learningLevel (AIEngine.updateLearningLevel s))
  /\ JSNum.le (AIEngine.learningLevel (AIEngine.updateLearningLevel s))
       (JSNum.Fin AI_CONFIG.MAX_LEARNING_LEVEL).
Proof.
  intros Hq Hmax. rewrite updateLearningLevel_level. cbv zeta. rewrite Hq.
  destruct (JSNum.sub _ _) as [| | | c] eqn:Hc.
  - split; [apply Qle_refl | exact Hmax].
  - split; [exact Hmax | apply Qle_refl].
  - split; [apply Qle_refl | exact Hmax].
  - unfold JSNum.gtb. destruct (Qle_bool c 0) eqn:Hc0.
    { split; [apply Qle_refl | exact Hmax]. }
    assert (0 < c)%Q as Hpos.
    { apply Qnot_le_lt. intros Hle. apply Qle_bool_iff in Hle. congruence. }
    assert (q <= q + c * AI_CONFIG.LEARNING_RATE)%Q as Hup.
    { rewrite <- (Qplus_0_r q) at 1. apply Qplus_le_r.
      apply Qmult_le_0_compat; [by apply Qlt_le_weak | done]. }
    change (JSNum.min _ _)
      with (if negb (Qle_bool (q + c * AI_CONFIG.LEARNING_RATE) AI_CONFIG.MAX_LEARNING_LEVEL)
            then JSNum.Fin AI_CONFIG.MAX_LEARNING_LEVEL
            else JSNum.Fin (q + c * AI_CONFIG.LEARNING_RATE)).
    destruct (Qle_bool (q + c * AI_CONFIG.LEARNING_RATE) AI_CONFIG.MAX_LEARNING_LEVEL)
      eqn:Hcap.
    + split; [exact Hup | by apply Qle_bool_iff].
    + split; [exact Hmax | apply Qle_refl].
Qed.




(** ** Captures of frightened ghosts *)

Section Captures.

Import GameEngine.

Lemma collideWithGhost_capture gridX gridY e seen ghost :
  capturable gridX gridY ghost ->
  collideWithGhost gridX gridY (e, seen) ghost
  = (set_gameState
       (set_screenShake true
          (set_ghostEatenCount (ghostEatenCount (gameState e) + 1)
             (set_score
                (score (gameState e)
                 + GAME_CONFIG.POINTS_GHOST_BASE * 2 ^ ghostEatenCount (gameState e))
                (gameState e))))
       e,
     set_state EATEN ghost :: seen).
Proof.
  intros [Hstate Hnear]. unfold collideWithGhost.
  rewrite (proj2 (Z.ltb_lt _ _) Hnear), Hstate. reflexivity.
Qed.

(** [n] captures in a row, from a count of [c]. *)
Lemma collideWithGhost_captures gridX gridY others e seen :
  Forall (capturable gridX gridY) others ->
  0 <= ghostEatenCount (gameState e) ->
  let e' := (fold_left (collideWithGhost gridX gridY) others (e, seen)).1 in
  score (gameState e')
  = score (gameState e)
    + GAME_CONFIG.POINTS_GHOST_BASE * 2 ^ ghostEatenCount (gameState e)
      * (2 ^ Z.of_nat (length others) - 1)
  /\ ghostEatenCount (gameState e')
     = ghostEatenCount (gameState e) + Z.of_nat (length others).
Proof.
  intros Hall. revert e seen.
  induction Hall as [| ghost others Hghost _ IH]; intros e seen Hcount; cbv zeta.
  - cbn [fold_left length fst]. split; lia.
  - rewrite fold_left_cons, (collideWithGhost_capture _ _ _ _ _ Hghost).
    set (e1 := set_gameState _ e).
    assert (score (gameState e1)
            = score (gameState e)
              + GAME_CONFIG.POINTS_GHOST_BASE * 2 ^ ghostEatenCount (gameState e))
      as Hscore by reflexivity.
    assert (ghostEatenCount (gameState e1) = ghostEatenCount (gameState e) + 1)
      as Hc1 by reflexivity.
    destruct (IH e1 (set_state EATEN ghost :: seen)) as [IHs IHc]; [lia |].
    rewrite IHs, IHc, Hscore, Hc1.
    rewrite Z.pow_add_r by lia.
    change (length (ghost :: others)) with (S (length others)).
    rewrite Nat2Z.inj_succ, Z.pow_succ_r by lia. split; lia.
Qed.

Lemma activatePowerPellet_fields gs :
  ghostEatenCount (activatePowerPellet gs) = 0
  /\ score (activatePowerPellet gs) = score gs.
Proof. split; reflexivity. Qed.

End Captures.

(** C3. Capturing a frightened ghost awards [POINTS_GHOST_BASE] times two to
    the power of the capture counter and increments the counter;
    [activatePowerPellet] resets the counter to zero, so that the captures
    that follow an activation award base, 2 base, 4 base, ...: after [n] of
    them the score has grown by [base * (2^n - 1)] and the counter is [n]. *)
Theorem ghost_capture_score (e : GameEngine.t) (gridX gridY : Z) (seen : list Ghost)
    (ghost : Ghost) (others : list Ghost) :
  capturable gridX gridY ghost ->
  Forall (capturable gridX gridY) others ->
  let captured := (GameEngine.collideWithGhost gridX gridY (e, seen) ghost).1 in
  let activated :=
    GameEngine.set_gameState (GameEngine.activatePowerPellet (GameEngine.gameState e)) e in
  let afterAll :=
    (fold_left (GameEngine.collideWithGhost gridX gridY) others (activated, [])).1 in
  GameEngine.score (GameEngine.gameState captured)
  = GameEngine.score (GameEngine.gameState e)
    + GAME_CONFIG.POINTS_GHOST_BASE * 2 ^ GameEngine.ghostEatenCount (GameEngine.gameState e)
  /\ GameEngine.ghostEatenCount (GameEngine.gameState captured)
     = GameEngine.ghostEatenCount (GameEngine.gameState e) + 1
  /\ GameEngine.ghostEatenCount (GameEngine.gameState activated) = 0
  /\ GameEngine.score (GameEngine.gameState afterAll)
     = GameEngine.score (GameEngine.gameState e)
       + GAME_CONFIG.POINTS_GHOST_BASE * (2 ^ Z.of_nat (length others) - 1)
  /\ GameEngine.ghostEatenCount (GameEngine.gameState afterAll) = Z.of_nat (length others).
Proof.
  intros Hghost Hothers. cbv zeta.
  rewrite (collideWithGhost_capture _ _ _ _ _ Hghost).
  split; [reflexivity | split; [reflexivity | split; [reflexivity |]]].
  set (activated := GameEngine.set_gameState _ e).
  destruct (collideWithGhost_captures gridX gridY others activated [] Hothers) as [Hs Hc].
  { by cbn. }
  rewrite Hs, Hc.
  change (GameEngine.ghostEatenCount (GameEngine.gameState activated)) with 0.
  change (GameEngine.score (GameEngine.gameState activated))
    with (GameEngine.score (GameEngine.gameState e)).
  split; lia.
Qed.

Lemma ghost_capture_score_witness :
  let e := engine0 in
  let ghost := frightenedGhost BLINKY in
  let others := [frightenedGhost PINKY; frightenedGhost INKY; frightenedGhost CLYDE] in
  let captured := (GameEngine.collideWithGhost 9 15 (e, []) ghost).1 in
  let activated :=
    GameEngine.set_gameState (GameEngine.activatePowerPellet (GameEngine.gameState e)) e in
  let afterAll := (fold_left (GameEngine.collideWithGhost 9 15) others (activated, [])).1 in
  GameEngine.score (GameEngine.gameState captured)
  = GameEngine.score (GameEngine.gameState e)
    + GAME_CONFIG.POINTS_GHOST_BASE * 2 ^ GameEngine.ghostEatenCount (GameEngine.gameState e)
  /\ GameEngine.ghostEatenCount (GameEngine.gameState captured)
     = GameEngine.ghostEatenCount (GameEngine.gameState e) + 1
  /\ GameEngine.ghostEatenCount (GameEngine.gameState activated) = 0
  /\ GameEngine.score (GameEngine.gameState afterAll)
     = GameEngine.score (GameEngine.gameState e)
       + GAME_CONFIG.POINTS_GHOST_BASE * (2 ^ Z.of_nat (length others) - 1)
  /\ GameEngine.ghostEatenCount (GameEngine.gameState afterAll) = Z.of_nat (length others).
Proof.
  assert (forall type, capturable 9 15 (frightenedGhost type)) as Hcap.
  { intros type. split; [reflexivity |]. vm_compute. reflexivity. }
  apply (ghost_capture_score engine0 9 15 [] (frightenedGhost BLINKY)
           [frightenedGhost PINKY; frightenedGhost INKY; frightenedGhost CLYDE]).
  - apply Hcap.
  - repeat constructor; apply Hcap.
Defined.

(** The four captures of one activation award 200, 400, 800 and 1600. *)
Example four_captures_score :
  GameEngine.score
    (GameEngine.gameState
       (fold_left (GameEngine.collideWithGhost 9 15)
          [frightenedGhost BLINKY; frightenedGhost PINKY; frightenedGhost INKY;
           frightenedGhost CLYDE]
          (engine0, [])).1)
  = 200 + 400 + 800 + 1600.
Proof. vm_compute. reflexivity. Qed.

(** ** The danger field *)

Section Danger.

Import AIEngine.

Lemma addDanger_spec pos acc ghost :
  addDanger pos acc ghost
  = if threatening ghost && withinRadius pos ghost
    then (acc + contribution pos ghost)%Q
    else acc.
Proof.
  unfold addDanger, threatening, withinRadius, contribution.
  by destruct (state ghost).
Qed.

Lemma fold_addDanger pos ghosts acc :
  (fold_left (addDanger pos) ghosts acc == acc + dangerSum pos ghosts)%Q.
Proof.
  revert acc. induction ghosts as [| ghost ghosts IH]; intros acc.
  - cbn [fold_left dangerSum]. ring.
  - rewrite fold_left_cons, IH, addDanger_spec. cbn [dangerSum].
    destruct (threatening ghost && withinRadius pos ghost); ring.
Qed.

Lemma contribution_nonneg pos ghost :
  withinRadius pos ghost = true -> (0 <= contribution pos ghost)%Q.
Proof.
  unfold withinRadius, contribution. intros Hin. apply Qle_bool_iff in Hin.
  apply Qle_shift_div_l; [reflexivity |].
  rewrite Qmult_0_l. by apply -> Qle_minus_iff.
Qed.

Lemma dangerSum_nonneg pos ghosts : (0 <= dangerSum pos ghosts)%Q.
Proof.
  induction ghosts as [| ghost ghosts IH]; cbn [dangerSum]; [apply Qle_refl |].
  destruct (threatening ghost) eqn:Ht, (withinRadius pos ghost) eqn:Hin; cbn [andb];
    try done.
  rewrite <- (Qplus_0_r 0). apply Qplus_le_compat; [by apply contribution_nonneg | done].
Qed.

Lemma dangerSum_far pos ghosts :
  (forall ghost, In ghost ghosts -> threatening ghost = true ->
     (AI_CONFIG.DANGER_RADIUS < manhattanDistance pos (position ghost))%Q) ->
  dangerSum pos ghosts = 0%Q.
Proof.
  induction ghosts as [| ghost ghosts IH]; intros Hfar; cbn [dangerSum]; [done |].
  rewrite IH by (intros g Hg; apply Hfar; by right).
  destruct (threatening ghost) eqn:Ht; [| done].
  assert (withinRadius pos ghost = false) as ->; [| done].
  apply not_true_is_false. intros Hin. apply Qle_bool_iff in Hin.
  apply (Qlt_not_le _ _ (Hfar ghost (or_introl eq_refl) Ht)), Hin.
Qed.

Lemma Math_min_1_compat a b : (a == b)%Q -> (Math_min a 1 == Math_min b 1)%Q.
Proof. intros Hab. unfold Math_min. rewrite Hab. by destruct (Qle_bool b 1). Qed.

Lemma Math_min_1_bounds a : (0 <= a)%Q -> (0 <= Math_min a 1 <= 1)%Q.
Proof.
  intros Ha. unfold Math_min. destruct (Qle_bool a 1) eqn:Hle.
  - split; [done | by apply Qle_bool_iff].
  - split; done.
Qed.

Lemma clamp01_nonneg a : (0 <= a)%Q -> (clamp01 a == Math_min a 1)%Q.
Proof.
  intros Ha. unfold clamp01, Math_max.
  destruct (Math_min_1_bounds a Ha) as [Hlo _].
  apply Qle_bool_iff in Hlo. by rewrite Hlo.
Qed.

Lemma calculateDangerLevel_spec pos ghosts :
  (calculateDangerLevel pos ghosts == clamp01 (dangerSum pos ghosts))%Q.
Proof.
  unfold calculateDangerLevel.
  rewrite (clamp01_nonneg _ (dangerSum_nonneg pos ghosts)).
  apply Math_min_1_compat. rewrite fold_addDanger. ring.
Qed.


End Danger.



(** The cell of a chasing ghost has danger 1, a wall has the sentinel and a
    cell four steps away has danger 0. *)
Example dangerHeatmap_values :
  (Qred <$> heatAt (AIEngine.generateDangerHeatmap [blinkyAt11] MAZE_LAYOUT) 1 1) = Some 1%Q
  /\ heatAt (AIEngine.generateDangerHeatmap [blinkyAt11] MAZE_LAYOUT) 0 0 = Some wallSentinel
  /\ (Qred <$> heatAt (AIEngine.generateDangerHeatmap [blinkyAt11] MAZE_LAYOUT) 5 1) = Some 0%Q.
Proof. vm_compute. repeat split. Qed.

(** ** Ghost movement *)

Section GhostMovement.

Import GameEngine.

Lemma towardTarget_elem gridPos target dirs acc :
  In (fold_left (towardTarget gridPos target) dirs acc).1 (acc.1 :: dirs).
Proof.
  revert acc. induction dirs as [| dir dirs IH]; intros acc.
  - by left.
  - rewrite fold_left_cons. specialize (IH (towardTarget gridPos target acc dir)).
    assert ((towardTarget gridPos target acc dir).1 = dir
            \/ (towardTarget gridPos target acc dir).1 = acc.1) as Hstep.
    { unfold towardTarget. destruct (closer _ _); [by left | by right]. }
    destruct IH as [Heq | IH]; [| by do 2 right].
    rewrite <- Heq. destruct Hstep as [-> | ->]; [right; by left | by left].
Qed.

(** What [updateGhostMovement] does outside the house and outside
    [FRIGHTENED]. *)
Lemma updateGhostMovement_chase e rnd ghost :
  state ghost <> IN_HOUSE -> state ghost <> FRIGHTENED ->
  match allowedDirections (maze (gameState e)) ghost with
  | [] => updateGhostMovement e rnd ghost = ghost
  | first :: rest =>
      let target := (toGrid (posX (targetPosition ghost)),
                     toGrid (posY (targetPosition ghost))) in
      let best :=
        (fold_left (towardTarget (ghostGridPos ghost) target) (first :: rest)
           (first, None)).1 in
      direction (updateGhostMovement e rnd ghost) = best
      /\ lastDirection (updateGhostMovement e rnd ghost) = direction ghost
  end.
Proof.
  intros Hhouse Hfright. unfold updateGhostMovement.
  rewrite (bool_decide_eq_false_2 _ Hhouse).
  destruct (allowedDirections (maze (gameState e)) ghost) as [| first rest]; [done |].
  rewrite (bool_decide_eq_false_2 _ Hfright). cbv zeta.
  destruct (isValidMove _ _); by split.
Qed.

Lemma getOppositeDirection_involutive dir :
  getOppositeDirection (getOppositeDirection dir) = dir.
Proof. by destruct dir. Qed.

End GhostMovement.

(** C2, as far as the code does it by design. A ghost in CHASE or SCATTER
    that has kept its direction through its previous update does not take
    the reverse of that direction: when some walkable direction is not the
    reverse, the direction taken is walkable and is not the reverse; when
    every walkable direction is the reverse, the constraint is not relaxed
    and the ghost is left as it was, so that it does not move. The update
    right after a turn is left open here. *)
Theorem no_reversal_not_relaxed (e : GameEngine.t) (rnd : Q) (ghost : Ghost) :
  state ghost = CHASE \/ state ghost = SCATTER ->
  lastDirection ghost = direction ghost ->
  let possible :=
    GameEngine.getPossibleDirections (GameEngine.maze (GameEngine.gameState e))
      (GameEngine.ghostGridPos ghost) in
  let reverse := GameEngine.getOppositeDirection (direction ghost) in
  let moved := GameEngine.updateGhostMovement e rnd ghost in
  ((exists d, In d possible /\ d <> reverse) ->
   In (direction moved) possible /\ direction moved <> reverse)
  /\ ((forall d, In d possible -> d = reverse) -> moved = ghost).
Proof.
  intros Hstate Hkept. cbv zeta.
  assert (state ghost <> IN_HOUSE /\ state ghost <> FRIGHTENED) as [Hhouse Hfright]
    by (destruct Hstate as [-> | ->]; split; discriminate).
  pose proof (updateGhostMovement_chase e rnd ghost Hhouse Hfright) as Hmove.
  assert (forall d,
            In d (GameEngine.allowedDirections (GameEngine.maze (GameEngine.gameState e)) ghost)
            <-> In d (GameEngine.getPossibleDirections
                        (GameEngine.maze (GameEngine.gameState e))
                        (GameEngine.ghostGridPos ghost))
                /\ d <> GameEngine.getOppositeDirection (direction ghost)) as Hallowed.
  { intros d. unfold GameEngine.allowedDirections. rewrite filter_In.
    rewrite (bool_decide_eq_false_2 _ Hfright), Hkept.
    split; intros [Hin Hkeep]; (split; [exact Hin |]).
    - apply negb_true_iff, bool_decide_eq_false in Hkeep. intros ->.
      apply Hkeep, getOppositeDirection_involutive.
    - apply negb_true_iff, bool_decide_eq_false. intros Hrev. apply Hkeep.
      by rewrite <- Hrev, getOppositeDirection_involutive. }
  destruct (GameEngine.allowedDirections _ ghost) as [| first rest] eqn:Hlist.
  - split.
    + intros (d & Hin & Hne). by destruct (proj2 (Hallowed d) (conj Hin Hne)).
    + intros _. exact Hmove.
  - cbv zeta in Hmove. destruct Hmove as [Hdir _]. rewrite Hdir.
    pose proof (towardTarget_elem (GameEngine.ghostGridPos ghost)
                  (GameEngine.toGrid (posX (targetPosition ghost)),
                   GameEngine.toGrid (posY (targetPosition ghost)))
                  (first :: rest) (first, None)) as Hin.
    set (best := (fold_left _ (first :: rest) (first, None)).1) in *.
    assert (In best (first :: rest)) as Hbest
      by (destruct Hin as [<- | Hin]; [by left | done]).
    apply Hallowed in Hbest as [Hwalk Hrev].
    split; [by intros _ |].
    intros Hall. destruct (proj1 (Hallowed first) (or_introl eq_refl)) as [Hfirst Hne].
    by destruct (Hne (Hall first Hfirst)).
Qed.

Lemma no_reversal_not_relaxed_witness :
  ((exists d,
      In d (GameEngine.getPossibleDirections (GameEngine.maze (GameEngine.gameState engine0))
              (GameEngine.ghostGridPos passingGhost))
      /\ d <> GameEngine.getOppositeDirection (direction passingGhost)) ->
   In (direction (GameEngine.updateGhostMovement engine0 0 passingGhost))
      (GameEngine.getPossibleDirections (GameEngine.maze (GameEngine.gameState engine0))
         (GameEngine.ghostGridPos passingGhost))
   /\ direction (GameEngine.updateGhostMovement engine0 0 passingGhost)
      <> GameEngine.getOppositeDirection (direction passingGhost))
  /\ ((forall d,
         In d (GameEngine.getPossibleDirections
                 (GameEngine.maze (GameEngine.gameState engine0))
                 (GameEngine.ghostGridPos passingGhost)) ->
         d = GameEngine.getOppositeDirection (direction passingGhost)) ->
      GameEngine.updateGhostMovement engine0 0 passingGhost = passingGhost).
Proof.
  apply (no_reversal_not_relaxed engine0 0 passingGhost).
  - left. reflexivity.
  - reflexivity.
Defined.

(** C2, as stated, fails in the mouth of the tunnel: the chasing ghost,
    moving left as in its previous update, has a walkable neighbour (to its
    right), the only one, which the filter removes; the filter is not
    relaxed and the ghost stays where it is. *)
Lemma ghost_stuck_in_tunnel_mouth :
  state tunnelGhost = CHASE
  /\ GameEngine.getPossibleDirections (GameEngine.maze (GameEngine.gameState engine0))
       (GameEngine.ghostGridPos tunnelGhost) = [RIGHT]
  /\ GameEngine.allowedDirections (GameEngine.maze (GameEngine.gameState engine0)) tunnelGhost
     = []
  /\ GameEngine.updateGhostMovement engine0 0 tunnelGhost = tunnelGhost
  /\ position (GameEngine.updateGhostMovement engine0 0 tunnelGhost) = position tunnelGhost.
Proof. vm_compute. repeat split. Qed.

(** Right after a turn the reversal is not barred: the stored
    [lastDirection] is the direction held before the last update, not the
    direction last moved in. At a crossing, a ghost that has just turned
    left (after moving up) turns right, the reverse of its last move,
    although two other walkable directions pass the filter: the source's
    comment on the filter is "can't reverse unless frightened". *)
Example ghost_reverses_last_move :
  direction crossingGhost = LEFT
  /\ GameEngine.allowedDirections (GameEngine.maze (GameEngine.gameState engine0)) crossingGhost
     = [UP; LEFT; RIGHT]
  /\ direction (GameEngine.updateGhostMovement engine0 0 crossingGhost) = RIGHT.
Proof. vm_compute. repeat split. Qed.

(** ** Targets in SCATTER *)




(** ** The tunnel *)

Section Tunnel.

Import GameEngine.

(** An entity in a valid column that advances by at most half a cell does
    not reach the pixel bound [MAZE_WIDTH * CELL_SIZE], the only place
    where the wraparound to [x = 0] is done. *)
Lemma wrapTunnel_right_unreachable (px v : Q) :
  toGrid px < GAME_CONFIG.MAZE_WIDTH ->
  (v <= 12)%Q ->
  Qle_bool (inject_Z (GAME_CONFIG.MAZE_WIDTH * GAME_CONFIG.CELL_SIZE)) (px + v) = false.
Proof.
  intros Hcol Hv. apply not_true_is_false. intros Hle. apply Qle_bool_iff in Hle.
  unfold toGrid, Math_round in Hcol.
  pose proof (Qlt_floor (px / cellSize + (1 # 2))) as Hfloor.
  assert (inject_Z (Qfloor (px / cellSize + (1 # 2)) + 1) <= inject_Z GAME_CONFIG.MAZE_WIDTH)%Q
    as Hbound by (rewrite <- Zle_Qle; lia).
  assert (px / cellSize + (1 # 2) < inject_Z GAME_CONFIG.MAZE_WIDTH)%Q as Hlt
    by (eapply Qlt_le_trans; eauto).
  assert (px < 444)%Q as Hpx.
  { assert (px == px / cellSize * cellSize)%Q as -> by (field; discriminate).
    assert (444 == (inject_Z GAME_CONFIG.MAZE_WIDTH - (1 # 2)) * cellSize)%Q as ->
      by reflexivity.
    apply Qmult_lt_compat_r; [reflexivity |].
    apply (Qplus_lt_l _ _ (1 # 2)). eapply Qlt_le_trans; [exact Hlt |].
    apply Qle_lteq; right. ring. }
  assert (px + v < 444 + 12)%Q as Hsum by (by apply Qplus_lt_le_compat).
  apply (Qlt_not_le _ _ Hsum), Hle.
Qed.

End Tunnel.

(** C9, on the code. Pac-Man two pixels left of the place where its grid
    column becomes [MAZE_WIDTH], moving right along the tunnel row: the next
    x, 444, is in grid column 19 = [MAZE_WIDTH], the wraparound leaves it as
    it is, the validity check fails and Pac-Man stops, although the cell
    [(0, 9)] it should reach is walkable; to the left the wraparound is done:
    from x = 0 Pac-Man arrives at x = 432, column [MAZE_WIDTH - 1], on the
    same row. *)
Theorem tunnel_right_wrap_missed :
  GameEngine.toGrid (442 + 2) = GAME_CONFIG.MAZE_WIDTH
  /\ GameEngine.wrapTunnel (442 + 2) = (442 + 2)%Q
  /\ GameEngine.isValidMove MAZE_LAYOUT (0, 9) = true
  /\ pacDirection (GameEngine.pacman (GameEngine.gameState
                     (GameEngine.updatePacMan (tunnelEngine 442 RIGHT) NONE))) = NONE
  /\ pacPosition (GameEngine.pacman (GameEngine.gameState
                    (GameEngine.updatePacMan (tunnelEngine 442 RIGHT) NONE)))
     = {| posX := 442; posY := 216 |}
  /\ pacPosition (GameEngine.pacman (GameEngine.gameState
                    (GameEngine.updatePacMan (tunnelEngine 0 LEFT) NONE)))
     = {| posX := 432; posY := 216 |}.
Proof. vm_compute. repeat split. Qed.

(** A ghost is never sent through the tunnel either: in the two mouths the
    only walkable neighbour is the one inside the maze. *)
Example tunnel_mouths_closed_for_ghosts :
  GameEngine.getPossibleDirections MAZE_LAYOUT (0, 9) = [RIGHT]
  /\ GameEngine.getPossibleDirections MAZE_LAYOUT (18, 9) = [LEFT].
Proof. vm_compute. repeat split. Qed.

(** * Further properties *)

(** ** The pathfinder: what it does answer *)

(** X4. [isValidPosition_cell] at a concrete input. *)
Lemma isValidPosition_cell_witness :
  0 <= (1, 0).1 < AStar.rowLength corridor3
  /\ 0 <= (1, 0).2 < Z.of_nat (length corridor3)
  /\ exists c, cellAt corridor3 (1, 0).1 (1, 0).2 = Some c /\ c <> WALL.
Proof.
  apply (isValidPosition_cell corridor3 (1, 0)).
  - repeat constructor.
  - reflexivity.
Defined.

Section PathAnswers.

Import AStar.

Variables (maze : Maze) (start goal : GridPos).

Lemma goal_test_false (p : GridPos) : p <> goal -> (p.1 =? goal.1) && (p.2 =? goal.2) = false.
Proof.
  intros Hne. apply not_true_is_false. intros Heq.
  apply andb_true_iff in Heq as [H1 H2]. apply Z.eqb_eq in H1, H2.
  apply Hne. destruct p, goal; cbn in *; congruence.
Qed.

Lemma visitNeighbor_invalid current st d :
  isValidPosition (getNextPosition current d) maze = false ->
  visitNeighbor maze goal current st d = st.
Proof. intros Hinv. unfold visitNeighbor. by rewrite Hinv. Qed.

(** X2. A start with no valid neighbour is answered with the empty path at
    once: the open set is empty after the start has been expanded. *)
Theorem findPathAStar_isolated fuel :
  (forall d, d ∈ directions -> isValidPosition (getNextPosition start d) maze = false) ->
  start <> goal ->
  findPathAStar (S (S fuel)) start goal maze = Some [].
Proof.
  intros Hwalls Hne. unfold findPathAStar.
  rewrite searchLoop_step. cbn [initialState openSet lowestFrom fScore cameFrom gScore].
  rewrite (goal_test_false start Hne).
  unfold expand, directions. cbn [fold_left].
  rewrite !visitNeighbor_invalid; [reflexivity | ..];
    apply Hwalls; unfold directions;
    repeat (first [by apply list_elem_of_here | apply list_elem_of_further]).
Qed.

End PathAnswers.

Lemma findPathAStar_isolated_witness :
  AStar.findPathAStar 2 (216, 216) (9, 15) MAZE_LAYOUT = Some [].
Proof.
  apply (findPathAStar_isolated MAZE_LAYOUT (216, 216) (9, 15) 0).
  - intros d Hd. destruct d; vm_compute; reflexivity.
  - discriminate.
Defined.

(** ** Predicted paths *)

(** X1. From a valid position, the path predicted for a ghost is empty or is
    the target alone. *)
Theorem predictPathToTarget_short fuel (maze : Maze) (ghostPosition target : AStar.GridPos)
    prediction :
  AStar.isValidPosition ghostPosition maze = true ->
  AIEngine.predictPathToTarget fuel ghostPosition target maze = Some prediction ->
  prediction = [] \/ prediction = [target].
Proof.
  intros Hvalid. unfold AIEngine.predictPathToTarget.
  destruct (AStar.findPathAStar fuel ghostPosition target maze) as [path |] eqn:Hpath;
    [| done].
  intros [= <-].
  destruct (findPathAStar_short_paths maze ghostPosition target Hvalid fuel path Hpath)
    as [-> | [-> | ->]]; [by left | by left | by right].
Qed.

Lemma predictPathToTarget_short_witness :
  [(1, 0)] = [] \/ [(1, 0)] = [(1, 0)].
Proof.
  apply (predictPathToTarget_short 5 corridor3 (0, 0) (1, 0)).
  - reflexivity.
  - vm_compute. reflexivity.
Defined.

Section PathAdjacent.

Import AStar.

Variables (maze : Maze) (start goal : GridPos).

Local Abbreviation firstRing := (firstRing start goal).

Lemma inOpenSet_elem l p : inOpenSet l p = true <-> p ∈ l.
Proof.
  unfold inOpenSet. rewrite existsb_exists. split.
  - intros (q & Hq & Heq). apply andb_true_iff in Heq as [H1 H2].
    apply Z.eqb_eq in H1, H2. apply list_elem_of_In in Hq.
    assert (q = p) as <- by (destruct q, p; cbn in *; congruence). done.
  - intros Hp. exists p. split; [by apply list_elem_of_In |].
    by rewrite !Z.eqb_refl.
Qed.

Lemma visitNeighbor_firstRing st d :
  d ∈ directions -> firstRing st ->
  firstRing (visitNeighbor maze goal start st d)
  /\ (isValidPosition (getNextPosition start d) maze = true ->
      is_Some (cameFrom (visitNeighbor maze goal start st d) !! getNextPosition start d)).
Proof.
  intros Hd Hring. pose proof Hring as (Haround & Hopen & Hscores & Hfresh).
  pose proof (visitNeighbor_around maze start goal st d Hd Haround) as Haround'.
  pose proof (neighbor_not_self start d Hd) as Hns.
  destruct Haround as (Hin & Hcame & Hg).
  unfold visitNeighbor in *.
  destruct (isValidPosition (getNextPosition start d) maze) eqn:Hvalid;
    simpl negb in *; cbv iota in *; [| by split].
  rewrite Hg in *. change (orZero (Some 0) + 1) with 1 in *.
  destruct (cameFrom st !! getNextPosition start d) as [v |] eqn:Hentry.
  - destruct (Hscores (getNextPosition start d)) as [Hgs _]; [eauto |].
    rewrite Hgs in *. change (score_ltb _ _) with false in *. cbv iota in *.
    split; [done |]. intros _. rewrite Hentry. eauto.
  - rewrite (Hfresh _ Hentry Hns) in *.
    change (score_ltb _ _) with true in *. cbv iota in *.
    assert (inOpenSet (openSet st) (getNextPosition start d) = false) as Hnot.
    { apply not_true_is_false. intros Hyes. apply inOpenSet_elem, Hin in Hyes.
      rewrite Hentry in Hyes. by destruct Hyes. }
    rewrite Hnot in *.
    split; [| intros _; cbn [cameFrom]; rewrite lookup_insert_eq; eauto].
    split; [done |]. cbn [cameFrom openSet gScore fScore].
    split; [| split].
    + intros p Hp. apply elem_of_app.
      destruct (decide (getNextPosition start d = p)) as [<- | Hne].
      * right. by apply list_elem_of_singleton.
      * left. apply Hopen. by rewrite lookup_insert_ne in Hp.
    + intros p Hp.
      destruct (decide (getNextPosition start d = p)) as [<- | Hne].
      * by rewrite !lookup_insert_eq.
      * rewrite !lookup_insert_ne by done. apply Hscores.
        by rewrite lookup_insert_ne in Hp.
    + intros p Hp Hps.
      destruct (decide (getNextPosition start d = p)) as [<- | Hne].
      * by rewrite lookup_insert_eq in Hp.
      * rewrite lookup_insert_ne in Hp by done. rewrite lookup_insert_ne by done.
        by apply Hfresh.
Qed.

Lemma fold_visit_firstRing ds st :
  (forall d, d ∈ ds -> d ∈ directions) -> firstRing st ->
  firstRing (fold_left (visitNeighbor maze goal start) ds st)
  /\ (forall d, d ∈ ds -> isValidPosition (getNextPosition start d) maze = true ->
        is_Some (cameFrom (fold_left (visitNeighbor maze goal start) ds st)
                 !! getNextPosition start d))
  /\ (forall p, is_Some (cameFrom st !! p) ->
        is_Some (cameFrom (fold_left (visitNeighbor maze goal start) ds st) !! p)).
Proof.
  revert st. induction ds as [| d ds IH]; intros st Hds Hring.
  - split; [done | split; [| done]]. intros d Hd. by apply elem_of_nil in Hd.
  - rewrite fold_left_cons.
    destruct (visitNeighbor_firstRing st d) as [Hring' Hnew];
      [apply Hds; by apply list_elem_of_here | done |].
    destruct (IH (visitNeighbor maze goal start st d)) as (Hr & Hlater & Hkeep);
      [intros d' Hd'; apply Hds; by apply list_elem_of_further | done |].
    split; [done | split].
    + intros d' Hd' Hvalid. apply elem_of_cons in Hd' as [-> | Hd'].
      * by apply Hkeep, Hnew.
      * by apply Hlater.
    + intros p Hp. by apply Hkeep, visitNeighbor_keeps.
Qed.

Lemma firstRing_beforeExpand :
  firstRing {| openSet := splice1 (openSet (initialState start goal)) 0;
               cameFrom := cameFrom (initialState start goal);
               gScore := gScore (initialState start goal);
               fScore := fScore (initialState start goal) |}.
Proof.
  split; [apply aroundStart_beforeExpand |]. cbn.
  split; [| split].
  - intros p [v Hv]. by rewrite lookup_empty in Hv.
  - intros p [v Hv]. by rewrite lookup_empty in Hv.
  - intros p _ Hne. by apply lookup_singleton_ne.
Qed.

(** The selection loop returns a position whose score no other position of
    the open set undercuts. *)
Lemma score_ltb_trans a b c :
  score_ltb a b = false -> score_ltb c b = true -> score_ltb a c = false.
Proof.
  destruct a, b, c; cbn; try done; intros H1 H2;
    try (apply Z.ltb_ge in H1); try (apply Z.ltb_lt in H2); try (apply Z.ltb_ge); lia.
Qed.

Lemma score_ltb_irrefl a : score_ltb a a = false.
Proof. destruct a; cbn; [apply Z.ltb_irrefl | done]. Qed.

Lemma lowestFrom_lowest fs current ci i rest seen :
  (forall p, p ∈ seen -> score_ltb (readScore fs p) (readScore fs current) = false) ->
  forall p, p ∈ seen ++ current :: rest ->
    score_ltb (readScore fs p) (readScore fs (lowestFrom fs current ci i rest).1) = false.
Proof.
  revert current ci i seen. induction rest as [| node rest IH]; intros current ci i seen Hseen p Hp.
  - cbn. apply elem_of_app in Hp as [Hp | Hp]; [by apply Hseen |].
    apply list_elem_of_singleton in Hp as ->. apply score_ltb_irrefl.
  - cbn [lowestFrom]. fold (readScore fs node). fold (readScore fs current).
    destruct (score_ltb (readScore fs node) (readScore fs current)) eqn:Hlt.
    + apply (IH node i (S i) (seen ++ [current])).
      * intros q Hq. apply elem_of_app in Hq as [Hq | Hq].
        -- eapply score_ltb_trans; [by apply Hseen | done].
        -- apply list_elem_of_singleton in Hq as ->.
           eapply score_ltb_trans; [apply score_ltb_irrefl | done].
      * rewrite <- app_assoc. exact Hp.
    + apply (IH current ci (S i) (seen ++ [node])).
      * intros q Hq. apply elem_of_app in Hq as [Hq | Hq]; [by apply Hseen |].
        by apply list_elem_of_singleton in Hq as ->.
      * apply elem_of_app in Hp as [Hp | Hp].
        -- apply elem_of_app. left. apply elem_of_app. by left.
        -- apply elem_of_cons in Hp as [-> | Hp].
           ++ apply elem_of_app. right. by apply list_elem_of_here.
           ++ apply elem_of_cons in Hp as [-> | Hp].
              ** apply elem_of_app. left. apply elem_of_app. right.
                 by apply list_elem_of_singleton.
              ** apply elem_of_app. right. by apply list_elem_of_further.
Qed.

Lemma manhattanDistance_zero (p q : GridPos) : manhattanDistance p q = 0 -> p = q.
Proof.
  unfold manhattanDistance. destruct p, q. cbn. intros Hd. f_equal; lia.
Qed.

(** X3. A valid goal next to the start is answered with the two-cell path. *)
Theorem findPathAStar_adjacent fuel d :
  d ∈ directions ->
  goal = getNextPosition start d ->
  isValidPosition goal maze = true ->
  findPathAStar (S (S fuel)) start goal maze = Some [start; goal].
Proof.
  intros Hd Hgoal Hvalid. unfold findPathAStar.
  assert (start <> goal) as Hne.
  { rewrite Hgoal. intros Heq. symmetry in Heq. by apply neighbor_not_self in Heq. }
  rewrite searchLoop_step. cbn [initialState openSet lowestFrom fScore cameFrom gScore].
  rewrite (goal_test_false goal start Hne).
  set (st1 := expand maze goal start _).
  assert (firstRing st1
          /\ (forall d, d ∈ directions ->
                isValidPosition (getNextPosition start d) maze = true ->
                is_Some (cameFrom st1 !! getNextPosition start d))) as [Hring Hfound].
  { destruct (fold_visit_firstRing directions _ (fun d H => H) firstRing_beforeExpand)
      as (Hr & Hf & _). split; [exact Hr | exact Hf]. }
  pose proof Hring as (Haround0 & _).
  assert (is_Some (cameFrom st1 !! goal)) as Hentry.
  { rewrite Hgoal. apply Hfound; [done | by rewrite <- Hgoal]. }
  destruct Hring as (Haround & Hopen & Hscores & _).
  rewrite searchLoop_step.
  pose proof (Hopen goal Hentry) as Hin.
  destruct (openSet st1) as [| first rest] eqn:Hos; [by apply elem_of_nil in Hin |].
  pose proof (lowestFrom_elem (fScore st1) first 0%nat 1%nat rest) as Hcur.
  pose proof (lowestFrom_lowest (fScore st1) first 0%nat 1%nat rest [] ) as Hlow.
  destruct (lowestFrom (fScore st1) first 0 1 rest) as [cur idx]. cbn [fst] in *.
  assert (cur = goal) as ->.
  { specialize (Hlow ltac:(intros p Hp; by apply elem_of_nil in Hp) goal Hin).
    rewrite <- Hos in Hcur. destruct Haround as (Hsome & _).
    destruct (Hscores cur (Hsome cur Hcur)) as [_ Hfc].
    destruct (Hscores goal Hentry) as [_ Hfg].
    unfold readScore in Hlow. rewrite Hfc, Hfg in Hlow.
    assert (manhattanDistance goal goal = 0) as Hzero by (unfold manhattanDistance; lia).
    rewrite Hzero in Hlow.
    assert (0 <= manhattanDistance cur goal) as Hnn by (unfold manhattanDistance; lia).
    apply manhattanDistance_zero.
    destruct (1 + manhattanDistance cur goal) as [| n | n] eqn:Hsum; [lia | | lia].
    cbn in Hlow. apply Z.ltb_ge in Hlow. lia. }
  rewrite !Z.eqb_refl. cbn [andb reconstructPath].
  destruct Haround as (_ & Hcame & _). destruct Hentry as [v Hv].
  destruct (Hcame goal v Hv) as [-> _]. rewrite Hv.
  cbn [reconstructPath].
  by rewrite (aroundStart_no_start_entry _ st1 Haround0).
Qed.

End PathAdjacent.

Lemma findPathAStar_adjacent_witness :
  AStar.findPathAStar 2 (0, 0) (1, 0) corridor3 = Some [(0, 0); (1, 0)].
Proof.
  apply (findPathAStar_adjacent corridor3 (0, 0) (1, 0) 0 RIGHT).
  - unfold AStar.directions. repeat (first [by apply list_elem_of_here | apply list_elem_of_further]).
  - reflexivity.
  - reflexivity.
Defined.

(** ** The learner: prediction and growth *)

(** X5. [updateLearningLevel_monotone] at a concrete input. *)
Lemma updateLearningLevel_monotone_witness :
  JSNum.le (AIEngine.learningLevel AIEngine.create)
    (AIEngine.learningLevel (AIEngine.updateLearningLevel AIEngine.create))
  /\ JSNum.le (AIEngine.learningLevel (AIEngine.updateLearningLevel AIEngine.create))
       (JSNum.Fin AI_CONFIG.MAX_LEARNING_LEVEL).
Proof.
  apply (updateLearningLevel_monotone AIEngine.create 0).
  - reflexivity.
  - vm_compute. discriminate.
Defined.

Section Prediction.

Import JSNum AIEngine.

Lemma gtb_trans a b c : gtb a b = false -> gtb c b = true -> gtb a c = false.
Proof.
  destruct a as [| | | p], b as [| | | q], c as [| | | r]; cbn; try done.
  intros Hab Hcb. apply negb_false_iff in Hab. apply negb_true_iff in Hcb.
  apply negb_false_iff. apply Qle_bool_iff in Hab. apply Qle_bool_iff.
  apply Qlt_le_weak. eapply Qle_lt_trans; [exact Hab |].
  apply Qnot_le_lt. intros Hle. apply Qle_bool_iff in Hle. congruence.
Qed.

Lemma gtb_irrefl a : gtb a a = false.
Proof.
  destruct a as [| | | p]; cbn; try done.
  apply negb_false_iff, Qle_bool_iff, Qle_refl.
Qed.

(** The loop of [predictPlayerDirection]: no weight seen exceeds the
    maximum kept, which is the initial [0] with no direction chosen, or the
    positive weight of the direction chosen. *)
Lemma moreFrequent_fold w ks seen acc :
  (acc.1 = Fin 0 /\ acc.2 = NONE \/ acc.1 = getWeight w acc.2 /\ gtb acc.1 (Fin 0) = true) ->
  (forall k, In k seen -> gtb (getWeight w k) acc.1 = false) ->
  let res := fold_left (moreFrequent w) ks acc in
  (res.1 = Fin 0 /\ res.2 = NONE \/ res.1 = getWeight w res.2 /\ gtb res.1 (Fin 0) = true)
  /\ (forall k, In k (seen ++ ks) -> gtb (getWeight w k) res.1 = false).
Proof.
  revert seen acc. induction ks as [| k ks IH]; intros seen acc Hacc Hseen; cbv zeta.
  - cbn [fold_left]. rewrite app_nil_r. by split.
  - rewrite fold_left_cons.
    destruct (IH (seen ++ [k]) (moreFrequent w acc k)) as [Hres Hall].
    + unfold moreFrequent. destruct (gtb (getWeight w k) acc.1) eqn:Hgt; [| done].
      right. split; [done |]. cbn [fst].
      destruct Hacc as [[H0 _] | [_ Hpos]]; [by rewrite <- H0 |].
      destruct (gtb (getWeight w k) (Fin 0)) eqn:Hk; [done |].
      by rewrite (gtb_trans _ _ _ Hk Hpos) in Hgt.
    + intros k' Hk'. unfold moreFrequent.
      destruct (gtb (getWeight w k) acc.1) eqn:Hgt; cbn [fst];
        apply in_app_or in Hk' as [Hk' | [<- | []]].
      * eapply gtb_trans; [by apply Hseen | done].
      * apply gtb_irrefl.
      * by apply Hseen.
      * done.
    + split; [done |]. intros k' Hk'. apply Hall. by rewrite <- app_assoc.
Qed.

End Prediction.

(** X6. The predicted direction has a positive weight that no other weight
    exceeds; when no weight is positive (or all are [NaN], as after every
    recorded movement) the prediction is [NONE]. *)
Theorem predictPlayerDirection_maximal (s : AIEngine.t) (k : Direction) :
  let w := AIEngine.patternWeights s in
  let predicted := AIEngine.predictPlayerDirection s in
  (JSNum.gtb (AIEngine.getWeight w predicted) (JSNum.Fin 0) = true
   /\ JSNum.gtb (AIEngine.getWeight w k) (AIEngine.getWeight w predicted) = false)
  \/ (predicted = NONE /\ JSNum.gtb (AIEngine.getWeight w k) (JSNum.Fin 0) = false).
Proof.
  cbv zeta. unfold AIEngine.predictPlayerDirection.
  destruct (moreFrequent_fold (AIEngine.patternWeights s) AIEngine.keys []
              (JSNum.Fin 0, NONE)) as (Hres & Hall); [by left | by intros ? [] |].
  cbv zeta in *.
  set (res := fold_left _ AIEngine.keys _) in *.
  assert (In k AIEngine.keys) as Hk by (destruct k; cbn; tauto).
  specialize (Hall k Hk).
  destruct Hres as [[H0 Hnone] | [Hw Hpos]].
  - right. by rewrite <- H0.
  - left. by rewrite <- Hw.
Qed.

(** X7. After any sequence of recorded movements on a new engine the
    predicted direction is [NONE]: the weights are still 0 or are all
    [NaN], and no such weight compares greater than the initial 0. *)
Theorem predictPlayerDirection_none (dirs : list Direction) :
  AIEngine.predictPlayerDirection (recordAll dirs AIEngine.create) = NONE.
Proof.
  destruct dirs as [| dir dirs]; [reflexivity |].
  rewrite recordAll_cons, (recordPlayerMovement_empty dir AIEngine.create eq_refl).
  revert dirs. cut (forall dirs s, AIEngine.playerPatterns s = [] ->
                      AIEngine.patternWeights s = nanWeights ->
                      AIEngine.predictPlayerDirection (recordAll dirs s) = NONE).
  { intros Hcut dirs. by apply Hcut. }
  induction dirs as [| d ds IH]; intros s Hpp Hw.
  - unfold recordAll. cbn [fold_left]. unfold AIEngine.predictPlayerDirection.
    rewrite Hw. reflexivity.
  - rewrite recordAll_cons, (recordPlayerMovement_empty d s Hpp). by apply IH.
Qed.

(** ** The danger level and the safe zones *)

(** X8. The heatmap has one row per maze row, each as long as the first maze
    row. *)
Theorem dangerHeatmap_shape (ghosts : list Ghost) (maze : Maze) :
  length (AIEngine.generateDangerHeatmap ghosts maze) = length maze
  /\ Forall (fun row => length row = Z.to_nat (AStar.rowLength maze))
       (AIEngine.generateDangerHeatmap ghosts maze).
Proof.
  unfold AIEngine.generateDangerHeatmap. split.
  - by rewrite length_map, length_seq.
  - apply List.Forall_forall. intros row Hrow.
    apply in_map_iff in Hrow as (y & <- & _). by rewrite length_map, length_seq.
Qed.

Section DangerLevel.

Import AIEngine.

Lemma Math_min_1_mono a b : (a <= b)%Q -> (Math_min a 1 <= Math_min b 1)%Q.
Proof.
  intros Hab. unfold Math_min.
  destruct (Qle_bool a 1) eqn:Ha, (Qle_bool b 1) eqn:Hb.
  - done.
  - by apply Qle_bool_iff.
  - apply Qle_bool_iff in Hb. exfalso.
    assert (Qle_bool a 1 = true) as Hc by (apply Qle_bool_iff; by eapply Qle_trans).
    congruence.
  - apply Qle_refl.
Qed.

Lemma dangerSum_threatening pos ghosts :
  dangerSum pos (List.filter threatening ghosts) = dangerSum pos ghosts.
Proof.
  induction ghosts as [| ghost ghosts IH]; [done |]. cbn [List.filter dangerSum].
  destruct (threatening ghost) eqn:Ht; cbn [dangerSum andb]; rewrite ?Ht; cbn [andb];
    by rewrite IH.
Qed.

End DangerLevel.

(** X9. The danger level of any position lies in [0, 1]; a further ghost never
    lowers it; and the frightened and the eaten ghosts do not count. *)
Theorem calculateDangerLevel_bounds (pos : Position) (ghost : Ghost) (ghosts : list Ghost) :
  (0 <= AIEngine.calculateDangerLevel pos ghosts <= 1)%Q
  /\ (AIEngine.calculateDangerLevel pos ghosts
      <= AIEngine.calculateDangerLevel pos (ghost :: ghosts))%Q
  /\ (AIEngine.calculateDangerLevel pos (List.filter threatening ghosts)
      == AIEngine.calculateDangerLevel pos ghosts)%Q.
Proof.
  split; [| split].
  - unfold AIEngine.calculateDangerLevel. apply Math_min_1_bounds.
    rewrite fold_addDanger, Qplus_0_l. apply dangerSum_nonneg.
  - unfold AIEngine.calculateDangerLevel. apply Math_min_1_mono.
    rewrite !fold_addDanger, !Qplus_0_l. cbn [dangerSum].
    destruct (threatening ghost && withinRadius pos ghost) eqn:Hc; [| apply Qle_refl].
    apply andb_true_iff in Hc as [_ Hin].
    rewrite <- (Qplus_0_l (dangerSum pos ghosts)) at 1.
    apply Qplus_le_compat; [by apply contribution_nonneg | apply Qle_refl].
  - rewrite !calculateDangerLevel_spec. by rewrite dangerSum_threatening.
Qed.

(** X10. Every safe zone is a cell of the maze that is not a wall, within 8
    steps of Pac-Man, and its danger level is 0. *)
Theorem findSafeZones_safe (pacmanPosition : Position) (ghosts : list Ghost) (maze : Maze)
    (zone : Position) :
  In zone (AIEngine.findSafeZones pacmanPosition ghosts maze) ->
  (exists x y,
     zone = AIEngine.cellPosition x y
     /\ (y < length maze)%nat
     /\ Z.of_nat x < AStar.rowLength maze
     /\ cellAt maze (Z.of_nat x) (Z.of_nat y) <> Some WALL)
  /\ (AIEngine.manhattanDistance zone pacmanPosition <= 8)%Q
  /\ (AIEngine.calculateDangerLevel zone ghosts == 0)%Q.
Proof.
  unfold AIEngine.findSafeZones. intros Hzone.
  apply in_flat_map in Hzone as (y & Hy & Hzone).
  apply in_flat_map in Hzone as (x & Hx & Hzone).
  apply in_seq in Hy, Hx.
  assert (cellAt maze (Z.of_nat x) (Z.of_nat y) <> Some WALL
          /\ In zone
               (if forallb (AIEngine.farEnough (AIEngine.cellPosition x y)) ghosts
                   && Qle_bool (AIEngine.manhattanDistance (AIEngine.cellPosition x y)
                                  pacmanPosition) 8
                then [AIEngine.cellPosition x y] else [])) as [Hwall Hin].
  { destruct (cellAt maze (Z.of_nat x) (Z.of_nat y)) as [[] |]; by try destruct Hzone. }
  destruct (forallb _ ghosts && _) eqn:Hsafe; [| by destruct Hin].
  destruct Hin as [<- | []]. apply andb_true_iff in Hsafe as [Hfar Hnear].
  split; [exists x, y; repeat split; [lia | lia | done] |].
  split; [by apply Qle_bool_iff |].
  rewrite calculateDangerLevel_spec, dangerSum_far; [reflexivity |].
  intros ghost Hghost Hthreat.
  rewrite forallb_forall in Hfar. specialize (Hfar ghost Hghost).
  unfold AIEngine.farEnough in Hfar. unfold threatening in Hthreat.
  assert (Qle_bool AI_CONFIG.SAFE_DISTANCE
            (AIEngine.manhattanDistance (AIEngine.cellPosition x y) (position ghost)) = true)
    as Hdist by (by destruct (state ghost)).
  apply Qle_bool_iff in Hdist. eapply Qlt_le_trans; [| exact Hdist]. reflexivity.
Qed.

Lemma findSafeZones_safe_witness :
  (exists x y,
     AIEngine.cellPosition 9 15 = AIEngine.cellPosition x y
     /\ (y < length MAZE_LAYOUT)%nat
     /\ Z.of_nat x < AStar.rowLength MAZE_LAYOUT
     /\ cellAt MAZE_LAYOUT (Z.of_nat x) (Z.of_nat y) <> Some WALL)
  /\ (AIEngine.manhattanDistance (AIEngine.cellPosition 9 15)
        (GameEngine.gridPosition 9 15) <= 8)%Q
  /\ (AIEngine.calculateDangerLevel (AIEngine.cellPosition 9 15) [blinkyAt11] == 0)%Q.
Proof.
  apply (findSafeZones_safe (GameEngine.gridPosition 9 15) [blinkyAt11] MAZE_LAYOUT
           (AIEngine.cellPosition 9 15)).
  vm_compute. repeat (first [left; reflexivity | right]).
Defined.

(** ** Ghosts from frame to frame *)

Section GhostFrames.

Import GameEngine.

Variable blend : AIEngine.t -> Ghost -> PacMan -> Position -> Position.

(** Moving a ghost changes its position, velocity, direction and last
    direction, and nothing else. *)
Lemma updateGhostMovement_keeps e rnd ghost :
  let moved := updateGhostMovement e rnd ghost in
  id moved = id ghost /\ state moved = state ghost
  /\ houseTimer moved = houseTimer ghost
  /\ frightenedTimer moved = frightenedTimer ghost
  /\ isFlashing moved = isFlashing ghost
  /\ targetPosition moved = targetPosition ghost
  /\ scatterTarget moved = scatterTarget ghost.
Proof.
  unfold updateGhostMovement.
  destruct (bool_decide (state ghost = IN_HOUSE)); [done |].
  destruct (allowedDirections _ ghost) as [| first rest]; [done |].
  set (best := if bool_decide (state ghost = FRIGHTENED) then _ else _). clearbody best.
  cbv zeta.
  match goal with |- context [if ?c then _ else _] => destruct c end; done.
Qed.

Lemma updateGhostState_position e ghost :
  position (updateGhostState blend e ghost) = position ghost
  /\ id (updateGhostState blend e ghost) = id ghost.
Proof.
  unfold updateGhostState.
  repeat match goal with |- context [if ?c then _ else _] => destruct c end; done.
Qed.

Lemma updateGhostState_frightened e ghost :
  state ghost = FRIGHTENED ->
  let next := updateGhostState blend e ghost in
  frightenedTimer next = frightenedTimer ghost - 1
  /\ houseTimer next = houseTimer ghost
  /\ (1 < frightenedTimer ghost ->
      state next = FRIGHTENED
      /\ (GAME_CONFIG.GHOST_FLASH_DURATION < frightenedTimer ghost - 1 ->
          isFlashing next = isFlashing ghost))
  /\ (frightenedTimer ghost <= 1 -> state next = CHASE /\ isFlashing next = false).
Proof.
  intros Hstate. unfold updateGhostState. rewrite Hstate. cbn [bool_decide andb].
  rewrite (bool_decide_eq_false_2 (FRIGHTENED = IN_HOUSE)) by discriminate.
  rewrite (bool_decide_eq_true_2 (FRIGHTENED = FRIGHTENED)) by reflexivity.
  cbn [andb]. cbv zeta. cbn [frightenedTimer set_frightenedTimer].
  unfold GAME_CONFIG.GHOST_FLASH_DURATION.
  destruct (frightenedTimer ghost - 1 <=? 120) eqn:Hflash;
    cbn [frightenedTimer set_frightenedTimer set_isFlashing];
    destruct (frightenedTimer ghost - 1 <=? 0) eqn:Hend; cbn;
    (split; [reflexivity |]); (split; [reflexivity |]); (split; [intros ? | intros ?]);
    try (apply Z.leb_le in Hend); try (apply Z.leb_gt in Hend);
    try (apply Z.leb_le in Hflash); try (apply Z.leb_gt in Hflash);
    try lia; try done.
  all: split; [done | intros; lia].
Qed.

Lemma updateGhostState_house e ghost :
  state ghost = IN_HOUSE -> 0 < houseTimer ghost ->
  let next := updateGhostState blend e ghost in
  houseTimer next = houseTimer ghost - 1
  /\ (1 < houseTimer ghost -> state next = IN_HOUSE)
  /\ (houseTimer ghost = 1 -> state next = CHASE).
Proof.
  intros Hstate Htimer. unfold updateGhostState. rewrite Hstate.
  rewrite (bool_decide_eq_true_2 (IN_HOUSE = IN_HOUSE)) by reflexivity.
  apply Z.ltb_lt in Htimer as Htimer'. rewrite Htimer'. cbn [andb]. cbv zeta.
  cbn [houseTimer set_houseTimer].
  destruct (houseTimer ghost - 1 <=? 0) eqn:Hend; cbn;
    [apply Z.leb_le in Hend | apply Z.leb_gt in Hend];
    (split; [reflexivity |]); split; intros; first [lia | done].
Qed.

Lemma updateGhostState_eaten e ghost :
  state ghost = EATEN ->
  positionEqb (position ghost) (startPosition (id ghost)) = false ->
  state (updateGhostState blend e ghost) = EATEN
  /\ targetPosition (updateGhostState blend e ghost) = startPosition (id ghost).
Proof.
  intros Hstate Hpos. unfold updateGhostState. rewrite Hstate, Hpos.
  rewrite (bool_decide_eq_false_2 (EATEN = IN_HOUSE)) by discriminate.
  rewrite (bool_decide_eq_false_2 (EATEN = FRIGHTENED)) by discriminate.
  rewrite (bool_decide_eq_true_2 (EATEN = EATEN)) by reflexivity.
  cbn. by rewrite Hstate.
Qed.

Lemma updateGhostState_leaves_house e ghost :
  state ghost <> IN_HOUSE -> state (updateGhostState blend e ghost) <> IN_HOUSE.
Proof.
  intros Hstate. unfold updateGhostState.
  rewrite (bool_decide_eq_false_2 (state ghost = IN_HOUSE)) by done. cbn [andb].
  repeat match goal with |- context [if ?c then _ else _] => destruct c eqn:? end;
    cbn; try done.
  all: apply bool_decide_eq_true in Heqb; by rewrite Heqb.
Qed.

Lemma toGrid_compat a b : (a == b)%Q -> toGrid a = toGrid b.
Proof. intros Hab. unfold toGrid, Math_round. by rewrite Hab. Qed.

(** The start positions of [GHOST_CONFIG] are grid coordinates; read as
    pixels they all lie in the top left cell. *)
Lemma house_in_corner ghost :
  positionEqb (position ghost) (startPosition (id ghost)) = true ->
  ghostGridPos ghost = (0, 0).
Proof.
  unfold positionEqb, ghostGridPos. intros Heq.
  apply andb_true_iff in Heq as [Hx Hy]. apply Qeq_bool_iff in Hx, Hy.
  rewrite (toGrid_compat _ _ Hx), (toGrid_compat _ _ Hy).
  by destruct (id ghost).
Qed.

Lemma updateGhostMovement_walkable e rnd ghost :
  state ghost <> IN_HOUSE ->
  isValidMove (maze (gameState e)) (ghostGridPos ghost) = true ->
  isValidMove (maze (gameState e)) (ghostGridPos (updateGhostMovement e rnd ghost)) = true.
Proof.
  intros Hstate Hvalid. unfold updateGhostMovement.
  rewrite (bool_decide_eq_false_2 (state ghost = IN_HOUSE)) by done.
  destruct (allowedDirections _ ghost) as [| first rest]; [done |].
  set (best := if bool_decide (state ghost = FRIGHTENED) then _ else _). clearbody best.
  cbv zeta.
  match goal with |- context [if ?c then _ else _] => destruct c eqn:Hnext end; done.
Qed.

Lemma updateGhost_walkable e rnd ghost :
  sameWalls (maze (gameState e)) ->
  state ghost <> IN_HOUSE -> onWalkableCell ghost ->
  state (updateGhost blend e rnd ghost) <> IN_HOUSE
  /\ onWalkableCell (updateGhost blend e rnd ghost).
Proof.
  intros Hwalls Hstate Hcell. unfold updateGhost.
  pose proof (updateGhostState_leaves_house e ghost Hstate) as Hout.
  destruct (updateGhostMovement_keeps e rnd (updateGhostState blend e ghost))
    as (_ & Hst & _).
  split; [by rewrite Hst |].
  unfold onWalkableCell. rewrite <- Hwalls.
  apply updateGhostMovement_walkable; [done |].
  rewrite Hwalls. unfold ghostGridPos.
  by rewrite (proj1 (updateGhostState_position e ghost)).
Qed.

Lemma updateGhostMovement_house_column e rnd ghost :
  state ghost = IN_HOUSE ->
  posX (position (updateGhostMovement e rnd ghost)) = posX (position ghost).
Proof.
  intros Hstate. unfold updateGhostMovement.
  by rewrite (bool_decide_eq_true_2 (state ghost = IN_HOUSE)).
Qed.

Lemma origin_is_wall : isValidMove MAZE_LAYOUT (0, 0) = false.
Proof. reflexivity. Qed.

End GhostFrames.

(** X13. A frightened ghost whose timer is [t] stays frightened for [t - 1]
    frames, its timer falling by one per frame and its flashing untouched
    while more than [GHOST_FLASH_DURATION] frames remain; in frame [t] it
    is back in CHASE and does not flash. *)
Theorem frightened_countdown (blend : AIEngine.t -> Ghost -> PacMan -> Position -> Position)
    (frames : list (GameEngine.t * Q)) (ghost : Ghost) :
  state ghost = FRIGHTENED ->
  let after := ghostFrames blend frames ghost in
  let n := Z.of_nat (length frames) in
  (n < frightenedTimer ghost ->
   state after = FRIGHTENED
   /\ frightenedTimer after = frightenedTimer ghost - n
   /\ (GAME_CONFIG.GHOST_FLASH_DURATION < frightenedTimer ghost - n ->
       isFlashing after = isFlashing ghost))
  /\ (0 < n -> n = frightenedTimer ghost -> state after = CHASE /\ isFlashing after = false).
Proof.
  revert ghost. induction frames as [| frame frames IH]; intros ghost Hstate.
  { cbn. split; [intros _ | lia]. split; [done |]. split; [lia | done]. }
  cbv zeta. unfold ghostFrames. rewrite fold_left_cons.
  fold (ghostFrames blend frames (GameEngine.updateGhost blend frame.1 frame.2 ghost)).
  set (next := GameEngine.updateGhost blend frame.1 frame.2 ghost).
  destruct (updateGhostMovement_keeps frame.1 frame.2
              (GameEngine.updateGhostState blend frame.1 ghost))
    as (_ & Hst & _ & Hft & Hfl & _).
  destruct (updateGhostState_frightened blend frame.1 ghost Hstate)
    as (Htimer & _ & Hlong & Hshort).
  fold (GameEngine.updateGhost blend frame.1 frame.2 ghost) in Hst, Hft, Hfl.
  fold next in Hst, Hft, Hfl.
  rewrite length_cons, Nat2Z.inj_succ.
  split.
  - intros Hn.
    destruct Hlong as [Hfr Hflash]; [lia |].
    assert (state next = FRIGHTENED) as Hnext by congruence.
    destruct (IH next Hnext) as [Hbefore _].
    destruct Hbefore as (Hs & Ht & Hf); [lia |].
    split; [done |]. split; [lia |].
    intros Hfar. rewrite Hf by lia. rewrite Hfl. apply Hflash. lia.
  - intros _ Hn. destruct frames as [| frame' frames].
    + cbn in Hn. cbn [ghostFrames fold_left].
      destruct Hshort as [Hc Hf]; [lia |]. split; congruence.
    + destruct Hlong as [Hfr _]; [rewrite length_cons in Hn; lia |].
      assert (state next = FRIGHTENED) as Hnext by congruence.
      destruct (IH next Hnext) as [_ Hend].
      apply Hend; rewrite length_cons in *; lia.
Qed.

Lemma frightened_countdown_witness :
  let after := ghostFrames keepBaseTarget [(engine0, 0%Q)] (frightenedGhost BLINKY) in
  (1 < 100 ->
   state after = FRIGHTENED /\ frightenedTimer after = 100 - 1
   /\ (GAME_CONFIG.GHOST_FLASH_DURATION < 100 - 1 -> isFlashing after = false))
  /\ (0 < 1 -> 1 = 100 -> state after = CHASE /\ isFlashing after = false).
Proof.
  apply (frightened_countdown keepBaseTarget [(engine0, 0%Q)] (frightenedGhost BLINKY)).
  reflexivity.
Defined.

(** X14. A ghost in the house whose timer is [t] stays there for [t - 1]
    frames, in its column, and is released into CHASE in frame [t]. *)
Theorem house_release (blend : AIEngine.t -> Ghost -> PacMan -> Position -> Position)
    (frames : list (GameEngine.t * Q)) (ghost : Ghost) :
  state ghost = IN_HOUSE -> 0 < houseTimer ghost ->
  let after := ghostFrames blend frames ghost in
  let n := Z.of_nat (length frames) in
  (n < houseTimer ghost ->
   state after = IN_HOUSE
   /\ houseTimer after = houseTimer ghost - n
   /\ posX (position after) = posX (position ghost))
  /\ (n = houseTimer ghost -> state after = CHASE).
Proof.
  revert ghost. induction frames as [| frame frames IH]; intros ghost Hstate Htimer.
  { cbn. split; [intros _ | lia]. split; [done |]. split; [lia | done]. }
  cbv zeta. unfold ghostFrames. rewrite fold_left_cons.
  fold (ghostFrames blend frames (GameEngine.updateGhost blend frame.1 frame.2 ghost)).
  set (next := GameEngine.updateGhost blend frame.1 frame.2 ghost).
  destruct (updateGhostMovement_keeps frame.1 frame.2
              (GameEngine.updateGhostState blend frame.1 ghost))
    as (_ & Hst & Hht & _).
  destruct (updateGhostState_house blend frame.1 ghost Hstate Htimer)
    as (Hdec & Hlong & Hlast).
  fold (GameEngine.updateGhost blend frame.1 frame.2 ghost) in Hst, Hht.
  fold next in Hst, Hht.
  rewrite length_cons, Nat2Z.inj_succ.
  split.
  - intros Hn.
    assert (state next = IN_HOUSE) as Hnext by (rewrite Hst; apply Hlong; lia).
    destruct (IH next Hnext) as [Hbefore _]; [lia |].
    destruct Hbefore as (Hs & Ht & Hx); [lia |].
    split; [done |]. split; [lia |].
    rewrite Hx. unfold next, GameEngine.updateGhost.
    rewrite updateGhostMovement_house_column by (apply Hlong; lia).
    by rewrite (proj1 (updateGhostState_position blend frame.1 ghost)).
  - intros Hn. destruct frames as [| frame' frames].
    + cbn in Hn. cbn [ghostFrames fold_left]. rewrite Hst. apply Hlast. lia.
    + rewrite length_cons, Nat2Z.inj_succ in Hn.
      assert (state next = IN_HOUSE) as Hnext by (rewrite Hst; apply Hlong; lia).
      destruct (IH next Hnext) as [_ Hend]; [lia |].
      apply Hend. rewrite length_cons, Nat2Z.inj_succ. lia.
Qed.

Lemma house_release_witness :
  let after := ghostFrames keepBaseTarget [(engine0, 0%Q)] pinky0 in
  (1 < 90 ->
   state after = IN_HOUSE /\ houseTimer after = 90 - 1
   /\ posX (position after) = posX (position pinky0))
  /\ (1 = 90 -> state after = CHASE).
Proof.
  apply (house_release keepBaseTarget [(engine0, 0%Q)] pinky0); reflexivity.
Defined.

(** X15. A ghost outside the house stands on a walkable cell of the maze after
    every frame, and never goes back into the house. *)
Theorem ghost_stays_on_walkable_cells
    (blend : AIEngine.t -> Ghost -> PacMan -> Position -> Position)
    (frames : list (GameEngine.t * Q)) (ghost : Ghost) :
  Forall (fun frame => sameWalls (GameEngine.maze (GameEngine.gameState frame.1))) frames ->
  state ghost <> IN_HOUSE -> onWalkableCell ghost ->
  state (ghostFrames blend frames ghost) <> IN_HOUSE
  /\ onWalkableCell (ghostFrames blend frames ghost).
Proof.
  intros Hwalls. revert ghost.
  induction Hwalls as [| frame frames Hframe _ IH]; intros ghost Hstate Hcell; [done |].
  unfold ghostFrames. rewrite fold_left_cons.
  destruct (updateGhost_walkable blend frame.1 frame.2 ghost Hframe Hstate Hcell)
    as [Hout Hon].
  by apply IH.
Qed.

Lemma ghost_stays_on_walkable_cells_witness :
  state (ghostFrames keepBaseTarget [(engine0, 0%Q)] crossingGhost) <> IN_HOUSE
  /\ onWalkableCell (ghostFrames keepBaseTarget [(engine0, 0%Q)] crossingGhost).
Proof.
  apply (ghost_stays_on_walkable_cells keepBaseTarget [(engine0, 0%Q)] crossingGhost).
  - repeat constructor.
  - discriminate.
  - reflexivity.
Defined.

(** X16. An eaten ghost on a walkable cell is never revived: the house position
    it is compared with is a grid coordinate, which as a pixel position
    lies inside the wall of the top left corner. It stays EATEN in every
    frame, with the house position as its target. *)
Theorem eaten_ghost_stays_eaten
    (blend : AIEngine.t -> Ghost -> PacMan -> Position -> Position)
    (frames : list (GameEngine.t * Q)) (ghost : Ghost) :
  Forall (fun frame => sameWalls (GameEngine.maze (GameEngine.gameState frame.1))) frames ->
  state ghost = EATEN -> onWalkableCell ghost ->
  state (ghostFrames blend frames ghost) = EATEN
  /\ onWalkableCell (ghostFrames blend frames ghost)
  /\ (frames <> [] ->
      targetPosition (ghostFrames blend frames ghost) = GameEngine.startPosition (id ghost)).
Proof.
  intros Hwalls. revert ghost.
  induction Hwalls as [| frame frames Hframe _ IH]; intros ghost Hstate Hcell; [done |].
  unfold ghostFrames. rewrite fold_left_cons.
  fold (ghostFrames blend frames (GameEngine.updateGhost blend frame.1 frame.2 ghost)).
  set (next := GameEngine.updateGhost blend frame.1 frame.2 ghost).
  assert (GameEngine.positionEqb (position ghost) (GameEngine.startPosition (id ghost)) = false)
    as Haway.
  { apply not_true_is_false. intros Hhome. apply house_in_corner in Hhome.
    unfold onWalkableCell in Hcell. rewrite Hhome, origin_is_wall in Hcell. discriminate. }
  destruct (updateGhostState_eaten blend frame.1 ghost Hstate Haway) as [Hst Htarget].
  destruct (updateGhostMovement_keeps frame.1 frame.2
              (GameEngine.updateGhostState blend frame.1 ghost))
    as (Hid & Hkeep & _ & _ & _ & Htp & _).
  fold (GameEngine.updateGhost blend frame.1 frame.2 ghost) in Hid, Hkeep, Htp.
  fold next in Hid, Hkeep, Htp.
  assert (state next = EATEN) as Hnext by congruence.
  assert (id next = id ghost) as Hsame
    by (rewrite Hid; apply (updateGhostState_position blend frame.1 ghost)).
  assert (state ghost <> IN_HOUSE) as Hout by (rewrite Hstate; discriminate).
  destruct (updateGhost_walkable blend frame.1 frame.2 ghost Hframe Hout Hcell)
    as [_ Hon].
  destruct (IH next Hnext Hon) as (Hs & Hc & Ht).
  split; [done |]. split; [done |]. intros _.
  destruct frames as [| frame' frames].
  - cbn [ghostFrames fold_left]. congruence.
  - rewrite Ht by done. by rewrite Hsame.
Qed.

Lemma eaten_ghost_stays_eaten_witness :
  state (ghostFrames keepBaseTarget [(engine0, 0%Q)] (eatenGhost BLINKY)) = EATEN
  /\ onWalkableCell (ghostFrames keepBaseTarget [(engine0, 0%Q)] (eatenGhost BLINKY))
  /\ ([(engine0, 0%Q)] <> [] ->
      targetPosition (ghostFrames keepBaseTarget [(engine0, 0%Q)] (eatenGhost BLINKY))
      = GameEngine.startPosition (id (eatenGhost BLINKY))).
Proof.
  apply (eaten_ghost_stays_eaten keepBaseTarget [(engine0, 0%Q)] (eatenGhost BLINKY)).
  - repeat constructor.
  - reflexivity.
  - reflexivity.
Defined.

(** ** The direction a ghost takes *)

Section GhostDirection.

Import GameEngine.

Lemma randomChoice_elem rnd (dirs : list Direction) :
  (0 <= rnd)%Q -> (rnd < 1)%Q -> dirs <> [] -> In (randomChoice rnd dirs) dirs.
Proof.
  intros Hlow Hhigh Hdirs. unfold randomChoice. apply nth_In.
  set (n := Z.of_nat (length dirs)).
  assert (0 < n) as Hn by (destruct dirs; [done | cbn in n; lia]).
  assert (0 <= Qfloor (rnd * inject_Z n)) as Hfloor.
  { change 0 with (Qfloor 0). apply Qfloor_resp_le.
    apply Qmult_le_0_compat; [done |]. change 0%Q with (inject_Z 0).
    rewrite <- Zle_Qle. lia. }
  assert (Qfloor (rnd * inject_Z n) < n) as Hbelow.
  { rewrite Zlt_Qlt. eapply Qle_lt_trans; [apply Qfloor_le |].
    rewrite <- (Qmult_1_l (inject_Z n)) at 2.
    apply Qmult_lt_compat_r; [| done]. change 0%Q with (inject_Z 0).
    rewrite <- Zlt_Qlt. lia. }
  unfold n in *. lia.
Qed.

Lemma getPossibleDirections_walkable mz pos dir :
  In dir (getPossibleDirections mz pos) -> isValidMove mz (getNextPosition pos dir) = true.
Proof.
  unfold getPossibleDirections. intros Hin.
  repeat (apply in_app_or in Hin as [Hin | Hin];
          [match type of Hin with In _ (if ?c then _ else _) => destruct c eqn:Hc end;
           [destruct Hin as [<- | []]; exact Hc | destruct Hin] |]).
  match type of Hin with In _ (if ?c then _ else _) => destruct c eqn:Hc end;
    [destruct Hin as [<- | []]; exact Hc | destruct Hin].
Qed.

Lemma allowedDirections_frightened mz ghost :
  state ghost = FRIGHTENED ->
  allowedDirections mz ghost = getPossibleDirections mz (ghostGridPos ghost).
Proof.
  intros Hstate. unfold allowedDirections.
  rewrite (bool_decide_eq_true_2 _ Hstate).
  induction (getPossibleDirections mz (ghostGridPos ghost)) as [| d ds IH]; [done |].
  cbn. by rewrite IH.
Qed.

Lemma towardTarget_least gridPos target dirs seen acc :
  acc.2 = Some (manhattanDistance (getNextPosition gridPos acc.1) target) ->
  (forall k, In k seen ->
     manhattanDistance (getNextPosition gridPos acc.1) target
     <= manhattanDistance (getNextPosition gridPos k) target) ->
  let res := fold_left (towardTarget gridPos target) dirs acc in
  forall k, In k (seen ++ dirs) ->
    manhattanDistance (getNextPosition gridPos res.1) target
    <= manhattanDistance (getNextPosition gridPos k) target.
Proof.
  revert seen acc. induction dirs as [| dir dirs IH]; intros seen acc Hacc Hseen.
  { cbn. intros k Hk. rewrite app_nil_r in Hk. by apply Hseen. }
  cbv zeta. rewrite fold_left_cons. intros k Hk.
  apply (IH (seen ++ [dir]) (towardTarget gridPos target acc dir)).
  - unfold towardTarget. destruct (closer _ acc.2); [done | exact Hacc].
  - intros k' Hk'. unfold towardTarget. rewrite Hacc. cbn [closer].
    destruct (_ <? _) eqn:Hlt; cbn [fst];
      [apply Z.ltb_lt in Hlt | apply Z.ltb_ge in Hlt];
      apply in_app_or in Hk' as [Hk' | [<- | []]];
      try lia; specialize (Hseen k' Hk'); lia.
  - by rewrite <- app_assoc.
Qed.

End GhostDirection.

(** X17. A frightened ghost takes, for every value of [Math.random()], one of
    the walkable directions, its reverse included, and remembers the
    direction it had. *)
Theorem frightened_ghost_direction (e : GameEngine.t) (rnd : Q) (ghost : Ghost) :
  state ghost = FRIGHTENED -> (0 <= rnd)%Q -> (rnd < 1)%Q ->
  GameEngine.getPossibleDirections (GameEngine.maze (GameEngine.gameState e))
    (GameEngine.ghostGridPos ghost) <> [] ->
  let moved := GameEngine.updateGhostMovement e rnd ghost in
  GameEngine.isValidMove (GameEngine.maze (GameEngine.gameState e))
    (GameEngine.getNextPosition (GameEngine.ghostGridPos ghost) (direction moved)) = true
  /\ lastDirection moved = direction ghost.
Proof.
  intros Hstate Hlow Hhigh Hdirs. cbv zeta. unfold GameEngine.updateGhostMovement.
  rewrite Hstate. rewrite (bool_decide_eq_false_2 (FRIGHTENED = IN_HOUSE)) by discriminate.
  rewrite (bool_decide_eq_true_2 (FRIGHTENED = FRIGHTENED)) by reflexivity.
  rewrite (allowedDirections_frightened _ _ Hstate).
  pose proof (randomChoice_elem rnd _ Hlow Hhigh Hdirs) as Hin.
  apply getPossibleDirections_walkable in Hin.
  destruct (GameEngine.getPossibleDirections _ _) as [| first rest] eqn:Hpossible; [done |].
  cbv zeta.
  match goal with |- context [if ?c then _ else _] => destruct c end; by split.
Qed.

Lemma frightened_ghost_direction_witness :
  let moved := GameEngine.updateGhostMovement engine0 (1 # 2) (frightenedGhost BLINKY) in
  GameEngine.isValidMove (GameEngine.maze (GameEngine.gameState engine0))
    (GameEngine.getNextPosition (GameEngine.ghostGridPos (frightenedGhost BLINKY))
       (direction moved)) = true
  /\ lastDirection moved = direction (frightenedGhost BLINKY).
Proof.
  apply (frightened_ghost_direction engine0 (1 # 2) (frightenedGhost BLINKY)).
  - reflexivity.
  - vm_compute. discriminate.
  - reflexivity.
  - vm_compute. discriminate.
Defined.

(** X18. Outside the house and outside FRIGHTENED, the direction taken leads to
    a cell that is at least as near to the target as the cell in any other
    allowed direction. *)
Theorem chasing_ghost_is_greedy (e : GameEngine.t) (rnd : Q) (ghost : Ghost)
    (dir : Direction) :
  state ghost <> IN_HOUSE -> state ghost <> FRIGHTENED ->
  In dir (GameEngine.allowedDirections (GameEngine.maze (GameEngine.gameState e)) ghost) ->
  distanceVia ghost (direction (GameEngine.updateGhostMovement e rnd ghost))
  <= distanceVia ghost dir.
Proof.
  intros Hhouse Hfright Hdir.
  pose proof (updateGhostMovement_chase e rnd ghost Hhouse Hfright) as Hmove.
  destruct (GameEngine.allowedDirections _ ghost) as [| first rest]; [done |].
  cbv zeta in Hmove. destruct Hmove as [-> _].
  rewrite fold_left_cons. unfold distanceVia.
  apply (towardTarget_least _ _ rest [first]).
  - reflexivity.
  - intros k [<- | []]. cbn. lia.
  - exact Hdir.
Qed.

Lemma chasing_ghost_is_greedy_witness :
  distanceVia crossingGhost (direction (GameEngine.updateGhostMovement engine0 0 crossingGhost))
  <= distanceVia crossingGhost LEFT.
Proof.
  apply (chasing_ghost_is_greedy engine0 0 crossingGhost LEFT).
  - discriminate.
  - discriminate.
  - vm_compute. right. left. reflexivity.
Defined.

(** ** Pac-Man from frame to frame *)

(** The sharing recorded for a target agrees with its value: whenever the
    object that [adaptGhostBehavior] returns is [pacman.position], the
    position it returns is Pac-Man's. *)
Lemma shared_target_is_pacman_position
    (blend : AIEngine.t -> Ghost -> PacMan -> Position -> Position)
    (s : AIEngine.t) (ghost : Ghost) (pac : PacMan) (ghosts : list Ghost) :
  AIEngine.adaptedIsPacManPosition s ghost pac ghosts = true ->
  AIEngine.adaptGhostBehavior blend s ghost pac ghosts = pacPosition pac.
Proof.
  unfold AIEngine.adaptedIsPacManPosition, AIEngine.adaptGhostBehavior.
  intros Hshared. apply andb_true_iff in Hshared as [-> Hsame].
  unfold AIEngine.targetIsPacManPosition in Hsame. unfold AIEngine.getGhostTarget.
  destruct (id ghost).
  - reflexivity.
  - apply bool_decide_eq_true in Hsame. by rewrite Hsame.
  - by destruct (List.find _ ghosts).
  - cbv zeta in Hsame |- *. by rewrite Hsame.
Qed.



(** Blinky's target moves with Pac-Man: it is Pac-Man's position before the
    move and after it, without any update of the ghost in between. *)
Example blinky_target_moves_with_pacman :
  targetPosition <$> head (GameEngine.ghosts (GameEngine.gameState chasingEngine))
  = Some {| posX := 216; posY := 360 |}
  /\ pacPosition (GameEngine.pacman (GameEngine.gameState
                     (GameEngine.updatePacMan chasingEngine LEFT)))
     = {| posX := 214; posY := 360 |}
  /\ targetPosition
       <$> head (GameEngine.ghosts (GameEngine.gameState
                   (GameEngine.updatePacMan chasingEngine LEFT)))
     = Some {| posX := 214; posY := 360 |}.
Proof. vm_compute. repeat split. Qed.

(** ** The tunnel, from both sides *)

(** X20. The x coordinate after the wraparound lies in [0, MAZE_WIDTH *
    CELL_SIZE), a second wraparound changes nothing, and from beyond the
    left edge Pac-Man and the ghosts arrive in the last column. *)
Theorem wrapTunnel_range (nextX : Q) :
  (0 <= GameEngine.wrapTunnel nextX)%Q
  /\ (GameEngine.wrapTunnel nextX
      < inject_Z (GAME_CONFIG.MAZE_WIDTH * GAME_CONFIG.CELL_SIZE))%Q
  /\ GameEngine.wrapTunnel (GameEngine.wrapTunnel nextX) = GameEngine.wrapTunnel nextX
  /\ ((nextX < 0)%Q ->
      GameEngine.toGrid (GameEngine.wrapTunnel nextX) = GAME_CONFIG.MAZE_WIDTH - 1).
Proof.
  unfold GameEngine.wrapTunnel.
  set (bound := inject_Z (GAME_CONFIG.MAZE_WIDTH * GAME_CONFIG.CELL_SIZE)).
  destruct (Qle_bool 0 nextX) eqn:Hlow; cbn [negb].
  - assert (~ (nextX < 0)%Q) as Hpos
      by (apply Qle_not_lt; by apply Qle_bool_iff).
    destruct (Qle_bool bound nextX) eqn:Hhigh.
    + repeat split; done.
    + rewrite Hlow, Hhigh. cbn [negb].
      split; [by apply Qle_bool_iff |]. split; [| split; [done | done]].
      apply Qnot_le_lt. intros Hle. apply Qle_bool_iff in Hle. congruence.
  - repeat split; done.
Qed.

(** X21. [wrapTunnel_right_unreachable] at a concrete input. *)
Lemma wrapTunnel_right_unreachable_witness :
  Qle_bool (inject_Z (GAME_CONFIG.MAZE_WIDTH * GAME_CONFIG.CELL_SIZE)) (442 + 2) = false.
Proof.
  apply (wrapTunnel_right_unreachable 442 2).
  - reflexivity.
  - vm_compute. discriminate.
Defined.

(** ** Collisions *)

Section Collisions.

Import GameEngine.

Lemma nth_error_lookup {A} (l : list A) (n : nat) : nth_error l n = l !! n.
Proof. revert n. induction l as [| x l IH]; intros [| n]; cbn; auto. Qed.

Lemma pelletsInRow_acc row c : pelletsInRow c row = c + pelletsInRow 0 row.
Proof.
  unfold pelletsInRow. revert c. induction row as [| cell row IH]; intros c; [cbn; lia |].
  rewrite !fold_left_cons, IH, (IH (match cell with PELLET | POWER_PELLET => 0 + 1 | _ => 0 end)).
  destruct cell; lia.
Qed.

Lemma countPellets_acc (mz : Maze) c :
  fold_left pelletsInRow mz c = c + fold_left pelletsInRow mz 0.
Proof.
  revert c. induction mz as [| row mz IH]; intros c; [cbn; lia |].
  rewrite !fold_left_cons, IH, (IH (pelletsInRow 0 row)), (pelletsInRow_acc row c). lia.
Qed.

Lemma pelletsInRow_cons c cell row :
  pelletsInRow c (cell :: row)
  = pelletsInRow (match cell with PELLET | POWER_PELLET => c + 1 | _ => c end) row.
Proof. reflexivity. Qed.

Lemma pelletsInRow_clear row i cell :
  row !! i = Some cell -> cell = PELLET \/ cell = POWER_PELLET ->
  pelletsInRow 0 (<[i := EMPTY]> row) = pelletsInRow 0 row - 1.
Proof.
  revert i. induction row as [| c row IH]; intros [| i] Hcell Hpellet; try done.
  - cbn in Hcell. injection Hcell as ->.
    change (<[0%nat := EMPTY]> (cell :: row)) with (EMPTY :: row).
    rewrite !pelletsInRow_cons.
    rewrite (pelletsInRow_acc row (match cell with PELLET | POWER_PELLET => 0 + 1 | _ => 0 end)).
    destruct Hpellet as [-> | ->]; lia.
  - cbn in Hcell.
    change (<[S i := EMPTY]> (c :: row)) with (c :: <[i := EMPTY]> row).
    rewrite !pelletsInRow_cons.
    rewrite (pelletsInRow_acc (<[i := EMPTY]> row)), (pelletsInRow_acc row).
    rewrite (IH i Hcell Hpellet). lia.
Qed.

Lemma cellAt_lookup (mz : Maze) x y cell :
  cellAt mz x y = Some cell ->
  0 <= x /\ 0 <= y
  /\ exists row, mz !! Z.to_nat y = Some row /\ row !! Z.to_nat x = Some cell.
Proof.
  unfold cellAt. destruct ((y <? 0) || (x <? 0)) eqn:Hneg; [done |].
  apply orb_false_iff in Hneg as [Hy Hx]. apply Z.ltb_ge in Hy, Hx.
  destruct (nth_error mz (Z.to_nat y)) as [row |] eqn:Hrow; [| discriminate].
  intros Hcell. rewrite nth_error_lookup in Hrow. rewrite nth_error_lookup in Hcell.
  split; [done |]. split; [done |]. by exists row.
Qed.

Lemma countPellets_clearCell (mz : Maze) x y cell :
  cellAt mz x y = Some cell -> cell = PELLET \/ cell = POWER_PELLET ->
  countPellets (clearCell mz x y) = countPellets mz - 1.
Proof.
  intros Hcell Hpellet.
  apply cellAt_lookup in Hcell as (_ & _ & row & Hrow & Hcell).
  unfold clearCell, Maze in *. change countPellets with (fun mz => fold_left pelletsInRow mz 0).
  cbv beta. revert Hrow. generalize (Z.to_nat y). clear y.
  induction mz as [| r mz IH]; intros [| y] Hrow; try done.
  - cbn in Hrow. injection Hrow as ->.
    change (alter ?f 0%nat (row :: mz)) with (f row :: mz).
    rewrite !fold_left_cons.
    rewrite (countPellets_acc mz (pelletsInRow 0 (<[Z.to_nat x := EMPTY]> row))).
    rewrite (countPellets_acc mz (pelletsInRow 0 row)).
    rewrite (pelletsInRow_clear row _ cell Hcell Hpellet). lia.
  - cbn in Hrow.
    change (alter ?f (S y) (r :: mz)) with (r :: alter f y mz).
    rewrite !fold_left_cons.
    rewrite (countPellets_acc (alter _ y mz) (pelletsInRow 0 r)).
    rewrite (countPellets_acc mz (pelletsInRow 0 r)).
    rewrite (IH y Hrow). lia.
Qed.

Lemma isValidMove_clearCell (mz : Maze) x y cell pos :
  cellAt mz x y = Some cell -> cell <> WALL ->
  isValidMove (clearCell mz x y) pos = isValidMove mz pos.
Proof.
  intros Hcell Hopen.
  pose proof Hcell as Hat.
  apply cellAt_lookup in Hcell as (Hx & Hy & row & Hrow & Hcell).
  unfold isValidMove.
  destruct ((pos.2 <? 0) || (pos.2 >=? GAME_CONFIG.MAZE_HEIGHT)) eqn:Hrows; [done |].
  destruct ((pos.1 <? 0) || (pos.1 >=? GAME_CONFIG.MAZE_WIDTH)) eqn:Hcols; [done |].
  apply orb_false_iff in Hrows as [Hrow0 _], Hcols as [Hcol0 _].
  apply Z.ltb_ge in Hrow0, Hcol0.
  unfold cellAt. rewrite (proj2 (Z.ltb_ge _ _) Hrow0), (proj2 (Z.ltb_ge _ _) Hcol0).
  cbn [orb]. rewrite !nth_error_lookup. unfold clearCell, Maze in *.
  rewrite list_lookup_alter.
  destruct (decide (Z.to_nat y = Z.to_nat pos.2)) as [Hsame | Hother]; [| done].
  rewrite <- Hsame, Hrow. cbn [fmap option_fmap option_map]. rewrite !nth_error_lookup.
  rewrite list_lookup_insert.
  destruct (decide (Z.to_nat x = Z.to_nat pos.1 /\ (Z.to_nat x < length row)%nat))
    as [[Hcol _] | _]; [| done].
  rewrite <- Hcol, Hcell. cbn. by destruct cell.
Qed.

Lemma fruit_points_nonneg n : 0 <= nth n GAME_CONFIG.POINTS_FRUIT 0.
Proof. do 8 (destruct n as [| n]; [cbn; lia |]). destruct n; cbn; lia. Qed.

(** One turn of the [ghosts.forEach] of [checkCollisions]. *)
Lemma collideWithGhost_step gridX gridY e seen ghost :
  let r := collideWithGhost gridX gridY (e, seen) ghost in
  maze (gameState r.1) = maze (gameState e)
  /\ pelletsRemaining (gameState r.1) = pelletsRemaining (gameState e)
  /\ score (gameState e) <= score (gameState r.1)
  /\ lives (gameState r.1)
     = lives (gameState e) - (if deadly gridX gridY ghost then 1 else 0)
  /\ r.2 = afterCollision gridX gridY ghost :: seen.
Proof.
  cbv zeta. unfold collideWithGhost, deadly, afterCollision, touching.
  destruct (_ <? 1); cbn [andb]; [| cbn; repeat split; first [done | lia]].
  destruct (bool_decide (state ghost = FRIGHTENED)) eqn:Hfr; cbn [negb andb].
  { cbn. repeat split; try done; try lia.
    pose proof (Z.pow_nonneg 2 (ghostEatenCount (gameState e))). unfold GAME_CONFIG.POINTS_GHOST_BASE. lia. }
  destruct (bool_decide (state ghost = EATEN)); cbn [negb]; [cbn; repeat split; first [done | lia] |].
  cbv zeta. cbn.
  match goal with |- context [if ?c then _ else _] => destruct c end;
    cbn; repeat split; first [done | lia].
Qed.

Lemma collideWithGhost_fold gridX gridY ghosts e seen :
  let r := fold_left (collideWithGhost gridX gridY) ghosts (e, seen) in
  maze (gameState r.1) = maze (gameState e)
  /\ pelletsRemaining (gameState r.1) = pelletsRemaining (gameState e)
  /\ score (gameState e) <= score (gameState r.1)
  /\ lives (gameState r.1)
     = lives (gameState e) - Z.of_nat (length (List.filter (deadly gridX gridY) ghosts))
  /\ r.2 = rev (map (afterCollision gridX gridY) ghosts) ++ seen.
Proof.
  revert e seen. induction ghosts as [| ghost ghosts IH]; intros e seen; cbv zeta.
  { cbn. repeat split; lia. }
  rewrite fold_left_cons.
  pose proof (collideWithGhost_step gridX gridY e seen ghost) as Hstep. cbv zeta in Hstep.
  destruct (collideWithGhost gridX gridY (e, seen) ghost) as [e1 seen1].
  cbn [fst snd] in Hstep. destruct Hstep as (Hm & Hp & Hs & Hl & ->).
  destruct (IH e1 (afterCollision gridX gridY ghost :: seen)) as (IHm & IHp & IHs & IHl & IHv).
  rewrite IHm, IHp, IHl, IHv, Hm, Hp, Hl. cbn [List.filter map rev].
  rewrite <- app_assoc. cbn [app].
  split; [done |]. split; [done |]. split; [lia |]. split; [| done].
  destruct (deadly gridX gridY ghost); cbn [length]; lia.
Qed.

Lemma activatePowerPellet_ghosts gs :
  map id (ghosts (activatePowerPellet gs)) = map id (ghosts gs)
  /\ map position (ghosts (activatePowerPellet gs)) = map position (ghosts gs).
Proof.
  unfold activatePowerPellet. cbn [ghosts set_ghosts]. rewrite !map_map.
  split; apply map_ext; intros ghost; by destruct (_ && _).
Qed.

Lemma afterCollision_ghosts gridX gridY (l : list Ghost) :
  map id (map (afterCollision gridX gridY) l) = map id l
  /\ map position (map (afterCollision gridX gridY) l) = map position l.
Proof.
  rewrite !map_map. split; apply map_ext; intros ghost; unfold afterCollision;
    by destruct (_ && _).
Qed.

(** What the three collections of [checkCollisions] leave for the ghost
    collisions, and the result of these. *)
Lemma checkCollisions_summary e :
  let e' := checkCollisions e in
  pelletsRemaining (gameState e') - countPellets (maze (gameState e'))
  = pelletsRemaining (gameState e) - countPellets (maze (gameState e))
  /\ (forall pos, isValidMove (maze (gameState e')) pos = isValidMove (maze (gameState e)) pos)
  /\ score (gameState e) <= score (gameState e')
  /\ map id (ghosts (gameState e')) = map id (ghosts (gameState e))
  /\ map position (ghosts (gameState e')) = map position (ghosts (gameState e))
  /\ (insideMaze (pacGridPos e) ->
      cellAt (maze (gameState e)) (pacGridPos e).1 (pacGridPos e).2 <> Some POWER_PELLET ->
      lives (gameState e')
      = lives (gameState e)
        - Z.of_nat (length (List.filter (deadly (pacGridPos e).1 (pacGridPos e).2)
                              (ghosts (gameState e))))
      /\ ghosts (gameState e')
         = map (afterCollision (pacGridPos e).1 (pacGridPos e).2) (ghosts (gameState e))).
Proof.
  cbv zeta. unfold checkCollisions, pacGridPos, insideMaze. cbn [fst snd].
  set (gridX := toGrid (posX (pacPosition (pacman (gameState e))))).
  set (gridY := toGrid (posY (pacPosition (pacman (gameState e))))).
  destruct ((gridX <? 0) || (gridX >=? GAME_CONFIG.MAZE_WIDTH) || (gridY <? 0)
            || (gridY >=? GAME_CONFIG.MAZE_HEIGHT)) eqn:Hout.
  { repeat split; try done; try lia.
    all: exfalso; apply not_false_iff_true in Hout; apply Hout;
      repeat (apply orb_false_iff; split); lia. }
  cbv zeta.
  set (cellType := cellAt (maze (gameState e)) gridX gridY).
  set (gs1 := if bool_decide (cellType = Some PELLET) then _ else gameState e).
  set (gs2 := if bool_decide (cellType = Some POWER_PELLET) then _ else gs1).
  assert (pelletsRemaining gs2 - countPellets (maze gs2)
          = pelletsRemaining (gameState e) - countPellets (maze (gameState e))
          /\ (forall pos, isValidMove (maze gs2) pos = isValidMove (maze (gameState e)) pos)
          /\ score (gameState e) <= score gs2
          /\ map id (ghosts gs2) = map id (ghosts (gameState e))
          /\ map position (ghosts gs2) = map position (ghosts (gameState e))
          /\ lives gs2 = lives (gameState e)
          /\ (cellType <> Some POWER_PELLET -> ghosts gs2 = ghosts (gameState e)))
    as (Hp2 & Hw2 & Hs2 & Hi2 & Hg2 & Hl2 & Hsame2).
  { subst gs2 gs1.
    destruct (bool_decide (cellType = Some PELLET)) eqn:Hpel;
      destruct (bool_decide (cellType = Some POWER_PELLET)) eqn:Hpow.
    - apply bool_decide_eq_true in Hpel, Hpow. congruence.
    - apply bool_decide_eq_true in Hpel.
      cbn [maze pelletsRemaining score ghosts lives set_maze set_score set_pelletsRemaining].
      rewrite (countPellets_clearCell _ _ _ PELLET Hpel) by (by left).
      split; [lia |].
      split; [intros pos; by apply (isValidMove_clearCell _ _ _ PELLET) |].
      unfold GAME_CONFIG.POINTS_PELLET. repeat split; first [done | lia].
    - apply bool_decide_eq_true in Hpow.
      destruct (activatePowerPellet_ghosts
                  (set_pelletsRemaining (pelletsRemaining (gameState e) - 1)
                     (set_score (score (gameState e) + GAME_CONFIG.POINTS_POWER_PELLET)
                        (set_maze (clearCell (maze (gameState e)) gridX gridY)
                           (gameState e))))) as [Hids Hposs].
      unfold activatePowerPellet.
      cbn [maze pelletsRemaining score ghosts lives set_maze set_score set_pelletsRemaining
           set_powerPelletActive set_powerPelletTimer set_ghostEatenCount set_ghosts]
        in Hids, Hposs |- *.
      rewrite (countPellets_clearCell _ _ _ POWER_PELLET Hpow) by (by right).
      split; [lia |].
      split; [intros pos; by apply (isValidMove_clearCell _ _ _ POWER_PELLET) |].
      unfold GAME_CONFIG.POINTS_POWER_PELLET.
      split; [lia |]. split; [exact Hids |]. split; [exact Hposs |]. split; [done |].
      intros Hne. by destruct Hne.
    - repeat split; first [done | lia]. }
  clearbody gs2. clear gs1.
  set (gs3 := match fruitPosition gs2 with Some fruit => _ | None => gs2 end).
  assert (maze gs3 = maze gs2 /\ pelletsRemaining gs3 = pelletsRemaining gs2
          /\ score gs2 <= score gs3 /\ ghosts gs3 = ghosts gs2 /\ lives gs3 = lives gs2)
    as (Hm3 & Hp3 & Hs3 & Hg3 & Hl3).
  { subst gs3. destruct (fruitPosition gs2) as [fruit |]; [| repeat split; first [done | lia]].
    destruct ((gridX =? fruit.1) && (gridY =? fruit.2)); [| repeat split; first [done | lia]].
    cbn [maze pelletsRemaining score ghosts lives set_score set_fruitScore set_fruitPosition
         set_fruitSpawned].
    repeat split; try done.
    pose proof (fruit_points_nonneg (Z.to_nat (Z.min (level gs2 - 1) 7))). lia. }
  clearbody gs3.
  pose proof (collideWithGhost_fold gridX gridY (ghosts gs3) (set_gameState gs3 e) [])
    as Hfold. cbv zeta in Hfold.
  destruct (fold_left (collideWithGhost gridX gridY) (ghosts gs3) (set_gameState gs3 e, []))
    as [e4 visited].
  cbn [fst snd gameState set_gameState] in Hfold.
  destruct Hfold as (Hm4 & Hp4 & Hs4 & Hl4 & Hv4).
  rewrite app_nil_r in Hv4. subst visited. rewrite rev_involutive.
  cbn [gameState set_gameState maze pelletsRemaining score ghosts lives set_ghosts].
  destruct (afterCollision_ghosts gridX gridY (ghosts gs3)) as [Hids Hposs].
  rewrite Hm4, Hp4, Hm3, Hp3, Hids, Hposs, Hg3, Hl4, Hl3, Hl2.
  split; [exact Hp2 |]. split; [exact Hw2 |]. split; [lia |].
  split; [exact Hi2 |]. split; [exact Hg2 |].
  intros _ Hpower. rewrite Hg3, (Hsame2 Hpower). by split.
Qed.

End Collisions.

(** X22. Eating keeps the books: [checkCollisions] lowers [pelletsRemaining]
    by exactly the number of pellets it takes out of the maze. *)
Theorem checkCollisions_pellet_count (e : GameEngine.t) :
  GameEngine.pelletsRemaining (GameEngine.gameState (GameEngine.checkCollisions e))
  - GameEngine.countPellets (GameEngine.maze (GameEngine.gameState (GameEngine.checkCollisions e)))
  = GameEngine.pelletsRemaining (GameEngine.gameState e)
    - GameEngine.countPellets (GameEngine.maze (GameEngine.gameState e)).
Proof. apply (checkCollisions_summary e). Qed.

(** X23. [checkCollisions] changes no wall: every move that was valid is valid
    afterwards and conversely; and no ghost changes place or identity. *)
Theorem checkCollisions_walls (e : GameEngine.t) (pos : GameEngine.GridPos) :
  GameEngine.isValidMove (GameEngine.maze (GameEngine.gameState (GameEngine.checkCollisions e)))
    pos
  = GameEngine.isValidMove (GameEngine.maze (GameEngine.gameState e)) pos
  /\ map id (GameEngine.ghosts (GameEngine.gameState (GameEngine.checkCollisions e)))
     = map id (GameEngine.ghosts (GameEngine.gameState e))
  /\ map position (GameEngine.ghosts (GameEngine.gameState (GameEngine.checkCollisions e)))
     = map position (GameEngine.ghosts (GameEngine.gameState e)).
Proof.
  destruct (checkCollisions_summary e) as (_ & Hwalls & _ & Hids & Hposs & _).
  split; [apply Hwalls | by split].
Qed.

(** X24. The score never goes down in [checkCollisions]. *)
Theorem checkCollisions_score (e : GameEngine.t) :
  GameEngine.score (GameEngine.gameState e)
  <= GameEngine.score (GameEngine.gameState (GameEngine.checkCollisions e)).
Proof. apply (checkCollisions_summary e). Qed.

(** X25. With Pac-Man inside the maze and not on a power pellet, every ghost on
    Pac-Man's cell that is neither frightened nor eaten costs one life, in
    the same frame, and the frightened ghosts on that cell are eaten; all
    other ghosts are as they were. *)
Theorem checkCollisions_lives (e : GameEngine.t) :
  insideMaze (pacGridPos e) ->
  cellAt (GameEngine.maze (GameEngine.gameState e)) (pacGridPos e).1 (pacGridPos e).2
  <> Some POWER_PELLET ->
  GameEngine.lives (GameEngine.gameState (GameEngine.checkCollisions e))
  = GameEngine.lives (GameEngine.gameState e)
    - Z.of_nat (length (List.filter (deadly (pacGridPos e).1 (pacGridPos e).2)
                          (GameEngine.ghosts (GameEngine.gameState e))))
  /\ GameEngine.ghosts (GameEngine.gameState (GameEngine.checkCollisions e))
     = map (afterCollision (pacGridPos e).1 (pacGridPos e).2)
         (GameEngine.ghosts (GameEngine.gameState e)).
Proof.
  intros Hinside Hpower.
  by apply (checkCollisions_summary e).
Qed.

Lemma checkCollisions_lives_witness :
  GameEngine.lives (GameEngine.gameState (GameEngine.checkCollisions crowdedEngine))
  = 3 - 2
  /\ GameEngine.ghosts (GameEngine.gameState (GameEngine.checkCollisions crowdedEngine))
     = map (afterCollision 9 15) (GameEngine.ghosts (GameEngine.gameState crowdedEngine)).
Proof.
  apply (checkCollisions_lives crowdedEngine).
  - vm_compute. repeat split; discriminate.
  - vm_compute. discriminate.
Defined.

(** ** Timers, conditions and resets *)

Section Timers.

Import GameEngine.

Lemma updatePowerPelletTimer_counts gs :
  powerPelletActive gs = true ->
  powerPelletTimer (updatePowerPelletTimer gs) = powerPelletTimer gs - 1
  /\ powerPelletActive (updatePowerPelletTimer gs) = negb (powerPelletTimer gs - 1 <=? 0).
Proof.
  intros Hactive. unfold updatePowerPelletTimer. rewrite Hactive. cbv zeta.
  cbn [powerPelletTimer set_powerPelletTimer].
  destruct (powerPelletTimer gs - 1 <=? 0); by split.
Qed.

Lemma updatePowerPelletTimer_idle gs :
  powerPelletActive gs = false -> updatePowerPelletTimer gs = gs.
Proof. intros Hidle. unfold updatePowerPelletTimer. by rewrite Hidle. Qed.

Lemma resetGhost_idempotent (ghost : Ghost) :
  let reset ghost :=
    set_targetShared false
      (set_houseTimer (if bool_decide (id ghost = BLINKY) then 0 else 60)
         (set_state (if bool_decide (id ghost = BLINKY) then CHASE else IN_HOUSE)
            (set_velocity {| dx := 0; dy := 0 |}
               (set_direction UP
                  (set_position (toPixels (startPosition (id ghost))) ghost))))) in
  reset (reset ghost) = reset ghost.
Proof. by destruct ghost. Qed.

End Timers.

(** X26. After a power pellet has been activated, the power pellet is active
    for [POWER_PELLET_DURATION - 1] updates of its timer and is off from
    then on, its timer standing at 0. *)
Theorem powerPellet_countdown (gs : GameEngine.GameState) (n : nat) :
  let after := Nat.iter n GameEngine.updatePowerPelletTimer (GameEngine.activatePowerPellet gs) in
  GameEngine.powerPelletActive after = (Z.of_nat n <? GAME_CONFIG.POWER_PELLET_DURATION)
  /\ GameEngine.powerPelletTimer after
     = Z.max 0 (GAME_CONFIG.POWER_PELLET_DURATION - Z.of_nat n).
Proof.
  cbv zeta. induction n as [| n [IHa IHt]]; [by split |].
  rewrite Nat2Z.inj_succ, Nat.iter_succ.
  set (before := Nat.iter n _ _) in *. unfold GAME_CONFIG.POWER_PELLET_DURATION in *.
  destruct (Z.of_nat n <? 360) eqn:Hn.
  - apply Z.ltb_lt in Hn.
    destruct (updatePowerPelletTimer_counts before IHa) as [-> ->]. rewrite IHt.
    split; [| lia].
    destruct (Z.max 0 (360 - Z.of_nat n) - 1 <=? 0) eqn:Hend; cbn [negb]; symmetry;
      [apply Z.leb_le in Hend; apply Z.ltb_ge | apply Z.leb_gt in Hend; apply Z.ltb_lt]; lia.
  - apply Z.ltb_ge in Hn. rewrite (updatePowerPelletTimer_idle before IHa), IHa, IHt.
    split; [symmetry; apply Z.ltb_ge |]; lia.
Qed.

(** X27. After [checkGameConditions] the high score is the larger of the old
    high score and the score; a second check in a row writes nothing to
    the store; and the level goes up by one exactly when no pellet is
    left, which is also when the next level is scheduled. *)
Theorem checkGameConditions_highScore (gs : GameEngine.GameState) :
  let checked := GameEngine.checkGameConditions gs in
  GameEngine.highScore (GameEngine.conditionsState checked)
  = Z.max (GameEngine.highScore gs) (GameEngine.score gs)
  /\ GameEngine.highScoreStored
       (GameEngine.checkGameConditions (GameEngine.conditionsState checked)) = None
  /\ GameEngine.nextLevelScheduled checked = (GameEngine.pelletsRemaining gs <=? 0)
  /\ GameEngine.level (GameEngine.conditionsState checked)
     = GameEngine.level gs + (if GameEngine.pelletsRemaining gs <=? 0 then 1 else 0).
Proof.
  cbv zeta. unfold GameEngine.checkGameConditions.
  destruct (GameEngine.pelletsRemaining gs <=? 0) eqn:Hdone;
    cbn [GameEngine.highScore GameEngine.score GameEngine.pelletsRemaining GameEngine.level
         GameEngine.set_level GameEngine.set_gameStatus];
    destruct (GameEngine.highScore gs <? GameEngine.score gs) eqn:Hbest;
    cbn [GameEngine.highScore GameEngine.score GameEngine.pelletsRemaining GameEngine.level
         GameEngine.set_level GameEngine.set_gameStatus GameEngine.set_highScore
         GameEngine.conditionsState GameEngine.nextLevelScheduled
         GameEngine.highScoreStored];
    rewrite ?Hdone;
    cbn [GameEngine.highScore GameEngine.score GameEngine.pelletsRemaining GameEngine.level
         GameEngine.set_level GameEngine.set_gameStatus GameEngine.set_highScore
         GameEngine.conditionsState GameEngine.nextLevelScheduled
         GameEngine.highScoreStored];
    rewrite ?Z.ltb_irrefl, ?Hbest;
    cbn [GameEngine.highScoreStored];
    [apply Z.ltb_lt in Hbest | apply Z.ltb_ge in Hbest
     | apply Z.ltb_lt in Hbest | apply Z.ltb_ge in Hbest];
    repeat split; lia.
Qed.

(** X28. Resetting the positions twice is resetting them once, and a reset
    leaves the maze, the pellet count, the score, the lives and the level
    alone. *)
Theorem resetPositions_idempotent (gs : GameEngine.GameState) :
  GameEngine.resetPositions (GameEngine.resetPositions gs) = GameEngine.resetPositions gs
  /\ GameEngine.maze (GameEngine.resetPositions gs) = GameEngine.maze gs
  /\ GameEngine.pelletsRemaining (GameEngine.resetPositions gs) = GameEngine.pelletsRemaining gs
  /\ GameEngine.score (GameEngine.resetPositions gs) = GameEngine.score gs
  /\ GameEngine.lives (GameEngine.resetPositions gs) = GameEngine.lives gs
  /\ GameEngine.level (GameEngine.resetPositions gs) = GameEngine.level gs.
Proof.
  split; [| by repeat split].
  destruct gs as [pac ghosts].
  cbv [GameEngine.resetPositions GameEngine.set_gameStatus GameEngine.set_powerPelletTimer
       GameEngine.set_powerPelletActive GameEngine.set_ghosts GameEngine.set_pacman
       GameEngine.pacman GameEngine.ghosts GameEngine.maze GameEngine.score
       GameEngine.highScore GameEngine.lives GameEngine.level GameEngine.pelletsRemaining
       GameEngine.powerPelletActive GameEngine.powerPelletTimer GameEngine.gameStatus
       GameEngine.ghostEatenCount GameEngine.fruitSpawned GameEngine.fruitPosition
       GameEngine.fruitScore GameEngine.aiLearningLevel GameEngine.showAIFeatures
       GameEngine.dangerMap GameEngine.playerPatterns GameEngine.screenShake
       GameEngine.vhsGlitch].
  f_equal.
  rewrite map_map. apply map_ext. intros ghost. apply (resetGhost_idempotent ghost).
Qed.

(** X29. The next level starts with the layout's maze and with the pellet
    count of that maze, whatever was left of the level before, so that it
    is not complete at once; score, level and lives are carried over. *)
Theorem startNextLevel_playable (gs : GameEngine.GameState) :
  GameEngine.nextLevelScheduled (GameEngine.checkGameConditions (GameEngine.startNextLevel gs))
  = false
  /\ GameEngine.pelletsRemaining (GameEngine.startNextLevel gs)
     = GameEngine.countPellets (GameEngine.maze (GameEngine.startNextLevel gs))
  /\ GameEngine.score (GameEngine.startNextLevel gs) = GameEngine.score gs
  /\ GameEngine.level (GameEngine.startNextLevel gs) = GameEngine.level gs
  /\ GameEngine.lives (GameEngine.startNextLevel gs) = GameEngine.lives gs.
Proof.
  split; [| by repeat split].
  unfold GameEngine.checkGameConditions. cbv zeta.
  by destruct (_ <? _).
Qed.

(** ** Predicted wandering and escape routes *)

Section Wandering.

Import AIEngine.

Variable maze : Maze.

Lemma getPossibleDirections_valid pos dir :
  In dir (getPossibleDirections pos maze) ->
  dir <> NONE /\ AStar.isValidPosition (AStar.getNextPosition pos dir) maze = true.
Proof.
  unfold getPossibleDirections. intros Hin.
  repeat (apply in_app_or in Hin as [Hin | Hin];
          [match type of Hin with In _ (if ?c then _ else _) => destruct c eqn:Hc end;
           [destruct Hin as [<- | []]; split; [discriminate | exact Hc] | destruct Hin] |]).
  match type of Hin with In _ (if ?c then _ else _) => destruct c eqn:Hc end;
    [destruct Hin as [<- | []]; split; [discriminate | exact Hc] | destruct Hin].
Qed.

Lemma step_distance pos dir :
  dir <> NONE -> AStar.manhattanDistance pos (AStar.getNextPosition pos dir) = 1.
Proof.
  intros Hdir. unfold AStar.manhattanDistance, AStar.getNextPosition.
  destruct pos as [x y], dir; try done; cbn [fst snd]; lia.
Qed.

Lemma randomStep_wanders rnd acc i :
  (0 <= rnd i)%Q -> (rnd i < 1)%Q ->
  (randomStep rnd maze acc i).2 = acc.2 ++ [(randomStep rnd maze acc i).1]
  /\ wandering maze acc.1 [(randomStep rnd maze acc i).1].
Proof.
  intros Hlow Hhigh. unfold randomStep. cbn [fst snd wandering].
  split; [done |]. split; [| done].
  destruct (getPossibleDirections acc.1 maze) as [| first rest] eqn:Hdirs.
  - left. split; [| done]. cbn [length]. by destruct (Z.to_nat _).
  - right. rewrite <- Hdirs.
    assert (getPossibleDirections acc.1 maze <> []) as Hne by (by rewrite Hdirs).
    pose proof (randomChoice_elem (rnd i) _ Hlow Hhigh Hne) as Hin.
    unfold GameEngine.randomChoice in Hin.
    apply getPossibleDirections_valid in Hin as [Hdir Hvalid].
    split; [by apply step_distance | exact Hvalid].
Qed.

Lemma last_cons_default {A} (x : A) l a b : List.last (x :: l) a = List.last (x :: l) b.
Proof. revert x. induction l as [| y l IH]; intros x; [done |]. apply (IH y). Qed.

Lemma wandering_app from l next :
  wandering maze from l -> wandering maze (List.last l from) [next] ->
  wandering maze from (l ++ [next]).
Proof.
  revert from. induction l as [| p l IH]; intros from Hl Hnext; [exact Hnext |].
  destruct Hl as [Hstep Hrest]. split; [exact Hstep |]. apply IH; [exact Hrest |].
  destruct l as [| g l]; [exact Hnext |]. by rewrite (last_cons_default g l p from).
Qed.

Lemma randomSteps_wander rnd start steps acc :
  (forall i, (0 <= rnd i)%Q /\ (rnd i < 1)%Q) ->
  wandering maze start acc.2 -> acc.1 = List.last acc.2 start ->
  let res := fold_left (randomStep rnd maze) steps acc in
  wandering maze start res.2 /\ length res.2 = (length acc.2 + length steps)%nat.
Proof.
  intros Hrnd. revert acc. induction steps as [| i steps IH]; intros acc Hacc Hlast; cbv zeta.
  { cbn. split; [done | lia]. }
  rewrite fold_left_cons.
  destruct (Hrnd i) as [Hlow Hhigh].
  destruct (randomStep_wanders rnd acc i Hlow Hhigh) as [Hpath Hstep].
  destruct (IH (randomStep rnd maze acc i)) as [Hwalk Hlen].
  - rewrite Hpath. apply wandering_app; [exact Hacc | by rewrite <- Hlast].
  - rewrite Hpath. by rewrite List.last_last.
  - split; [exact Hwalk |]. rewrite Hlen, Hpath, length_app. cbn [length]. lia.
Qed.

End Wandering.

(** X11. The movement predicted for a frightened or eaten ghost has
    [AI_PREDICTION_STEPS] positions; each is a valid position next to the
    one before, or the one before again when that has no valid neighbour. *)
Theorem predictRandomMovement_wanders (rnd : nat -> Q) (ghostPosition : AStar.GridPos)
    (maze : Maze) :
  (forall i, (0 <= rnd i)%Q /\ (rnd i < 1)%Q) ->
  length (AIEngine.predictRandomMovement rnd ghostPosition maze)
  = Z.to_nat GAME_CONFIG.AI_PREDICTION_STEPS
  /\ wandering maze ghostPosition (AIEngine.predictRandomMovement rnd ghostPosition maze).
Proof.
  intros Hrnd. unfold AIEngine.predictRandomMovement.
  destruct (randomSteps_wander maze rnd ghostPosition
              (seq 0 (Z.to_nat GAME_CONFIG.AI_PREDICTION_STEPS)) (ghostPosition, []) Hrnd)
    as [Hwalk Hlen]; [done | done |].
  split; [| exact Hwalk]. rewrite Hlen, length_seq. reflexivity.
Qed.

Lemma predictRandomMovement_wanders_witness :
  length (AIEngine.predictRandomMovement (fun _ => 1 # 2) (1, 0) corridor3)
  = Z.to_nat GAME_CONFIG.AI_PREDICTION_STEPS
  /\ wandering corridor3 (1, 0)
       (AIEngine.predictRandomMovement (fun _ => 1 # 2) (1, 0) corridor3).
Proof.
  apply (predictRandomMovement_wanders (fun _ => 1 # 2) (1, 0) corridor3).
  intros _. split; [vm_compute; discriminate | reflexivity].
Defined.

Section EscapeRoutes.

Import AIEngine.

Variables (ghosts : list Ghost) (maze : Maze).

Lemma budget_pos k : 1 <= budget k.
Proof. induction k as [| k IH]; cbn [budget]; lia. Qed.

Lemma queueBudget_cons entry queue :
  queueBudget (entry :: queue) = routeBudget entry + queueBudget queue.
Proof. reflexivity. Qed.

Lemma queueBudget_nonneg queue : 0 <= queueBudget queue.
Proof.
  induction queue as [| e queue IH]; [done |].
  rewrite queueBudget_cons.
  pose proof (budget_pos (7 - length (routePath e))). unfold routeBudget. lia.
Qed.

Lemma queueBudget_snoc queue entry :
  queueBudget (queue ++ [entry]) = queueBudget queue + routeBudget entry.
Proof.
  induction queue as [| e queue IH].
  - cbn [app]. rewrite queueBudget_cons. change (queueBudget []) with 0. lia.
  - cbn [app]. rewrite !queueBudget_cons, IH. lia.
Qed.

Lemma explore_budget pos path queue dir :
  queueBudget (explore maze pos path queue dir)
  <= queueBudget queue + budget (7 - S (length path)).
Proof.
  unfold explore. pose proof (budget_pos (7 - S (length path))).
  destruct (AStar.isValidPosition _ maze); [| lia].
  rewrite queueBudget_snoc. unfold routeBudget. cbn [routePath].
  rewrite length_app. cbn [length]. rewrite Nat.add_1_r. lia.
Qed.

Lemma explore_fold_budget pos path dirs queue :
  queueBudget (fold_left (explore maze pos path) dirs queue)
  <= queueBudget queue + Z.of_nat (length dirs) * budget (7 - S (length path)).
Proof.
  revert queue. induction dirs as [| dir dirs IH]; intros queue;
    [cbn [fold_left length]; lia |].
  rewrite fold_left_cons. specialize (IH (explore maze pos path queue dir)).
  pose proof (explore_budget pos path queue dir).
  rewrite length_cons, Nat2Z.inj_succ. lia.
Qed.

(** The loop ends when its fuel exceeds the budget of its queue. *)
Lemma escapeLoop_terminates fuel queue visited routes :
  queueBudget queue < Z.of_nat fuel ->
  is_Some (escapeLoop fuel ghosts maze queue visited routes).
Proof.
  revert queue visited routes.
  induction fuel as [| fuel IH]; intros queue visited routes Hfuel.
  { pose proof (queueBudget_nonneg queue). lia. }
  cbn [escapeLoop]. destruct queue as [| entry queue]; [by eexists |].
  rewrite queueBudget_cons in Hfuel.
  pose proof (budget_pos (7 - length (routePath entry))) as Hpos.
  unfold routeBudget in Hfuel. rewrite Nat2Z.inj_succ in Hfuel.
  destruct (bool_decide (routePosition entry ∈ visited)); cbn [orb];
    [apply IH; lia |].
  destruct (6 <? length (routePath entry))%nat eqn:Hlong; [apply IH; lia |].
  cbv zeta. destruct (_ && _); [apply IH; lia |].
  apply IH. apply Nat.ltb_ge in Hlong.
  pose proof (explore_fold_budget (routePosition entry) (routePath entry)
                AStar.directions queue) as Hfold.
  change (Z.of_nat (length AStar.directions)) with 4 in Hfold.
  assert ((7 - length (routePath entry))%nat = S (7 - S (length (routePath entry))))
    as Hk by lia.
  rewrite Hk in Hfuel. cbn [budget] in Hfuel. lia.
Qed.

Lemma explore_valid pos path queue dir :
  validRoutes maze queue ->
  Forall (fun p => AStar.isValidPosition p maze = true) path ->
  validRoutes maze (explore maze pos path queue dir).
Proof.
  intros Hqueue Hpath. unfold explore.
  destruct (AStar.isValidPosition _ maze) eqn:Hvalid; [| done].
  apply Forall_app. split; [done |]. apply Forall_singleton. cbn [routePath].
  apply Forall_app. split; [done |]. by apply Forall_singleton.
Qed.

Lemma explore_fold_valid pos path dirs queue :
  validRoutes maze queue ->
  Forall (fun p => AStar.isValidPosition p maze = true) path ->
  validRoutes maze (fold_left (explore maze pos path) dirs queue).
Proof.
  revert queue. induction dirs as [| dir dirs IH]; intros queue Hqueue Hpath; [done |].
  rewrite fold_left_cons. apply IH; [by apply explore_valid | done].
Qed.

Lemma escapeLoop_valid fuel queue visited routes result :
  validRoutes maze queue ->
  Forall (fun p => AStar.isValidPosition p maze = true) routes ->
  escapeLoop fuel ghosts maze queue visited routes = Some result ->
  Forall (fun p => AStar.isValidPosition p maze = true) result.
Proof.
  revert queue visited routes.
  induction fuel as [| fuel IH]; intros queue visited routes Hqueue Hroutes; [done |].
  cbn [escapeLoop]. destruct queue as [| entry queue]; [by intros [= <-] |].
  apply Forall_cons in Hqueue as [Hentry Hqueue].
  destruct (_ || _); [by apply IH |].
  cbv zeta. destruct (_ && _).
  - apply IH; [done |]. apply Forall_app. by split.
  - apply IH; [| done]. by apply explore_fold_valid.
Qed.

End EscapeRoutes.

(** X12. With enough fuel the search for escape routes ends, and every cell of
    the routes it reports is a valid position of the maze. The bound is
    the number of entries that can pass through the queue: paths have at
    most 7 cells and every entry adds at most four. *)
Theorem findEscapeRoutes_walkable (fuel : nat) (pacmanPosition : AStar.GridPos)
    (ghosts : list Ghost) (maze : Maze) :
  21845 < Z.of_nat fuel ->
  exists routes,
    AIEngine.findEscapeRoutes fuel pacmanPosition ghosts maze = Some routes
    /\ Forall (fun p => AStar.isValidPosition p maze = true) routes.
Proof.
  intros Hfuel. unfold AIEngine.findEscapeRoutes.
  destruct (escapeLoop_terminates ghosts maze fuel
              [{| AIEngine.routePosition := pacmanPosition; AIEngine.routePath := [] |}]
              ∅ []) as [routes Hroutes]; [exact Hfuel |].
  exists routes. split; [exact Hroutes |].
  eapply escapeLoop_valid; [| | exact Hroutes]; [| done].
  apply Forall_singleton. cbn. done.
Qed.

Lemma findEscapeRoutes_walkable_witness :
  exists routes,
    AIEngine.findEscapeRoutes (Z.to_nat 21846) (9, 15) [blinkyAt11] MAZE_LAYOUT = Some routes
    /\ Forall (fun p => AStar.isValidPosition p MAZE_LAYOUT = true) routes.
Proof.
  apply (findEscapeRoutes_walkable (Z.to_nat 21846) (9, 15) [blinkyAt11] MAZE_LAYOUT).
  reflexivity.
Defined.
